(** * Delta Engine: save file, scenes and game loop

    A shallow embedding of [deltaflames4k6.23.25.py]: the save-file utilities
    ([load_save], [write_save]), the scene classes ([SceneBase], [TitleScene],
    [ChapterScene] and its four empty subclasses) and [DeltaGame] with its
    [change_scene] and the update step of [run].

    Python objects are mutated in place; here every method is a function on an
    explicit state (the game object, the operating-system world it touches and
    a log of lifecycle calls) that either returns or raises. *)

From Stdlib Require Import ZArith List String Ascii Bool Lia.
From Stdlib Require Import Floats.PrimFloat Floats.SpecFloat Floats.FloatOps
  Floats.FloatAxioms.
From Stdlib Require Import DecimalString DecimalZ DecimalPos DecimalFacts.
Import ListNotations.
Open Scope string_scope.
Open Scope list_scope.
Open Scope Z_scope.

(** ** Python values and exceptions *)

(** The exceptions the modelled code can meet. The payload is the text that
    [str(e)] gives. *)
Inductive exn : Type :=
| KeyError (msg : string)
| TypeError (msg : string)
| AttributeError (msg : string)
| ValueError (msg : string)
| OSError (msg : string).

Definition exn_str (e : exn) : string :=
  match e with
  | KeyError m | TypeError m | AttributeError m | ValueError m | OSError m => m
  end.

(** A call either returns a value or raises. *)
Inductive outcome (A : Type) : Type :=
| Returns (a : A)
| Raises (e : exn).
Arguments Returns {A} a.
Arguments Raises {A} e.

(** The values a save record is made of: what [json.loads] builds from a text
    and what the engine stores into it. Numbers are Python ints and floats
    (IEEE binary64); a dict is the list of its items in insertion order, with
    pairwise distinct keys. *)
#[local] Unset Elimination Schemes.
Inductive pyval : Type :=
| PNone
| PBool (b : bool)
| PInt (z : Z)
| PFloat (f : float)
| PStr (s : string)
| PList (items : list pyval)
| PDict (items : list (string * pyval)).
#[local] Set Elimination Schemes.

(** Induction on a value, with the property known for the items of a list and
    for the values of a dict. *)
Section PyvalInduction.
Variable P : pyval -> Prop.
Hypothesis HNone : P PNone.
Hypothesis HBool : forall b, P (PBool b).
Hypothesis HInt : forall z, P (PInt z).
Hypothesis HFloat : forall f, P (PFloat f).
Hypothesis HStr : forall s, P (PStr s).
Hypothesis HList : forall l, Forall P l -> P (PList l).
Hypothesis HDict : forall kvs, Forall (fun kv => P (snd kv)) kvs -> P (PDict kvs).

Fixpoint pyval_induction (v : pyval) : P v :=
  match v with
  | PNone => HNone
  | PBool b => HBool b
  | PInt z => HInt z
  | PFloat f => HFloat f
  | PStr s => HStr s
  | PList l =>
      HList l ((fix all (l : list pyval) : Forall P l :=
                  match l with
                  | [] => Forall_nil P
                  | x :: r => Forall_cons x (pyval_induction x) (all r)
                  end) l)
  | PDict kvs =>
      HDict kvs ((fix all (l : list (string * pyval))
                    : Forall (fun kv => P (snd kv)) l :=
                    match l with
                    | [] => Forall_nil _
                    | kv :: r =>
                        Forall_cons (P := fun kv => P (snd kv)) kv
                          (pyval_induction (snd kv)) (all r)
                    end) kvs)
  end.
End PyvalInduction.

(** No string occurs twice. *)
Fixpoint distinct (keys : list string) : bool :=
  match keys with
  | [] => true
  | k :: rest => negb (existsb (String.eqb k) rest) && distinct rest
  end.

(** The lists of items that stand for dicts are dicts: no key occurs twice,
    at any depth. Every value Python can build is of this kind. *)
Fixpoint well_formed (v : pyval) : bool :=
  match v with
  | PList l => forallb well_formed l
  | PDict kvs =>
      distinct (map fst kvs)
      && (fix all (l : list (string * pyval)) : bool :=
            match l with
            | [] => true
            | (_, x) :: r => well_formed x && all r
            end) kvs
  | _ => true
  end.

(** CPython refuses to turn an int of more than 4300 decimal digits into
    text, and such a text into an int: the ints it converts are below
    [int_limit] in size. *)
Definition int_limit : Z := 10 ^ 4300.

(** The values that [str] and [json.dumps] can write. *)
Fixpoint writable (v : pyval) : bool :=
  match v with
  | PInt z => Z.abs z <? int_limit
  | PList l => forallb writable l
  | PDict kvs =>
      (fix all (l : list (string * pyval)) : bool :=
         match l with
         | [] => true
         | (_, x) :: r => writable x && all r
         end) kvs
  | _ => true
  end.

(** [d.get(k)] on the items of a dict. *)
Fixpoint dict_get (k : string) (items : list (string * pyval)) : option pyval :=
  match items with
  | [] => None
  | (k', v) :: rest => if String.eqb k k' then Some v else dict_get k rest
  end.

(** [d[k] = v] on the items of a dict: an existing key keeps its place, a new
    key goes last. *)
Fixpoint dict_set (k : string) (v : pyval) (items : list (string * pyval))
  : list (string * pyval) :=
  match items with
  | [] => [(k, v)]
  | (k', v') :: rest =>
      if String.eqb k k' then (k', v) :: rest else (k', v') :: dict_set k v rest
  end.

(** The expression [o[k]] for a string [k]. *)
Definition getitem (o : pyval) (k : string) : outcome pyval :=
  match o with
  | PDict items =>
      match dict_get k items with
      | Some v => Returns v
      | None => Raises (KeyError k)
      end
  | PList _ => Raises (TypeError "list indices must be integers or slices, not str")
  | PStr _ => Raises (TypeError "string indices must be integers, not 'str'")
  | PNone => Raises (TypeError "'NoneType' object is not subscriptable")
  | PBool _ => Raises (TypeError "'bool' object is not subscriptable")
  | PInt _ => Raises (TypeError "'int' object is not subscriptable")
  | PFloat _ => Raises (TypeError "'float' object is not subscriptable")
  end.

(** The statement [o[k] = v] for a string [k]; the result is [o] afterwards. *)
Definition setitem (o : pyval) (k : string) (v : pyval) : outcome pyval :=
  match o with
  | PDict items => Returns (PDict (dict_set k v items))
  | PList _ => Raises (TypeError "list indices must be integers or slices, not str")
  | PStr _ => Raises (TypeError "'str' object does not support item assignment")
  | PNone => Raises (TypeError "'NoneType' object does not support item assignment")
  | PBool _ => Raises (TypeError "'bool' object does not support item assignment")
  | PInt _ => Raises (TypeError "'int' object does not support item assignment")
  | PFloat _ => Raises (TypeError "'float' object does not support item assignment")
  end.

(** [s * n] for a string: [n] copies, none when [n <= 0]. *)
Fixpoint str_repeat (n : nat) (s : string) : string :=
  match n with
  | O => EmptyString
  | S m => (s ++ str_repeat m s)%string
  end.

Fixpoint list_repeat {A : Type} (n : nat) (l : list A) : list A :=
  match n with
  | O => []
  | S m => l ++ list_repeat m l
  end.

Definition sf_of_Z (z : Z) : spec_float :=
  match z with
  | Z0 => S754_zero false
  | Zpos p => S754_finite false p 0
  | Zneg p => S754_finite true p 0
  end.

(** [a / b] on two ints: the quotient of the exact integers, rounded once to
    the nearest double. Its only use divides by the literal 1000; the
    [ZeroDivisionError] and [OverflowError] of Python are out of its reach. *)
Definition int_truediv (a b : Z) : float :=
  SF2Prim (SFdiv prec emax (sf_of_Z a) (sf_of_Z b)).

(** [float(z)], the conversion Python applies to the int operand of a mixed
    operation. *)
Definition float_of_int (z : Z) : float :=
  SF2Prim (binary_normalize prec emax z 0 false).

(** The expression [n * v] for an int literal [n] that a double holds
    exactly. *)
Definition int_mul (n : Z) (v : pyval) : outcome pyval :=
  match v with
  | PInt z => Returns (PInt (n * z))
  | PFloat f => Returns (PFloat (PrimFloat.mul (float_of_int n) f))
  | PBool b => Returns (PInt (n * (if b then 1 else 0)))
  | PStr s => Returns (PStr (str_repeat (Z.to_nat n) s))
  | PList l => Returns (PList (list_repeat (Z.to_nat n) l))
  | PNone => Raises (TypeError "unsupported operand type(s) for *: 'int' and 'NoneType'")
  | PDict _ => Raises (TypeError "unsupported operand type(s) for *: 'int' and 'dict'")
  end.

(** ** Python numbers of the movement code *)

(** [dx] and [dy] start as the int [0] and become floats once a key adds
    [speed * dt / 1000]. Floats are IEEE binary64. *)
Inductive pynum : Type :=
| PyInt (z : Z)
| PyFloat (f : float).

Definition to_float (n : pynum) : float :=
  match n with
  | PyInt z => float_of_int z
  | PyFloat f => f
  end.

(** [n - f] and [n + f] with a float right operand. *)
Definition num_sub (n : pynum) (f : float) : pynum :=
  PyFloat (PrimFloat.sub (to_float n) f).

Definition num_add (n : pynum) (f : float) : pynum :=
  PyFloat (PrimFloat.add (to_float n) f).

(** The range of a C [int], and a C [int] sum as the machine makes it: the
    low 32 bits, read in two's complement. *)
Definition INT_MIN : Z := - 2 ^ 31.
Definition INT_MAX : Z := 2 ^ 31 - 1.

Definition wrap32 (z : Z) : Z := (z + 2 ^ 31) mod 2 ^ 32 - 2 ^ 31.

(** A finite float without its fraction, which is dropped towards zero. *)
Definition float_to_Z (f : float) : option Z :=
  match Prim2SF f with
  | S754_zero _ => Some 0
  | S754_finite s m e =>
      let a := if 0 <=? e then Z.shiftl (Zpos m) e else Z.shiftr (Zpos m) (- e) in
      Some (if s then - a else a)
  | _ => None
  end.

(** The C conversion [(int)dv]: the fraction is dropped, towards zero. A
    value that this takes out of the range of an [int], an infinity and a
    NaN give [INT_MIN], as the conversion instruction of x86-64 does. *)
Definition float_to_int (f : float) : Z :=
  match float_to_Z f with
  | Some z => if (INT_MIN <=? z) && (z <=? INT_MAX) then z else INT_MIN
  | None => INT_MIN
  end.

(** ** pygame: rectangles and the keyboard *)

Module pg.

(** [pygame.Rect]: "the coordinates for Rect objects are all integers", and
    they are kept in four C [int]s. *)
Record Rect : Type := { x : Z; y : Z; w : Z; h : Z }.

(** The coordinates are in the range of a C [int], as those of every Rect
    that pygame holds are. *)
Definition fits (r : Rect) : Prop :=
  INT_MIN <= x r <= INT_MAX /\ INT_MIN <= y r <= INT_MAX.

(** pygame reads a number argument as a C int: a float through [(int)], an
    int cut to its low 32 bits (the engine passes the int 0 only). *)
Definition IntFromObj (n : pynum) : Z :=
  match n with
  | PyInt z => wrap32 z
  | PyFloat f => float_to_int f
  end.

(** [Rect.move_ip(dx, dy)]: [x += dx; y += dy] on C [int]s, which wrap. *)
Definition move_ip (r : Rect) (dx dy : pynum) : Rect :=
  {| x := wrap32 (x r + IntFromObj dx); y := wrap32 (y r + IntFromObj dy);
     w := w r; h := h r |}.

(** What [pygame.key.get_pressed()] answers for the five keys the engine
    looks at. *)
Record keys : Type :=
  { K_ESCAPE : bool; K_a : bool; K_d : bool; K_w : bool; K_s : bool }.

End pg.

(** ** The save file and the operating system *)

(** [SAVE_PATH] on disk: absent; out of reach, when the system refuses to
    say whether it is there (no permission to search the directory);
    present but not readable as text (a directory, no permission, bytes that
    do not decode); or a text. *)
Inductive file_state : Type :=
| Missing
| Inaccessible (e : exn)
| Unreadable (e : exn)
| Text (content : string).

(** The part of the world the engine touches. [write_fault] is how the system
    answers an attempt to write the save file: [None] lets it through,
    [Some (e, rest)] makes it raise [e] and leaves the file as [rest] (as it
    was when permission is denied, cut short when the disk is full). [stdout]
    holds the printed lines, oldest first. *)
Record world : Type :=
  { save_file : file_state;
    write_fault : option (exn * file_state);
    stdout : list string }.

(** [SAVE_PATH.exists()]: [False] when the system reports that there is no
    such file; any other error of the look-up is raised. *)
Definition Path_exists (w : world) : outcome bool :=
  match save_file w with
  | Missing => Returns false
  | Inaccessible e => Raises e
  | _ => Returns true
  end.

(** [SAVE_PATH.read_text()]. *)
Definition Path_read_text (w : world) : outcome string :=
  match save_file w with
  | Text s => Returns s
  | Unreadable e => Raises e
  | Inaccessible e => Raises e
  | Missing => Raises (OSError "No such file or directory: 'delta_save.json'")
  end.

(** [SAVE_PATH.write_text(s)]: the file is opened for writing, which empties
    it, and [s] becomes its whole content. *)
Definition Path_write_text (s : string) (w : world) : outcome unit * world :=
  match write_fault w with
  | None =>
      (Returns tt,
       {| save_file := Text s; write_fault := write_fault w; stdout := stdout w |})
  | Some (e, rest) =>
      (Raises e,
       {| save_file := rest; write_fault := write_fault w; stdout := stdout w |})
  end.

(** [print(line)]. *)
Definition print (line : string) (w : world) : world :=
  {| save_file := save_file w; write_fault := write_fault w;
     stdout := stdout w ++ [line] |}.

(** The two functions of Python's [json] module that the engine calls:
    [json.loads(text)], which raises on a text it cannot parse, and
    [json.dumps(data, indent=2)], which raises on a value it cannot write
    and returns a text for every value that is [writable]. The engine is
    written against this interface; [PyJson] below implements it. *)
Class Json : Type :=
  { json_loads : string -> outcome pyval;
    json_dumps : pyval -> outcome string;
    json_dumps_writable :
      forall v, writable v = true -> exists text, json_dumps v = Returns text }.

(** The record [load_save] falls back to. *)
Definition default_save : pyval :=
  PDict [("chapter", PInt 1); ("player", PDict [("x", PInt 50); ("y", PInt 50)])].

Section SaveFile.

Context `{Json}.

(** [load_save()]. The [try] covers the reading and the parsing: whatever
    either raises is printed and the default record is returned. The call of
    [exists] stands before the [try], and what it raises reaches the
    caller. *)
Definition load_save (w : world) : outcome pyval * world :=
  match Path_exists w with
  | Raises e => (Raises e, w)
  | Returns true =>
      let attempt :=
        match Path_read_text w with
        | Returns text => json_loads text
        | Raises e => Raises e
        end in
      match attempt with
      | Returns data => (Returns data, w)
      | Raises e =>
          (Returns default_save, print ("Save corrupt: " ++ exn_str e)%string w)
      end
  | Returns false => (Returns default_save, w)
  end.

(** [write_save(data)]: the text is made first, then written; no [try] here,
    so what [json.dumps] or the write raises reaches the caller. When
    [json.dumps] raises, the file has not been opened. *)
Definition write_save (data : pyval) (w : world) : outcome unit * world :=
  match json_dumps data with
  | Returns text => Path_write_text text w
  | Raises e => (Raises e, w)
  end.

End SaveFile.

(** ** Scenes and the game object *)

(** The classes [ChapterScene.make] chooses among: the template itself and its
    four subclasses, whose bodies are [pass]. *)
Inductive chapter_class : Type :=
| ChapterScene
| ChapterOne
| ChapterTwo
| ChapterThree
| ChapterFour.

(** A [TitleScene] instance. [timer] exists once [start] has run. *)
Record title_scene : Type := { timer : option Z }.

(** An instance of [ChapterScene] or of a subclass. [world_color] exists once
    [start] has run. *)
Record chapter_scene : Type :=
  { class_of : chapter_class;
    chapter_no : pyval;
    player : pg.Rect;
    speed : Z;
    world_color : option (pyval * pyval * pyval) }.

Inductive Scene : Type :=
| Title (self : title_scene)
| Chapter (self : chapter_scene).

(** The [DeltaGame] object: its save dict and its active scene. The
    back-reference [scene.game] is the object that holds the scene:
    [change_scene] sets it before [start], and only the active scene's
    methods are ever called. *)
Record DeltaGame : Type := { save : pyval; scene : Scene }.

(** Lifecycle calls, logged as they are entered. The log is not part of the
    program; it is there to state in which order the calls happen. *)
Inductive call : Type :=
| CallChangeScene (new_scene : Scene)
| CallStop (self : Scene)
| CallStart (self : Scene).

Record state : Type :=
  { game : DeltaGame; os : world; calls : list call }.

(** A method: from a state to an outcome and the state it leaves. A raised
    exception keeps every change made before it. *)
Definition M (A : Type) : Type := state -> outcome A * state.

Definition ret {A : Type} (a : A) : M A := fun st => (Returns a, st).

Definition bind {A B : Type} (m : M A) (k : A -> M B) : M B :=
  fun st =>
    match m st with
    | (Returns a, st') => k a st'
    | (Raises e, st') => (Raises e, st')
    end.

Notation "x <- m ;; k" := (bind m (fun x => k))
  (at level 61, m at next level, right associativity).
Notation "m ;;; k" := (bind m (fun _ => k))
  (at level 61, right associativity).

(** An expression that may raise, evaluated without touching the state. *)
Definition lift {A : Type} (o : outcome A) : M A := fun st => (o, st).

Definition get_save : M pyval := fun st => (Returns (save (game st)), st).

Definition set_save (s : pyval) : M unit :=
  fun st =>
    (Returns tt,
     {| game := {| save := s; scene := scene (game st) |};
        os := os st; calls := calls st |}).

Definition set_scene (s : Scene) : M unit :=
  fun st =>
    (Returns tt,
     {| game := {| save := save (game st); scene := s |};
        os := os st; calls := calls st |}).

Definition log (c : call) : M unit :=
  fun st =>
    (Returns tt, {| game := game st; os := os st; calls := calls st ++ [c] |}).

(** A function on the world, run from inside a method. *)
Definition in_world {A : Type} (f : world -> outcome A * world) : M A :=
  fun st =>
    let (o, w') := f (os st) in
    (o, {| game := game st; os := w'; calls := calls st |}).

(** [o[k1][k2] = v]: the inner object is changed in place, so [o] afterwards
    holds the changed inner object under [k1]. *)
Definition setitem_in (o : pyval) (k1 k2 : string) (v : pyval) : outcome pyval :=
  match getitem o k1 with
  | Returns inner =>
      match setitem inner k2 v with
      | Returns inner' => setitem o k1 inner'
      | Raises e => Raises e
      end
  | Raises e => Raises e
  end.

(** [mapping.get(ch, ChapterScene)] of [ChapterScene.make]. The keys are the
    ints 1 to 4; [True] and the float 1.0 equal 1 and hash alike; a list or a
    dict cannot be hashed. *)
Definition mapping_get (ch : pyval) : outcome chapter_class :=
  match ch with
  | PInt 1 | PBool true => Returns ChapterOne
  | PInt 2 => Returns ChapterTwo
  | PInt 3 => Returns ChapterThree
  | PInt 4 => Returns ChapterFour
  | PFloat f =>
      if PrimFloat.eqb f 1 then Returns ChapterOne
      else if PrimFloat.eqb f 2 then Returns ChapterTwo
      else if PrimFloat.eqb f 3 then Returns ChapterThree
      else if PrimFloat.eqb f 4 then Returns ChapterFour
      else Returns ChapterScene
  | PList _ => Raises (TypeError "unhashable type: 'list'")
  | PDict _ => Raises (TypeError "unhashable type: 'dict'")
  | _ => Returns ChapterScene
  end.

(** [ChapterScene.__init__], run by the class that [make] picked. *)
Definition ChapterScene_init (c : chapter_class) (chapter_no : pyval) : chapter_scene :=
  {| class_of := c;
     chapter_no := chapter_no;
     player := {| pg.x := 50; pg.y := 50; pg.w := 16; pg.h := 24 |};
     speed := 120;
     world_color := None |}.

(** [ChapterScene.make(ch)]. *)
Definition ChapterScene_make (ch : pyval) : outcome chapter_scene :=
  match mapping_get ch with
  | Returns c => Returns (ChapterScene_init c ch)
  | Raises e => Raises e
  end.

(** The key state of a frame in which no key is down. *)
Definition no_keys : pg.keys :=
  {| pg.K_ESCAPE := false; pg.K_a := false; pg.K_d := false;
     pg.K_w := false; pg.K_s := false |}.

Section Engine.

Context `{Json}.

(** [SceneBase.start] and [SceneBase.stop]: [pass]. *)
Definition SceneBase_start : M unit := ret tt.
Definition SceneBase_stop : M unit := ret tt.

(** [TitleScene.start]. *)
Definition TitleScene_start (self : title_scene) : M unit :=
  set_scene (Title {| timer := Some 0 |}).

(** [ChapterScene.start]. *)
Definition ChapterScene_start (self : chapter_scene) : M unit :=
  r <- lift (int_mul 50 (chapter_no self)) ;;
  g <- lift (int_mul 20 (chapter_no self)) ;;
  b <- lift (int_mul 60 (chapter_no self)) ;;
  set_scene (Chapter {| class_of := class_of self;
                        chapter_no := chapter_no self;
                        player := player self;
                        speed := speed self;
                        world_color := Some (r, g, b) |}).

(** [ChapterScene.stop]: each assignment changes the save dict at once, so an
    exception in a later line leaves the earlier ones done. *)
Definition ChapterScene_stop (self : chapter_scene) : M unit :=
  s0 <- get_save ;;
  s1 <- lift (setitem s0 "chapter" (chapter_no self)) ;;
  set_save s1 ;;;
  s2 <- lift (setitem_in s1 "player" "x" (PInt (pg.x (player self)))) ;;
  set_save s2 ;;;
  s3 <- lift (setitem_in s2 "player" "y" (PInt (pg.y (player self)))) ;;
  set_save s3 ;;;
  in_world (write_save s3).

(** [self.scene.start()] and [self.scene.stop()]: the method of the active
    scene's class. [TitleScene] inherits [stop]; the chapter classes inherit
    both from [ChapterScene]. *)
Definition scene_start : M unit :=
  fun st =>
    (log (CallStart (scene (game st))) ;;;
     match scene (game st) with
     | Title self => TitleScene_start self
     | Chapter self => ChapterScene_start self
     end) st.

Definition scene_stop : M unit :=
  fun st =>
    (log (CallStop (scene (game st))) ;;;
     match scene (game st) with
     | Title _ => SceneBase_stop
     | Chapter self => ChapterScene_stop self
     end) st.

(** [DeltaGame.change_scene(new_scene)]. *)
Definition change_scene (new_scene : Scene) : M unit :=
  log (CallChangeScene new_scene) ;;;
  scene_stop ;;;
  set_scene new_scene ;;;
  scene_start.

(** [TitleScene.update(dt)]. *)
Definition TitleScene_update (self : title_scene) (dt : Z) : M unit :=
  match timer self with
  | None => lift (Raises (AttributeError "'TitleScene' object has no attribute 'timer'"))
  | Some t =>
      set_scene (Title {| timer := Some (t + dt) |}) ;;;
      if 2000 <? t + dt then
        s <- get_save ;;
        saved_ch <- lift (getitem s "chapter") ;;
        new_scene <- lift (ChapterScene_make saved_ch) ;;
        change_scene (Chapter new_scene)
      else ret tt
  end.

(** [self.update(dt)] on a title scene that a caller has kept and that is no
    longer the game's scene: its timer advances, and past the threshold it
    asks for the chapter again; the scene that is stopped then is the
    game's. Returned is the title scene after the call. *)
Definition TitleScene_update_detached (self : title_scene) (dt : Z)
  : M title_scene :=
  match timer self with
  | None => lift (Raises (AttributeError "'TitleScene' object has no attribute 'timer'"))
  | Some t =>
      (if 2000 <? t + dt then
         s <- get_save ;;
         saved_ch <- lift (getitem s "chapter") ;;
         new_scene <- lift (ChapterScene_make saved_ch) ;;
         change_scene (Chapter new_scene)
       else ret tt) ;;;
      ret {| timer := Some (t + dt) |}
  end.

(** The displacement along one axis: [d = 0], then [d -= speed * dt/1000]
    when the first key is down and [d += speed * dt/1000] when the second
    is. *)
Definition axis (minus plus : bool) (speed dt : Z) : pynum :=
  let d0 := PyInt 0 in
  let d1 := if minus then num_sub d0 (int_truediv (speed * dt) 1000) else d0 in
  if plus then num_add d1 (int_truediv (speed * dt) 1000) else d1.

(** [ChapterScene.update(dt)], with the answer of [get_pressed()] as an
    argument. After [change_scene] the scene that is moving is no longer the
    game's scene, and nothing reads it again: its move leaves no trace. *)
Definition ChapterScene_update (self : chapter_scene) (dt : Z) (keys : pg.keys)
  : M unit :=
  let dx := axis (pg.K_a keys) (pg.K_d keys) (speed self) dt in
  let dy := axis (pg.K_w keys) (pg.K_s keys) (speed self) dt in
  if pg.K_ESCAPE keys then
    change_scene (Title {| timer := None |})
  else
    set_scene (Chapter {| class_of := class_of self;
                          chapter_no := chapter_no self;
                          player := pg.move_ip (player self) dx dy;
                          speed := speed self;
                          world_color := world_color self |}).

(** [self.scene.update(dt)]. *)
Definition scene_update (dt : Z) (keys : pg.keys) : M unit :=
  fun st =>
    match scene (game st) with
    | Title self => TitleScene_update self dt st
    | Chapter self => ChapterScene_update self dt keys st
    end.

(** [DeltaGame.__init__(save_data)], the pygame set-up left out: the title
    scene is created and started. *)
Definition DeltaGame_init (save_data : pyval) (w : world) : outcome unit * state :=
  scene_start {| game := {| save := save_data; scene := Title {| timer := None |} |};
                 os := w;
                 calls := [] |}.

(** The loop of [DeltaGame.run] over the frames given, each with the [dt]
    that [clock.tick] returned and the keys held: per frame the active
    scene is updated. Events, drawing and the quit signal are left out. *)
Fixpoint run (frames : list (Z * pg.keys)) : M unit :=
  match frames with
  | [] => ret tt
  | (dt, keys) :: rest => scene_update dt keys ;;; run rest
  end.

(** [DeltaGame(save_data).run()] over the frames given. *)
Definition play (save_data : pyval) (frames : list (Z * pg.keys)) (w : world)
  : outcome unit * state :=
  match DeltaGame_init save_data w with
  | (Returns _, st) => run frames st
  | (Raises e, st) => (Raises e, st)
  end.

End Engine.

(** ** A codec for the [json] interface *)

(** [json.dumps(data, indent=2)] and [json.loads] of CPython 3.11, on texts
    and strings made of the characters U+0000 to U+00FF (a [string] here is
    the sequence of code points).

    Left out, and reported by [loads] as a [ValueError] that starts with
    "unmodelled": [\u] escapes of U+0100 and above. Python accepts those
    texts; no statement below applies [loads] to one. The depth limit of the
    interpreter and the position that Python appends to the message of a
    parse error are left out as well. *)
Module PyJson.

Definition quote : ascii := "034"%char.
Definition backslash : ascii := "092"%char.
Definition LF : ascii := "010"%char.

Definition chr (c : ascii) : string := String c EmptyString.

(** *** dumps *)

Definition hex_digit (n : N) : ascii :=
  match n with
  | 0%N => "0" | 1%N => "1" | 2%N => "2" | 3%N => "3" | 4%N => "4"
  | 5%N => "5" | 6%N => "6" | 7%N => "7" | 8%N => "8" | 9%N => "9"
  | 10%N => "a" | 11%N => "b" | 12%N => "c" | 13%N => "d" | 14%N => "e"
  | _ => "f"
  end%char.

(** One character of a string, as [ensure_ascii] writes it. *)
Definition escape (c : ascii) : string :=
  let n := N_of_ascii c in
  if Ascii.eqb c quote then String backslash (chr quote)
  else if Ascii.eqb c backslash then String backslash (chr backslash)
  else if (n =? 8)%N then String backslash "b"
  else if (n =? 9)%N then String backslash "t"
  else if (n =? 10)%N then String backslash "n"
  else if (n =? 12)%N then String backslash "f"
  else if (n =? 13)%N then String backslash "r"
  else if ((n <? 32) || (126 <? n))%N then
    String backslash
      (String "u" (String "0" (String "0"
        (String (hex_digit (n / 16)) (chr (hex_digit (n mod 16)))))))
  else chr c.

Fixpoint escape_all (s : string) : string :=
  match s with
  | EmptyString => EmptyString
  | String c rest => (escape c ++ escape_all rest)%string
  end.

Definition encode_str (s : string) : string :=
  String quote (escape_all s ++ chr quote)%string.

(** [str(z)]. *)
Definition encode_int (z : Z) : string := NilZero.string_of_int (Z.to_int z).

Fixpoint spaces (n : nat) : string :=
  match n with
  | O => EmptyString
  | S m => String " " (spaces m)
  end.

(** A line break and the indentation of nesting level [lvl], two spaces a
    level. *)
Definition newline_indent (lvl : nat) : string := String LF (spaces (2 * lvl)).

(** [float(text)] for the decimal [n * 10^e10] with [0 <= n]: the nearest
    double, ties to even; an infinity when that is out of range. *)
Definition float_of_decimal (negative : bool) (n e10 : Z) : float :=
  let magnitude :=
    if 0 <=? e10
    then SF2Prim (binary_normalize prec emax (n * 10 ^ e10) 0 false)
    else SF2Prim (SFdiv prec emax (sf_of_Z n) (sf_of_Z (10 ^ (- e10)))) in
  if negative then PrimFloat.opp magnitude else magnitude.

Fixpoint zeros (n : nat) : string :=
  match n with
  | O => EmptyString
  | S m => String "0" (zeros m)
  end.

(** Is [10^p <= num / den]? *)
Definition ge_pow10 (num den p : Z) : bool :=
  if 0 <=? p then den * 10 ^ p <=? num else den <=? num * 10 ^ (- p).

(** The [p] with [10^p <= num / den < 10^(p+1)], looked for around the
    estimate that the binary sizes give. *)
Definition floor_log10 (num den : Z) : Z :=
  let est := (Z.log2 num - Z.log2 den) * 30103 / 100000 in
  if ge_pow10 num den (est + 2) then est + 2
  else if ge_pow10 num den (est + 1) then est + 1
  else if ge_pow10 num den est then est
  else if ge_pow10 num den (est - 1) then est - 1
  else est - 2.

(** The decimal [c * 10^k] with the trailing zeros of [c] moved into [k]. *)
Fixpoint strip_zeros (fuel : nat) (c k : Z) : Z * Z :=
  match fuel with
  | O => (c, k)
  | S fuel' => if (c mod 10 =? 0) && negb (c =? 0) then strip_zeros fuel' (c / 10) (k + 1)
               else (c, k)
  end.

(** The decimals of [nd] digits next to [num / den], below and above, and
    which of them [float] reads back as [f]; of two that do, the nearer,
    and of two as near, the even one. *)
Definition shortest_at (f : float) (num den p : Z) (nd : Z) : option (Z * Z) :=
  let k := p - nd + 1 in
  let x := if 0 <=? k then num else num * 10 ^ (- k) in
  let unit := if 0 <=? k then den * 10 ^ k else den in
  let lo := x / unit in
  let hi := lo + 1 in
  let back c := PrimFloat.Leibniz.eqb (float_of_decimal false c k) f in
  let dlo := x - lo * unit in
  let dhi := hi * unit - x in
  match back lo, back hi with
  | true, true =>
      if dlo <? dhi then Some (lo, k)
      else if dhi <? dlo then Some (hi, k)
      else if Z.even lo then Some (lo, k) else Some (hi, k)
  | true, false => Some (lo, k)
  | false, true => Some (hi, k)
  | false, false => None
  end.

Fixpoint shortest_from (fuel : nat) (f : float) (num den p : Z) (nd : Z) : Z * Z :=
  match fuel with
  | O =>
      let k := p - 17 + 1 in
      ((if 0 <=? k then num / (den * 10 ^ k) else num * 10 ^ (- k) / den), k)
  | S fuel' =>
      match shortest_at f num den p nd with
      | Some ck => ck
      | None => shortest_from fuel' f num den p (nd + 1)
      end
  end.

(** [repr(f)] from the digits [ds] of the shortest decimal and the place
    [decpt] of its point: [0.ds * 10^decpt]. *)
Definition format_repr (ds : string) (decpt : Z) : string :=
  let n := Z.of_nat (String.length ds) in
  if (decpt <=? -4) || (16 <? decpt) then
    let e := decpt - 1 in
    let mantissa :=
      match ds with
      | String d EmptyString => String d EmptyString
      | String d more => String d (String "." more)
      | EmptyString => EmptyString
      end in
    let ed := encode_int (Z.abs e) in
    (mantissa ++ "e" ++ (if (e <? 0)%Z then "-" else "+")
     ++ (if (Z.abs e <? 10)%Z then "0" else EmptyString) ++ ed)%string
  else if decpt <=? 0 then
    ("0." ++ zeros (Z.to_nat (- decpt)) ++ ds)%string
  else if n <=? decpt then
    (ds ++ zeros (Z.to_nat (decpt - n)) ++ ".0")%string
  else
    (substring 0 (Z.to_nat decpt) ds ++ "."
     ++ substring (Z.to_nat decpt) (Z.to_nat (n - decpt)) ds)%string.

(** [float.__repr__], as [json.dumps] writes a float. *)
Definition float_repr (f : float) : string :=
  match Prim2SF f with
  | S754_nan => "NaN"
  | S754_infinity false => "Infinity"
  | S754_infinity true => "-Infinity"
  | S754_zero false => "0.0"
  | S754_zero true => "-0.0"
  | S754_finite s m e =>
      let num := if 0 <=? e then Z.shiftl (Zpos m) e else Zpos m in
      let den := if 0 <=? e then 1 else Z.shiftl 1 (- e) in
      let p := floor_log10 num den in
      let '(c0, k0) := shortest_from 17 (PrimFloat.abs f) num den p 1 in
      let '(c, k) := strip_zeros 20 c0 k0 in
      let ds := encode_int c in
      ((if s then "-" else EmptyString : string)
       ++ format_repr ds (k + Z.of_nat (String.length ds)))%string
  end.

Fixpoint encode (lvl : nat) (v : pyval) {struct v} : string :=
  match v with
  | PNone => "null"
  | PBool true => "true"
  | PBool false => "false"
  | PInt z => encode_int z
  | PFloat f => float_repr f
  | PStr s => encode_str s
  | PList [] => "[]"
  | PList (v0 :: vs) =>
      ("[" ++ newline_indent (S lvl) ++ encode (S lvl) v0
       ++ (fix more (l : list pyval) : string :=
             match l with
             | [] => EmptyString
             | v' :: l' =>
                 "," ++ newline_indent (S lvl) ++ encode (S lvl) v' ++ more l'
             end) vs
       ++ newline_indent lvl ++ "]")%string
  | PDict [] => "{}"
  | PDict ((k0, v0) :: kvs) =>
      ("{" ++ newline_indent (S lvl) ++ encode_str k0 ++ ": " ++ encode (S lvl) v0
       ++ (fix more (l : list (string * pyval)) : string :=
             match l with
             | [] => EmptyString
             | (k', v') :: l' =>
                 "," ++ newline_indent (S lvl) ++ encode_str k' ++ ": "
                 ++ encode (S lvl) v' ++ more l'
             end) kvs
       ++ newline_indent lvl ++ "}")%string
  end.

(** What [str] raises on an int of more than 4300 digits. *)
Definition too_many_digits : exn :=
  ValueError
    ("Exceeds the limit (4300 digits) for integer string conversion; "
     ++ "use sys.set_int_max_str_digits() to increase the limit").

(** [json.dumps(data, indent=2)]: the text, unless an int in [data] has too
    many digits for [str]. *)
Definition dumps (data : pyval) : outcome string :=
  if writable data then Returns (encode 0 data) else Raises too_many_digits.

Definition dumps_writable (v : pyval) (Hw : writable v = true)
  : exists text, dumps v = Returns text :=
  ex_intro _ (encode 0 v)
    (@eq_ind_r bool true
       (fun b : bool =>
          (if b then Returns (encode 0 v) else Raises too_many_digits)
          = Returns (encode 0 v))
       eq_refl (writable v) Hw).

(** *** loads *)

Definition is_ws (c : ascii) : bool :=
  let n := N_of_ascii c in
  ((n =? 32) || (n =? 9) || (n =? 10) || (n =? 13))%N.

Fixpoint skip_ws (s : string) : string :=
  match s with
  | String c rest => if is_ws c then skip_ws rest else s
  | EmptyString => EmptyString
  end.

Definition digit_val (c : ascii) : option Z :=
  let n := N_of_ascii c in
  if ((48 <=? n) && (n <=? 57))%N then Some (Z.of_N n - 48) else None.

Definition hex_val (c : ascii) : option N :=
  let n := N_of_ascii c in
  if ((48 <=? n) && (n <=? 57))%N then Some (n - 48)%N
  else if ((97 <=? n) && (n <=? 102))%N then Some (n - 87)%N
  else if ((65 <=? n) && (n <=? 70))%N then Some (n - 55)%N
  else None.

(** The character a one-letter escape stands for. *)
Definition unescape (c : ascii) : option ascii :=
  if Ascii.eqb c quote then Some quote
  else if Ascii.eqb c backslash then Some backslash
  else if Ascii.eqb c "/" then Some "/"%char
  else if Ascii.eqb c "b" then Some "008"%char
  else if Ascii.eqb c "f" then Some "012"%char
  else if Ascii.eqb c "n" then Some "010"%char
  else if Ascii.eqb c "r" then Some "013"%char
  else if Ascii.eqb c "t" then Some "009"%char
  else None.

Definition cons_char (c : ascii) (r : outcome (string * string))
  : outcome (string * string) :=
  match r with
  | Returns (s, rest) => Returns (String c s, rest)
  | Raises e => Raises e
  end.

(** A string literal from just after its opening quote: the string and the
    text after the closing quote. *)
Fixpoint scan_string (s : string) : outcome (string * string) :=
  match s with
  | EmptyString => Raises (ValueError "Unterminated string starting at")
  | String c rest =>
      if Ascii.eqb c quote then Returns (EmptyString, rest)
      else if Ascii.eqb c backslash then
        match rest with
        | EmptyString => Raises (ValueError "Unterminated string starting at")
        | String e rest1 =>
            if Ascii.eqb e "u" then
              match rest1 with
              | String h1 (String h2 (String h3 (String h4 rest2))) =>
                  match hex_val h1, hex_val h2, hex_val h3, hex_val h4 with
                  | Some a, Some b, Some c', Some d =>
                      let code := (((a * 16 + b) * 16 + c') * 16 + d)%N in
                      if (code <? 256)%N
                      then cons_char (ascii_of_N code) (scan_string rest2)
                      else Raises (ValueError "unmodelled: escape above U+00FF")
                  | _, _, _, _ => Raises (ValueError "Invalid \uXXXX escape")
                  end
              | _ => Raises (ValueError "Invalid \uXXXX escape")
              end
            else
              match unescape e with
              | Some c' => cons_char c' (scan_string rest1)
              | None => Raises (ValueError "Invalid \escape")
              end
        end
      else if (N_of_ascii c <? 32)%N then
        Raises (ValueError "Invalid control character at")
      else cons_char c (scan_string rest)
  end.

(** The digits at the head of a text, as the number they write after the
    digits [acc] already read, and the text after them. *)
Fixpoint scan_digits (acc : Z) (s : string) : Z * string :=
  match s with
  | String c rest =>
      match digit_val c with
      | Some d => scan_digits (10 * acc + d) rest
      | None => (acc, s)
      end
  | EmptyString => (acc, EmptyString)
  end.

Definition starts_with_digit (s : string) : bool :=
  match s with
  | String c _ => match digit_val c with Some _ => true | None => false end
  | EmptyString => false
  end.

(** Does a fraction or an exponent follow the integer part? *)
Definition float_tail (s : string) : bool :=
  match s with
  | String c rest =>
      if Ascii.eqb c "." then starts_with_digit rest
      else if Ascii.eqb c "e" || Ascii.eqb c "E" then
        match rest with
        | String sign rest' =>
            if Ascii.eqb sign "+" || Ascii.eqb sign "-"
            then starts_with_digit rest'
            else starts_with_digit rest
        | EmptyString => false
        end
      else false
  | EmptyString => false
  end.

(** The integer part [0|[1-9][0-9]*] of a number, without its sign. *)
Definition scan_natural (s : string) : option (Z * string) :=
  match s with
  | String c rest =>
      match digit_val c with
      | Some 0 => Some (0, rest)
      | Some d => Some (scan_digits d rest)
      | None => None
      end
  | EmptyString => None
  end.

(** How many digits stand at the head of a text. *)
Fixpoint count_digits (s : string) : nat :=
  match s with
  | String c rest =>
      match digit_val c with
      | Some _ => S (count_digits rest)
      | None => O
      end
  | EmptyString => O
  end.

(** The fraction [.digits] at the head of a text, when there is one: its
    digits as a number, how many they are, and the text after them. *)
Definition scan_frac (s : string) : Z * nat * string :=
  match s with
  | String c rest =>
      if Ascii.eqb c "." && starts_with_digit rest
      then (fst (scan_digits 0 rest), count_digits rest, snd (scan_digits 0 rest))
      else (0, O, s)
  | EmptyString => (0, O, s)
  end.

(** The exponent [[eE][-+]?digits] at the head of a text, when there is
    one, and the text after it. *)
Definition scan_exp (s : string) : Z * string :=
  match s with
  | String c rest =>
      if Ascii.eqb c "e" || Ascii.eqb c "E" then
        match rest with
        | String sign rest' =>
            if Ascii.eqb sign "-" then
              if starts_with_digit rest'
              then (- fst (scan_digits 0 rest'), snd (scan_digits 0 rest'))
              else (0, s)
            else if Ascii.eqb sign "+" then
              if starts_with_digit rest' then scan_digits 0 rest' else (0, s)
            else if starts_with_digit rest then scan_digits 0 rest else (0, s)
        | EmptyString => (0, s)
        end
      else (0, s)
  | EmptyString => (0, s)
  end.

(** [str(n)] for the count in a message. *)
Definition encode_nat (n : nat) : string := encode_int (Z.of_nat n).

(** A number at the head of a text; [None] when no number starts there. With
    a fraction or an exponent it is a float, the nearest to the decimal
    written; without, an int, which [int] refuses when the literal has more
    than 4300 digits. *)
Definition scan_number (s : string) : option (outcome (pyval * string)) :=
  let negative :=
    match s with
    | String c _ => Ascii.eqb c "-"
    | EmptyString => false
    end in
  let unsigned :=
    match s with
    | String c rest => if Ascii.eqb c "-" then rest else s
    | EmptyString => s
    end in
  match scan_natural unsigned with
  | Some (n, rest) =>
      if float_tail rest then
        let '(frac, places, rest1) := scan_frac rest in
        let (e, rest2) := scan_exp rest1 in
        Some (Returns
                (PFloat (float_of_decimal negative
                           (n * 10 ^ Z.of_nat places + frac)
                           (e - Z.of_nat places)),
                 rest2))
      else if n <? int_limit
      then Some (Returns (PInt (if negative then - n else n), rest))
      else Some (Raises (ValueError
                  ("Exceeds the limit (4300 digits) for integer string conversion: "
                   ++ "value has " ++ encode_nat (count_digits unsigned)
                   ++ " digits; use sys.set_int_max_str_digits() "
                   ++ "to increase the limit")))
  | None => None
  end.

(** [prefix p s]: the rest of [s] after [p] when [s] starts with [p]. *)
Fixpoint strip_prefix (p s : string) : option string :=
  match p, s with
  | EmptyString, _ => Some s
  | String a p', String b s' => if Ascii.eqb a b then strip_prefix p' s' else None
  | String _ _, EmptyString => None
  end.

(** [dict(pairs)]: a repeated key keeps its first place and its last
    value. *)
Definition dict_of (pairs : list (string * pyval)) : list (string * pyval) :=
  fold_left (fun d kv => dict_set (fst kv) (snd kv) d) pairs [].

Definition expecting_value {A : Type} : outcome A :=
  Raises (ValueError "Expecting value").

(** The scanner. [scan_once] reads one value at the head of the text;
    [scan_pairs] reads the members of an object from just after the opening
    quote of a key, [scan_items] the items of an array from the start of an
    item; both carry what they have read so far. Two calls in a row never
    read the same text, and none reads a longer one than its caller, so
    twice the length of the text is fuel enough. *)
Fixpoint scan_once (fuel : nat) (s : string) {struct fuel}
  : outcome (pyval * string) :=
  match fuel with
  | O => Raises (ValueError "unmodelled: out of fuel")
  | S fuel' =>
      match s with
      | EmptyString => expecting_value
      | String c rest =>
          if Ascii.eqb c quote then
            match scan_string rest with
            | Returns (str, rest') => Returns (PStr str, rest')
            | Raises e => Raises e
            end
          else if Ascii.eqb c "{" then
            match skip_ws rest with
            | String c' rest' =>
                if Ascii.eqb c' "}" then Returns (PDict [], rest')
                else if Ascii.eqb c' quote then scan_pairs fuel' rest' []
                else Raises (ValueError
                       "Expecting property name enclosed in double quotes")
            | EmptyString =>
                Raises (ValueError
                  "Expecting property name enclosed in double quotes")
            end
          else if Ascii.eqb c "[" then
            match skip_ws rest with
            | String c' rest' =>
                if Ascii.eqb c' "]" then Returns (PList [], rest')
                else scan_items fuel' (String c' rest') []
            | EmptyString => expecting_value
            end
          else
            match strip_prefix "null" s, strip_prefix "true" s,
                  strip_prefix "false" s with
            | Some rest', _, _ => Returns (PNone, rest')
            | _, Some rest', _ => Returns (PBool true, rest')
            | _, _, Some rest' => Returns (PBool false, rest')
            | None, None, None =>
                match scan_number s with
                | Some r => r
                | None =>
                    match strip_prefix "NaN" s, strip_prefix "Infinity" s,
                          strip_prefix "-Infinity" s with
                    | Some rest', _, _ => Returns (PFloat nan, rest')
                    | _, Some rest', _ => Returns (PFloat infinity, rest')
                    | _, _, Some rest' => Returns (PFloat neg_infinity, rest')
                    | None, None, None => expecting_value
                    end
                end
            end
      end
  end

with scan_pairs (fuel : nat) (s : string) (acc : list (string * pyval))
       {struct fuel} : outcome (pyval * string) :=
  match fuel with
  | O => Raises (ValueError "unmodelled: out of fuel")
  | S fuel' =>
      match scan_string s with
      | Raises e => Raises e
      | Returns (key, after_key) =>
          match skip_ws after_key with
          | String c after_colon =>
              if Ascii.eqb c ":" then
                match scan_once fuel' (skip_ws after_colon) with
                | Raises e => Raises e
                | Returns (value, after_value) =>
                    let acc' := acc ++ [(key, value)] in
                    match skip_ws after_value with
                    | String c' rest =>
                        if Ascii.eqb c' "}" then Returns (PDict (dict_of acc'), rest)
                        else if Ascii.eqb c' "," then
                          match skip_ws rest with
                          | String c'' rest' =>
                              if Ascii.eqb c'' quote
                              then scan_pairs fuel' rest' acc'
                              else Raises (ValueError
                                "Expecting property name enclosed in double quotes")
                          | EmptyString =>
                              Raises (ValueError
                                "Expecting property name enclosed in double quotes")
                          end
                        else Raises (ValueError "Expecting ',' delimiter")
                    | EmptyString => Raises (ValueError "Expecting ',' delimiter")
                    end
                end
              else Raises (ValueError "Expecting ':' delimiter")
          | EmptyString => Raises (ValueError "Expecting ':' delimiter")
          end
      end
  end

with scan_items (fuel : nat) (s : string) (acc : list pyval) {struct fuel}
       : outcome (pyval * string) :=
  match fuel with
  | O => Raises (ValueError "unmodelled: out of fuel")
  | S fuel' =>
      match scan_once fuel' s with
      | Raises e => Raises e
      | Returns (value, after_value) =>
          let acc' := acc ++ [value] in
          match skip_ws after_value with
          | String c rest =>
              if Ascii.eqb c "]" then Returns (PList acc', rest)
              else if Ascii.eqb c "," then scan_items fuel' (skip_ws rest) acc'
              else Raises (ValueError "Expecting ',' delimiter")
          | EmptyString => Raises (ValueError "Expecting ',' delimiter")
          end
      end
  end.

(** [json.loads(text)]: one value, white space around it, nothing else. *)
Definition loads (text : string) : outcome pyval :=
  match scan_once (S (2 * String.length text)) (skip_ws text) with
  | Returns (value, rest) =>
      match skip_ws rest with
      | EmptyString => Returns value
      | String _ _ => Raises (ValueError "Extra data")
      end
  | Raises e => Raises e
  end.

(** *** What the proofs about the scanner speak of *)

(** The fuel that reading a value back takes: one for the value, and one more
    for each item of a list or dict that stands before it. *)
Fixpoint need (v : pyval) : nat :=
  match v with
  | PList l =>
      S ((fix go (l : list pyval) : nat :=
            match l with
            | [] => O
            | x :: r => S (Nat.max (need x) (go r))
            end) l)
  | PDict kvs =>
      S ((fix go (l : list (string * pyval)) : nat :=
            match l with
            | [] => O
            | (_, x) :: r => S (Nat.max (need x) (go r))
            end) kvs)
  | _ => 1%nat
  end.

(** The items of a list after the first, each with the separator before it,
    followed by [tail]; the same for the members of a dict. *)
Definition items_text (lvl : nat) (vs : list pyval) (tail : string) : string :=
  fold_right (fun v acc => String "," (newline_indent lvl ++ encode lvl v ++ acc)%string) tail vs.

Definition pairs_text (lvl : nat) (kvs : list (string * pyval)) (tail : string) : string :=
  fold_right (fun kv acc => String "," (newline_indent lvl ++ encode_str (fst kv)
                                   ++ String ":" (String " " (encode lvl (snd kv) ++ acc)))%string) tail kvs.

Definition need_items (l : list pyval) : nat :=
  fold_right (fun x n => S (Nat.max (need x) n)) O l.

Definition need_pairs (l : list (string * pyval)) : nat :=
  fold_right (fun kv n => S (Nat.max (need (snd kv)) n)) O l.

(** What a value's text starts with. *)
Definition opens_value (c : ascii) : bool :=
  negb (is_ws c) && negb (Ascii.eqb c "]") && negb (Ascii.eqb c "}")
  && negb (Ascii.eqb c ",") && negb (Ascii.eqb c ":").

(** The text of a float reads back as that float. Every finite double, the
    infinities and NaN do; here it is found by running the scanner on the
    text. *)
Definition float_reads_back (f : float) : bool :=
  match scan_once 1 (float_repr f) with
  | Returns (PFloat g, EmptyString) => PrimFloat.Leibniz.eqb f g
  | _ => false
  end.

Fixpoint floats_read_back (v : pyval) : bool :=
  match v with
  | PFloat f => float_reads_back f
  | PList l => forallb floats_read_back l
  | PDict kvs =>
      (fix all (l : list (string * pyval)) : bool :=
         match l with
         | [] => true
         | (_, x) :: r => floats_read_back x && all r
         end) kvs
  | _ => true
  end.

(** The three together: the dicts have distinct keys, the ints can be
    written, and the floats read back. *)
Fixpoint readable (v : pyval) : bool :=
  match v with
  | PInt z => Z.abs z <? int_limit
  | PFloat f => float_reads_back f
  | PList l => forallb readable l
  | PDict kvs =>
      distinct (map fst kvs)
      && (fix all (l : list (string * pyval)) : bool :=
            match l with
            | [] => true
            | (_, x) :: r => readable x && all r
            end) kvs
  | _ => true
  end.

(** The round trip for one value: from the text of [v], at any nesting level
    and followed by any text that does not go on as a number, the scanner
    returns [v] and that text. *)
Definition reads_back (v : pyval) : Prop :=
  readable v = true ->
  forall (lvl fuel : nat) (rest : string),
    (need v <= fuel)%nat ->
    starts_with_digit rest = false ->
    float_tail rest = false ->
    scan_once fuel (encode lvl v ++ rest) = Returns (v, rest).

End PyJson.

#[export] Instance PyJson_codec : Json :=
  {| json_loads := PyJson.loads;
     json_dumps := PyJson.dumps;
     json_dumps_writable := PyJson.dumps_writable |}.

(** ** Notions used to state the properties *)

(** The save record with chapter [ch] and player position [(px, py)], laid out
    as [load_save]'s default and the launcher's reset lay it out. *)
Definition save_record (ch px py : Z) : pyval :=
  PDict [("chapter", PInt ch); ("player", PDict [("x", PInt px); ("y", PInt py)])].

(** The variant the specification gives to a chapter identifier: the named one
    for 1, 2, 3 and 4, the generic template for every other integer. *)
Definition named_variant (chapter_id : Z) : chapter_class :=
  match chapter_id with
  | 1 => ChapterOne
  | 2 => ChapterTwo
  | 3 => ChapterThree
  | 4 => ChapterFour
  | _ => ChapterScene
  end.

Definition is_number (v : option pyval) : bool :=
  match v with
  | Some (PInt _) | Some (PFloat _) => true
  | _ => false
  end.

(** Does [ChapterScene.make] accept the value, be it through a named variant
    or through the fall-back? *)
Definition selects_a_variant (v : pyval) : bool :=
  match ChapterScene_make v with
  | Returns _ => true
  | Raises _ => false
  end.

(** The shape of a save record, read as widely as the specification allows:
    a dict with a [chapter] that selects a scene variant and a [player] dict
    whose [x] and [y] are numbers. *)
Definition has_save_shape (v : pyval) : bool :=
  match v with
  | PDict items =>
      match dict_get "chapter" items, dict_get "player" items with
      | Some ch, Some (PDict pos) =>
          selects_a_variant ch && is_number (dict_get "x" pos)
          && is_number (dict_get "y" pos)
      | _, _ => false
      end
  | _ => false
  end.

(** Where the player of a scene is. *)
Definition entity_position (s : Scene) : option (Z * Z) :=
  match s with
  | Chapter c => Some (pg.x (player c), pg.y (player c))
  | Title _ => None
  end.

(** The time the frames add up to. *)
Definition total_dt (frames : list (Z * pg.keys)) : Z :=
  fold_right (fun frame acc => fst frame + acc) 0 frames.

(** The scenes that [change_scene] was asked for, oldest first. *)
Fixpoint requested (cs : list call) : list Scene :=
  match cs with
  | [] => []
  | CallChangeScene s :: rest => s :: requested rest
  | _ :: rest => requested rest
  end.

(** The title timer, from [t], stays at or below the threshold through all
    of the frame times. *)
Fixpoint stays_below (t : Z) (dts : list Z) : Prop :=
  match dts with
  | [] => True
  | dt :: rest => t + dt <= 2000 /\ stays_below (t + dt) rest
  end.

(** [active] is the scene [incoming] after its [start]: a title scene with
    its timer at 0, a chapter scene with its colour set. *)
Definition started_as (incoming active : Scene) : Prop :=
  match incoming with
  | Title _ => active = Title {| timer := Some 0 |}
  | Chapter c =>
      exists r g b,
        int_mul 50 (chapter_no c) = Returns r
        /\ int_mul 20 (chapter_no c) = Returns g
        /\ int_mul 60 (chapter_no c) = Returns b
        /\ active = Chapter {| class_of := class_of c;
                               chapter_no := chapter_no c;
                               player := player c;
                               speed := speed c;
                               world_color := Some (r, g, b) |}
  end.

(** A frame of the loop as the clock and a player who leaves ESCAPE alone
    produce it. *)
Definition plain_frame (frame : Z * pg.keys) : Prop :=
  0 <= fst frame /\ pg.K_ESCAPE (snd frame) = false.

(** A scene, a call and a state with every chapter class replaced by the
    template's: what is left when the variant is forgotten. *)
Definition generic (s : Scene) : Scene :=
  match s with
  | Title t => Title t
  | Chapter c =>
      Chapter {| class_of := ChapterScene; chapter_no := chapter_no c;
                 player := player c; speed := speed c;
                 world_color := world_color c |}
  end.

Definition generic_call (c : call) : call :=
  match c with
  | CallChangeScene s => CallChangeScene (generic s)
  | CallStop s => CallStop (generic s)
  | CallStart s => CallStart (generic s)
  end.

Definition generic_state (st : state) : state :=
  {| game := {| save := save (game st); scene := generic (scene (game st)) |};
     os := os st;
     calls := map generic_call (calls st) |}.

(** A state with another active scene, and a chapter scene with its colour
    set. *)
Definition with_scene (s : Scene) (st : state) : state :=
  {| game := {| save := save (game st); scene := s |};
     os := os st; calls := calls st |}.

Definition with_color (c : chapter_scene) (color : pyval * pyval * pyval)
  : chapter_scene :=
  {| class_of := class_of c; chapter_no := chapter_no c; player := player c;
     speed := speed c; world_color := Some color |}.

(** The chapter scene that [make] builds for the integer [ch] according to
    the specification, before and after its [start]. *)
Definition made_for (ch : Z) : chapter_scene :=
  ChapterScene_init (named_variant ch) (PInt ch).

Definition started_for (ch : Z) : chapter_scene :=
  with_color (made_for ch) (PInt (50 * ch), PInt (20 * ch), PInt (60 * ch)).

(** A chapter scene with its player shifted by whole pixels. *)
Definition moved_by (c : chapter_scene) (dx dy : Z) : chapter_scene :=
  {| class_of := class_of c; chapter_no := chapter_no c;
     player := {| pg.x := pg.x (player c) + dx; pg.y := pg.y (player c) + dy;
                  pg.w := pg.w (player c); pg.h := pg.h (player c) |};
     speed := speed c; world_color := world_color c |}.

(** Two states that differ at most in the classes of their chapter scenes,
    and two methods that take such states to equal outcomes and to states
    that again differ at most in those classes. *)
Definition same_but_variant (st1 st2 : state) : Prop :=
  generic_state st1 = generic_state st2.

Definition alike {A : Type} (m1 m2 : M A) : Prop :=
  forall st1 st2,
    same_but_variant st1 st2 ->
    fst (m1 st1) = fst (m2 st2)
    /\ same_but_variant (snd (m1 st1)) (snd (m2 st2)).

(** Key states of the movement examples. *)
Definition only_right : pg.keys :=
  {| pg.K_ESCAPE := false; pg.K_a := false; pg.K_d := true;
     pg.K_w := false; pg.K_s := false |}.

Definition right_and_down : pg.keys :=
  {| pg.K_ESCAPE := false; pg.K_a := false; pg.K_d := true;
     pg.K_w := false; pg.K_s := true |}.

(** A world with no save file, a working disk and nothing printed. *)
Definition fresh_world : world :=
  {| save_file := Missing; write_fault := None; stdout := [] |}.

(** A world whose save file holds [text]. *)
Definition world_with (text : string) : world :=
  {| save_file := Text text; write_fault := None; stdout := [] |}.

(** A game in chapter 1 whose player has walked to (53, 54), and the title
    scene it may go back to. *)
Definition walked_state : state :=
  {| game := {| save := save_record 1 50 50;
                scene := Chapter (moved_by (started_for 1) 3 4) |};
     os := fresh_world;
     calls := [] |}.

Definition title_state : state :=
  {| game := {| save := save_record 3 70 80;
                scene := Title {| timer := Some 1500 |} |};
     os := world_with "kept";
     calls := [] |}.

Definition new_title : Scene := Title {| timer := None |}.

(** A game whose chapter 1 scene has just started, the player at (50, 50). *)
Definition started_state : state :=
  {| game := {| save := save_record 1 50 50; scene := Chapter (started_for 1) |};
     os := fresh_world;
     calls := [] |}.

(** A world whose save file holds the text of the record
    [{chapter: 2, player: (53, 54)}]. *)
Definition saved_world : world := world_with (PyJson.encode 0 (save_record 2 53 54)).

(** ** The rest of the program: drawing, the whole loop, the launcher *)

Definition WIN_W : Z := 600.
Definition WIN_H : Z := 400.
Definition WHITE : Z * Z * Z := (255, 255, 255).
Definition BLACK : Z * Z * Z := (0, 0, 0).
Definition PURPLE : Z * Z * Z := (120, 30, 200).

(** What a [draw] puts on the surface, as the calls it makes: the text of the
    title, or of [f"Chapter {chapter_no}"], and where it is blitted. *)
Inductive caption : Type :=
| TitleCaption
| ChapterCaption (chapter_no : pyval).

Inductive placement : Type :=
| Centered (cx cy : Z)
| TopLeft (px py : Z).

Inductive draw_op : Type :=
| Fill (color : Z * Z * Z)
| DrawRect (color : Z * Z * Z) (rect : pg.Rect)
| Blit (text : caption) (color : Z * Z * Z) (where_ : placement).

(** pygame reads each component of a colour given as a tuple into an
    unsigned 32-bit int: a number is turned into an int ([int(v)], which
    drops the fraction of a float and fails on an infinity and a NaN) and
    its low 32 bits are kept. It takes the colour only when each component
    is then at most 255, and raises otherwise. *)
Definition color_component (v : pyval) : outcome Z :=
  let refused := Raises (ValueError "invalid color argument") in
  let of_int (z : Z) :=
    if z mod 2 ^ 32 <=? 255 then Returns (z mod 2 ^ 32) else refused in
  match v with
  | PInt z => of_int z
  | PBool b => of_int (Z.b2z b)
  | PFloat f =>
      match float_to_Z f with
      | Some z => of_int z
      | None => refused
      end
  | _ => refused
  end.

Definition pg_color (c : pyval * pyval * pyval) : outcome (Z * Z * Z) :=
  let '(r, g, b) := c in
  match color_component r, color_component g, color_component b with
  | Returns r', Returns g', Returns b' => Returns (r', g', b')
  | Raises e, _, _ => Raises e
  | _, Raises e, _ => Raises e
  | _, _, Raises e => Raises e
  end.

(** [TitleScene.draw(surf)]. *)
Definition TitleScene_draw (self : title_scene) : outcome (list draw_op) :=
  Returns [Fill BLACK; Blit TitleCaption PURPLE (Centered (WIN_W / 2) (WIN_H / 2))].

(** [type(self).__name__] of a chapter scene. *)
Definition class_name (c : chapter_class) : string :=
  match c with
  | ChapterScene => "ChapterScene"
  | ChapterOne => "ChapterOne"
  | ChapterTwo => "ChapterTwo"
  | ChapterThree => "ChapterThree"
  | ChapterFour => "ChapterFour"
  end.

(** [ChapterScene.draw(surf)]: [surf.fill] is the first call, so nothing is
    drawn when the colour is refused. Before [start] there is no
    [world_color], and the error names the class of the scene. *)
Definition ChapterScene_draw (self : chapter_scene) : outcome (list draw_op) :=
  match world_color self with
  | None =>
      Raises (AttributeError
                (String "'" (class_name (class_of self)
                             ++ "' object has no attribute 'world_color'")))
  | Some color =>
      match pg_color color with
      | Returns c =>
          Returns [Fill c; DrawRect WHITE (player self);
                   Blit (ChapterCaption (chapter_no self)) WHITE (TopLeft 4 4)]
      | Raises e => Raises e
      end
  end.

(** [self.scene.draw(self.screen)]. *)
Definition scene_draw (s : Scene) : outcome (list draw_op) :=
  match s with
  | Title self => TitleScene_draw self
  | Chapter self => ChapterScene_draw self
  end.

(** Two [draw] calls that show the same or fail the same; an
    [AttributeError] names the class of the object it was raised on, and
    only in that name may two of them differ. *)
Definition drawn_alike (o1 o2 : outcome (list draw_op)) : Prop :=
  match o1, o2 with
  | Returns shown1, Returns shown2 => shown1 = shown2
  | Raises (AttributeError _), Raises (AttributeError _) => True
  | Raises e1, Raises e2 => e1 = e2
  | _, _ => False
  end.

(** The events of a frame, as far as the loop tells them apart. *)
Inductive event : Type :=
| QUIT
| OtherEvent.

Definition is_quit (ev : event) : bool :=
  match ev with
  | QUIT => true
  | OtherEvent => false
  end.

(** [d.update({...})] for the items of a dict literal; only a dict has the
    method. *)
Definition dict_update (o : pyval) (new_items : list (string * pyval)) : outcome pyval :=
  match o with
  | PDict items =>
      Returns (PDict (fold_left (fun d kv => dict_set (fst kv) (snd kv) d)
                        new_items items))
  | _ => Raises (AttributeError "object has no attribute 'update'")
  end.

(** The launcher while its window is open: the [state] dict that its buttons
    share, and the world. *)
Record launcher : Type := { shared_state : pyval; launcher_os : world }.

(** How a start of the program ends: [load_save] raised, before there was a
    game or a launcher state, or there is one ([s]) and [o] is what became of
    the start. *)
Inductive launch (S A : Type) : Type :=
| LoadFailed (e : exn) (w : world)
| Launched (o : outcome A) (s : S).
Arguments LoadFailed {S A} e w.
Arguments Launched {S A} o s.

Section Loop.

Context `{Json}.

(** The [for] loop over the events of a frame: every event before a QUIT goes
    to [handle_event], which is [pass] in every scene; QUIT clears [running]
    and leaves the [for] loop, not the frame. *)
Definition quit_requested (events : list event) : bool := existsb is_quit events.

(** [DeltaGame.run()] over the frames given, each with what [clock.tick],
    [pg.event.get] and [pg.key.get_pressed] answered: events, update, draw.
    It returns what each frame drew. The frame in which QUIT arrives is
    still updated and drawn; then the loop ends, and no [stop] is called. *)
Fixpoint DeltaGame_run (frames : list (Z * list event * pg.keys))
  : M (list (list draw_op)) :=
  match frames with
  | [] => ret []
  | (dt, events, keys) :: rest =>
      scene_update dt keys ;;;
      drawn <- (fun st => (scene_draw (scene (game st)), st)) ;;
      if quit_requested events then ret [drawn]
      else (later <- DeltaGame_run rest ;; ret (drawn :: later))
  end.

(** [DeltaGame(load_save()).run()], the program with [--nosplash]. *)
Definition main_nosplash (frames : list (Z * list event * pg.keys)) (w : world)
  : launch state (list (list draw_op)) :=
  match load_save w with
  | (Raises e, w') => LoadFailed e w'
  | (Returns data, w') =>
      match DeltaGame_init data w' with
      | (Returns _, st) =>
          Launched (fst (DeltaGame_run frames st)) (snd (DeltaGame_run frames st))
      | (Raises e, st) => Launched (Raises e) st
      end
  end.

(** [run_launcher()] up to the point where the window is shown: the save is
    loaded, and the text of the Play button is formatted from
    [state["chapter"]], which is the value returned here. *)
Definition run_launcher_open (w : world) : launch launcher pyval :=
  match load_save w with
  | (Raises e, w') => LoadFailed e w'
  | (Returns state, w') =>
      Launched (getitem state "chapter")
        {| shared_state := state; launcher_os := w' |}
  end.

(** The [erase] button, with the answer to its question. *)
Definition erase (yes : bool) (l : launcher) : outcome unit * launcher :=
  if yes then
    match dict_update (shared_state l)
            [("chapter", PInt 1);
             ("player", PDict [("x", PInt 50); ("y", PInt 50)])] with
    | Returns state' =>
        let (o, w') := write_save state' (launcher_os l) in
        (o, {| shared_state := state'; launcher_os := w' |})
    | Raises e => (Raises e, l)
    end
  else (Returns tt, l).

(** The [play] button: [DeltaGame(state).run()]. *)
Definition launcher_play (l : launcher) (frames : list (Z * list event * pg.keys))
  : outcome (list (list draw_op)) * state :=
  match DeltaGame_init (shared_state l) (launcher_os l) with
  | (Returns _, st) => DeltaGame_run frames st
  | (Raises e, st) => (Raises e, st)
  end.

(** The save file holds the text of the game's save dict. *)
Definition on_disk (st : state) : Prop :=
  exists text,
    json_dumps (save (game st)) = Returns text /\ save_file (os st) = Text text.

End Loop.

(** A save dict that [ChapterScene.stop] can write into: a dict whose
    [player] is a dict. *)
Definition saveable (sv : pyval) : Prop :=
  exists items pos, sv = PDict items /\ dict_get "player" items = Some (PDict pos).

(** The items of the save dict as [stop] of the chapter scene [c] leaves
    them: the chapter number, then [x], then [y] put into what the dict
    [items] with the player dict [pos] held. *)
Definition stopped_items (c : chapter_scene) (items pos : list (string * pyval))
  : list (string * pyval) :=
  dict_set "player"
    (PDict (dict_set "y" (PInt (pg.y (player c)))
              (dict_set "x" (PInt (pg.x (player c))) pos)))
    (dict_set "player" (PDict (dict_set "x" (PInt (pg.x (player c))) pos))
       (dict_set "chapter" (chapter_no c) items)).

(** A game that plays chapter [ch]: its save dict holds [ch], can be written
    into and holds no int too long for [json.dumps], the disk works, and the
    active scene is a started title scene or the started chapter scene of
    [ch]. *)
Definition playing (ch : Z) (st : state) : Prop :=
  getitem (save (game st)) "chapter" = Returns (PInt ch)
  /\ saveable (save (game st))
  /\ writable (save (game st)) = true
  /\ write_fault (os st) = None
  /\ match scene (game st) with
     | Title t => exists n, timer t = Some n
     | Chapter c =>
         chapter_no c = PInt ch
         /\ class_of c = named_variant ch
         /\ speed c = 120
         /\ world_color c = Some (PInt (50 * ch), PInt (20 * ch), PInt (60 * ch))
         /\ pg.fits (player c)
     end.

(** The pixels that the keys of one axis move the player in a frame of [dt]
    ms at the speed 120 of every chapter scene. *)
Definition pixels (minus plus : bool) (dt : Z) : Z :=
  pg.IntFromObj (axis minus plus 120 dt).

(** At [dt] the plus key alone moves by the whole pixels of 120 * dt / 1000,
    the minus key alone by as many the other way, and both together not at
    all. *)
Definition quantized (dt : Z) : bool :=
  (pixels false true dt =? 120 * dt / 1000)
  && (pixels true false dt =? - (120 * dt / 1000))
  && (pixels true true dt =? 0).

(** The frame times from 0 to 10 seconds. *)
Definition frame_times : list Z := map Z.of_nat (seq 0 (Z.to_nat 10001)).

(** The loop's frames without their events. *)
Definition without_events (frames : list (Z * list event * pg.keys))
  : list (Z * pg.keys) :=
  map (fun f => (fst (fst f), snd f)) frames.

(** ESCAPE is up in every frame. *)
Definition escape_free (frames : list (Z * pg.keys)) : Prop :=
  Forall (fun f => pg.K_ESCAPE (snd f) = false) frames.

(** No frame holds a QUIT event. *)
Definition no_quit (frames : list (Z * list event * pg.keys)) : Prop :=
  Forall (fun f => quit_requested (snd (fst f)) = false) frames.

(** What the two kinds of scene draw. *)
Definition title_screen : list draw_op :=
  [Fill BLACK; Blit TitleCaption PURPLE (Centered (WIN_W / 2) (WIN_H / 2))].

Definition chapter_screen (ch : Z) (rect : pg.Rect) : list draw_op :=
  [Fill (50 * ch, 20 * ch, 60 * ch); DrawRect WHITE rect;
   Blit (ChapterCaption (PInt ch)) WHITE (TopLeft 4 4)].

(** No frame time is negative. *)
Definition time_passes (frames : list (Z * pg.keys)) : Prop :=
  Forall (fun f => 0 <= fst f) frames.

(** The whole pixels of one axis in a frame of [dt] ms at speed 120: those of
    120 * dt / 1000 towards the key that is down, none when both keys or
    neither are. *)
Definition step (minus plus : bool) (dt : Z) : Z :=
  (Z.b2z plus - Z.b2z minus) * (120 * dt / 1000).

(** The steps of the frames, added up along each axis. *)
Definition walked (frames : list (Z * pg.keys)) : Z * Z :=
  fold_right
    (fun f acc =>
       (step (pg.K_a (snd f)) (pg.K_d (snd f)) (fst f) + fst acc,
        step (pg.K_w (snd f)) (pg.K_s (snd f)) (fst f) + snd acc))
    (0, 0) frames.

(** A chapter scene with its player put at [(px, py)], the size kept. *)
Definition placed (c : chapter_scene) (px py : Z) : chapter_scene :=
  {| class_of := class_of c; chapter_no := chapter_no c;
     player := {| pg.x := px; pg.y := py;
                  pg.w := pg.w (player c); pg.h := pg.h (player c) |};
     speed := speed c; world_color := world_color c |}.

(** Frame times of at most 10 seconds. *)
Definition short_frames (frames : list (Z * pg.keys)) : Prop :=
  Forall (fun f => 0 <= fst f <= 10000) frames.

(** What a frame of chapter [ch] may show: the title, or the chapter with the
    player somewhere. *)
Definition is_screen (ch : Z) (drawn : list draw_op) : Prop :=
  drawn = title_screen \/ exists rect, drawn = chapter_screen ch rect.

(** Nothing was saved since the game was made on [save_data] in the world
    [w], or the file holds the text of the save dict. *)
Definition in_step `{Json} (save_data : pyval) (w : world) (st : state) : Prop :=
  (save (game st) = save_data /\ os st = w) \/ on_disk st.

(** ** Inputs of the examples *)

(** ESCAPE and the right key together. *)
Definition escape_and_right : pg.keys :=
  {| pg.K_ESCAPE := true; pg.K_a := false; pg.K_d := true;
     pg.K_w := false; pg.K_s := false |}.

(** A world in which the directory of the save file may not be searched:
    the look-up of the file is refused. *)
Definition locked_world : world :=
  {| save_file :=
       Inaccessible (OSError "[Errno 13] Permission denied: 'delta_save.json'");
     write_fault := None;
     stdout := [] |}.

(** A game whose title scene has just started, on the record
    [{chapter: 2, player: (10, 20)}]. *)
Definition title_started : state :=
  {| game := {| save := save_record 2 10 20; scene := Title {| timer := Some 0 |} |};
     os := fresh_world;
     calls := [] |}.

(** A record with a position between the pixels, at (50.5, -0.1), and the
    record whose chapter number has 4301 digits. *)
Definition save_between_pixels : pyval :=
  PDict [("chapter", PInt 2);
         ("player", PDict [("x", PFloat 50.5); ("y", PFloat (-0x1.999999999999ap-4))])].

Definition save_of_huge_chapter : pyval := save_record (10 ^ 4300) 50 50.

(** A world whose disk is full: the write raises and leaves the file
    empty. *)
Definition full_disk : world :=
  {| save_file := Text "old";
     write_fault := Some (OSError "No space left on device", Text EmptyString);
     stdout := [] |}.

(** The game of [walked_state] on the full disk. *)
Definition full_disk_state : state :=
  {| game := game walked_state; os := full_disk; calls := [] |}.

(** A game in chapter 1 whose save dict has no [player]. *)
Definition playerless_state : state :=
  {| game := {| save := PDict [("chapter", PInt 1)];
                scene := Chapter (started_for 1) |};
     os := fresh_world;
     calls := [] |}.

(** Frames of a walk: 16 ms right, 17 ms right and down, and a stall of 10
    seconds with the right key down. *)
Definition walk_frames : list (Z * pg.keys) :=
  [(16, only_right); (17, right_and_down); (10000, only_right)].

(** Two and a half seconds, a few events, and the window closed in the third
    frame. *)
Definition closing_frames : list (Z * list event * pg.keys) :=
  [(1000, [], no_keys); (1500, [OtherEvent], only_right);
   (16, [OtherEvent; QUIT], right_and_down)].

(** A session: into the chapter, a step, back to the title with ESCAPE, the
    window closed, and a frame that is not run. *)
Definition session_frames : list (Z * list event * pg.keys) :=
  [(1000, [], no_keys); (1500, [OtherEvent], only_right);
   (16, [], only_right); (16, [], escape_and_right);
   (16, [QUIT], no_keys); (16, [], no_keys)].

(** Two seconds of title. *)
Definition title_frames : list (Z * list event * pg.keys) :=
  [(1000, [], no_keys); (1000, [OtherEvent], only_right)].

(** Launchers on a chapter 4 save, on a save whose chapter is [None] or 5,
    on a save with one more entry, and on the file of [saved_world]. *)
Definition launcher_on (save_data : pyval) : launcher :=
  {| shared_state := save_data; launcher_os := fresh_world |}.

Definition save_with_flags : pyval :=
  PDict [("chapter", PInt 3);
         ("player", PDict [("x", PInt 70); ("y", PInt 80)]);
         ("flags", PList [PStr "met_ralsei"])].

(** * Properties *)

(** ** The save file *)

Section SaveFileFacts.

Context `{Json}.

Lemma load_save_missing (w : world) :
  save_file w = Missing -> load_save w = (Returns default_save, w).
Proof.
  intros Hm. unfold load_save, Path_exists. rewrite Hm. reflexivity.
Qed.

Lemma load_save_inaccessible (w : world) (e : exn) :
  save_file w = Inaccessible e -> load_save w = (Raises e, w).
Proof.
  intros Hi. unfold load_save, Path_exists. rewrite Hi. reflexivity.
Qed.

Lemma load_save_unreadable (w : world) (e : exn) :
  save_file w = Unreadable e ->
  load_save w =
    (Returns default_save, print ("Save corrupt: " ++ exn_str e)%string w).
Proof.
  intros Hu. unfold load_save, Path_exists, Path_read_text. rewrite Hu.
  reflexivity.
Qed.

Lemma load_save_text (w : world) (text : string) :
  save_file w = Text text ->
  load_save w =
    match json_loads text with
    | Returns data => (Returns data, w)
    | Raises e =>
        (Returns default_save, print ("Save corrupt: " ++ exn_str e)%string w)
    end.
Proof.
  intros Ht. unfold load_save, Path_exists, Path_read_text. rewrite Ht.
  now destruct (json_loads text).
Qed.

(** When the save file is missing, or is there but cannot be read or parsed,
    [load_save] returns the default record
    [{chapter: 1, player: {x: 50, y: 50}}]. *)
Lemma load_save_falls_back_to_default (w : world) :
  save_file w = Missing
  \/ (exists e, save_file w = Unreadable e)
  \/ (exists text e, save_file w = Text text /\ json_loads text = Raises e) ->
  fst (load_save w) = Returns (save_record 1 50 50).
Proof.
  intros [Hm | [[e Hu] | [text [e [Ht Hp]]]]].
  - now rewrite (load_save_missing w Hm).
  - now rewrite (load_save_unreadable w e Hu).
  - rewrite (load_save_text w text Ht), Hp. reflexivity.
Qed.

(** C6, where the code breaks it. [load_save] returns the default record
    when the file is missing and when it is there but cannot be read or
    parsed, and what the text parses to otherwise. But it can raise: the
    call of [SAVE_PATH.exists()] stands before the [try], so when the system
    refuses the look-up of the file, its error reaches the caller and no
    record is returned. The same error met one line later, by [read_text]
    inside the [try], is caught. *)
Theorem load_save_raises_when_exists_raises (w : world) :
  match save_file w with
  | Missing => load_save w = (Returns default_save, w)
  | Inaccessible e => load_save w = (Raises e, w)
  | Unreadable e =>
      load_save w
      = (Returns default_save, print ("Save corrupt: " ++ exn_str e)%string w)
  | Text text =>
      match json_loads text with
      | Returns data => load_save w = (Returns data, w)
      | Raises e =>
          load_save w
          = (Returns default_save, print ("Save corrupt: " ++ exn_str e)%string w)
      end
  end.
Proof.
  destruct (save_file w) as [| e | e | text] eqn:Hf.
  - exact (load_save_missing w Hf).
  - exact (load_save_inaccessible w e Hf).
  - exact (load_save_unreadable w e Hf).
  - rewrite (load_save_text w text Hf). now destruct (json_loads text).
Qed.

(** C7, as the code has it. [load_save] checks nothing about what the file
    holds. When it returns, the record is the default one, which has the
    shape of a save record, if the file is missing, unreadable or
    unparsable, and otherwise exactly the value the text parses to, so that
    it has the shape of a save record only if that value has. (It does not
    return when the look-up of the file fails.) *)
Theorem load_save_returns_default_or_parsed (w w' : world) (data : pyval) :
  load_save w = (Returns data, w') ->
  has_save_shape default_save = true
  /\ match save_file w with
     | Text text =>
         match json_loads text with
         | Returns parsed => data = parsed
         | Raises _ => data = default_save
         end
     | Inaccessible _ => False
     | _ => data = default_save
     end.
Proof.
  intros Hload. split; [reflexivity |].
  destruct (save_file w) as [| e | e | text] eqn:Hf.
  - rewrite (load_save_missing w Hf) in Hload. now injection Hload as <- _.
  - rewrite (load_save_inaccessible w e Hf) in Hload. discriminate.
  - rewrite (load_save_unreadable w e Hf) in Hload. now injection Hload as <- _.
  - rewrite (load_save_text w text Hf) in Hload.
    destruct (json_loads text); now injection Hload as <- _.
Qed.

(** C9. [write_save] replaces whatever the file held by the serialization of
    the record, and every failure reaches the caller as it is: that of
    [json.dumps], before the file is touched, and that of the write. *)
Theorem write_save_overwrites_or_raises (data : pyval) (w : world) :
  match json_dumps data with
  | Raises e => write_save data w = (Raises e, w)
  | Returns text =>
      match write_fault w with
      | None =>
          exists w', write_save data w = (Returns tt, w')
                     /\ save_file w' = Text text
      | Some (e, rest) =>
          exists w', write_save data w = (Raises e, w')
                     /\ save_file w' = rest
      end
  end.
Proof.
  unfold write_save, Path_write_text.
  destruct (json_dumps data) as [text | e]; [| reflexivity].
  destruct (write_fault w) as [[e rest] |]; eexists; split; reflexivity.
Qed.

Lemma write_save_returns (data : pyval) (w : world) (text : string) :
  json_dumps data = Returns text ->
  write_fault w = None ->
  write_save data w =
    (Returns tt,
     {| save_file := Text text; write_fault := None; stdout := stdout w |}).
Proof.
  intros Hd Hw. unfold write_save, Path_write_text. now rewrite Hd, Hw.
Qed.

Lemma write_save_then_load_save (data : pyval) (w : world) (text : string) :
  write_fault w = None ->
  json_dumps data = Returns text ->
  json_loads text = Returns data ->
  exists w', write_save data w = (Returns tt, w')
             /\ load_save w' = (Returns data, w').
Proof.
  intros Hw Hd Hrt. rewrite (write_save_returns data w text Hd Hw).
  eexists. split; [reflexivity |].
  erewrite load_save_text by reflexivity. now rewrite Hrt.
Qed.

End SaveFileFacts.

(** ** Dicts *)

Lemma dict_get_set_same (k : string) (v : pyval) (items : list (string * pyval)) :
  dict_get k (dict_set k v items) = Some v.
Proof.
  induction items as [| [k' v'] rest IH]; simpl.
  - now rewrite String.eqb_refl.
  - destruct (String.eqb k k') eqn:E; simpl; rewrite E; [reflexivity | exact IH].
Qed.

Lemma dict_get_set_other (k k' : string) (v : pyval) (items : list (string * pyval)) :
  k' <> k -> dict_get k' (dict_set k v items) = dict_get k' items.
Proof.
  intros Hne. induction items as [| [k0 v0] rest IH]; simpl.
  - destruct (String.eqb_spec k' k); [contradiction | reflexivity].
  - destruct (String.eqb_spec k k0) as [-> | Hk]; simpl.
    + destruct (String.eqb_spec k' k0); [contradiction | reflexivity].
    + now rewrite IH.
Qed.

Lemma getitem_setitem_same (o o' : pyval) (k : string) (v : pyval) :
  setitem o k v = Returns o' -> getitem o' k = Returns v.
Proof.
  destruct o; simpl; try discriminate.
  intros [= <-]. simpl. now rewrite dict_get_set_same.
Qed.

Lemma getitem_setitem_other (o o' : pyval) (k k' : string) (v : pyval) :
  setitem o k v = Returns o' -> k' <> k -> getitem o' k' = getitem o k'.
Proof.
  destruct o; simpl; try discriminate.
  intros [= <-] Hne. simpl. now rewrite dict_get_set_other.
Qed.

(** After [o[k1][k2] = v]: the inner object holds [v] under [k2] and is
    otherwise as it was, and so is the outer one apart from [k1]. *)
Lemma setitem_in_returns (o o' : pyval) (k1 k2 : string) (v : pyval) :
  setitem_in o k1 k2 v = Returns o' ->
  exists inner inner',
    getitem o k1 = Returns inner
    /\ getitem o' k1 = Returns inner'
    /\ getitem inner' k2 = Returns v
    /\ (forall k, k <> k2 -> getitem inner' k = getitem inner k)
    /\ (forall k, k <> k1 -> getitem o' k = getitem o k).
Proof.
  unfold setitem_in.
  destruct (getitem o k1) as [inner | e] eqn:Hin; [| discriminate].
  destruct (setitem inner k2 v) as [inner' | e] eqn:Hset; [| discriminate].
  intros Hout. exists inner, inner'. repeat split.
  - eapply getitem_setitem_same; eassumption.
  - eapply getitem_setitem_same; eassumption.
  - intros k Hk. eapply getitem_setitem_other; eassumption.
  - intros k Hk. eapply getitem_setitem_other; eassumption.
Qed.

(** What can be written stays so when a dict is read or written into. *)
Lemma writable_dict (kvs : list (string * pyval)) :
  writable (PDict kvs) = forallb (fun kv => writable (snd kv)) kvs.
Proof.
  cbn [writable]. induction kvs as [| [k x] r IH]; [reflexivity |].
  cbn [forallb snd]. now rewrite <- IH.
Qed.

Lemma writable_dict_get (k : string) (items : list (string * pyval)) (v : pyval) :
  writable (PDict items) = true -> dict_get k items = Some v -> writable v = true.
Proof.
  rewrite writable_dict.
  induction items as [| [k' v'] rest IH]; [discriminate |].
  cbn [forallb snd dict_get]. intros Hw. apply andb_prop in Hw.
  destruct Hw as [Hv' Hrest].
  destruct (String.eqb k k'); [now intros [= <-] | now apply IH].
Qed.

Lemma writable_dict_set (k : string) (v : pyval) (items : list (string * pyval)) :
  writable (PDict items) = true -> writable v = true ->
  writable (PDict (dict_set k v items)) = true.
Proof.
  rewrite !writable_dict. intros Hitems Hv.
  induction items as [| [k' v'] rest IH]; cbn [dict_set forallb snd].
  - now rewrite Hv.
  - cbn [forallb snd] in Hitems. apply andb_prop in Hitems.
    destruct Hitems as [Hv' Hrest].
    destruct (String.eqb k k'); cbn [forallb snd].
    + now rewrite Hv, Hrest.
    + now rewrite Hv', (IH Hrest).
Qed.

(** The ints of a rectangle have ten digits at most. *)
Lemma writable_int32 (z : Z) : INT_MIN <= z <= INT_MAX -> writable (PInt z) = true.
Proof.
  intros Hz. cbn [writable]. apply Z.ltb_lt.
  assert (Hlimit : 2 ^ 31 < int_limit) by (apply Z.ltb_lt; vm_compute; reflexivity).
  unfold INT_MIN, INT_MAX in Hz. lia.
Qed.

(** ** Scenes *)

Section EngineFacts.

Context `{Json}.

(** Starting a scene touches neither the save dict nor the world. *)
Lemma scene_start_frame (st : state) :
  save (game (snd (scene_start st))) = save (game st)
  /\ os (snd (scene_start st)) = os st.
Proof.
  unfold scene_start, bind, log. simpl.
  destruct (scene (game st)) as [t | c]; simpl; [now split |].
  unfold ChapterScene_start, bind, lift; simpl.
  destruct (int_mul 50 (chapter_no c)); simpl; [| now split].
  destruct (int_mul 20 (chapter_no c)); simpl; [| now split].
  destruct (int_mul 60 (chapter_no c)); simpl; now split.
Qed.

Lemma scene_start_calls (st : state) :
  calls (snd (scene_start st)) = calls st ++ [CallStart (scene (game st))].
Proof.
  unfold scene_start, bind, log. simpl.
  destruct (scene (game st)) as [t | c]; simpl; [reflexivity |].
  unfold ChapterScene_start, bind, lift; simpl.
  destruct (int_mul 50 (chapter_no c)); simpl; [| reflexivity].
  destruct (int_mul 20 (chapter_no c)); simpl; [| reflexivity].
  destruct (int_mul 60 (chapter_no c)); simpl; reflexivity.
Qed.

(** What [change_scene] is once the outgoing scene's [stop] has returned. *)
Lemma change_scene_after_stop (new_scene : Scene) (st st1 : state) :
  scene_stop
    {| game := game st; os := os st;
       calls := calls st ++ [CallChangeScene new_scene] |} = (Returns tt, st1) ->
  change_scene new_scene st =
    scene_start {| game := {| save := save (game st1); scene := new_scene |};
                   os := os st1; calls := calls st1 |}.
Proof.
  intros Hstop. unfold change_scene, bind at 1. unfold log at 1.
  unfold bind at 1. rewrite Hstop. reflexivity.
Qed.

Lemma change_scene_stop_raises (new_scene : Scene) (st st1 : state) (e : exn) :
  scene_stop
    {| game := game st; os := os st;
       calls := calls st ++ [CallChangeScene new_scene] |} = (Raises e, st1) ->
  change_scene new_scene st = (Raises e, st1).
Proof.
  intros Hstop. unfold change_scene, bind at 1. unfold log at 1.
  unfold bind at 1. rewrite Hstop. reflexivity.
Qed.

(** The title scene's [stop] is the inherited [pass]. *)
Lemma scene_stop_title (st : state) (t : title_scene) :
  scene (game st) = Title t ->
  scene_stop st =
    (Returns tt,
     {| game := game st; os := os st; calls := calls st ++ [CallStop (Title t)] |}).
Proof.
  intros Hs. unfold scene_stop, bind, log. simpl. rewrite Hs. reflexivity.
Qed.

(** C10. When the title scene is the one that is left, [change_scene]
    changes neither the save dict nor the world: the save file and what was
    printed are as before the call, whether the incoming scene starts or
    raises. *)
Theorem leaving_title_keeps_save (st : state) (t : title_scene) (new_scene : Scene) :
  scene (game st) = Title t ->
  save (game (snd (change_scene new_scene st))) = save (game st)
  /\ os (snd (change_scene new_scene st)) = os st.
Proof.
  intros Hs.
  erewrite change_scene_after_stop by (apply scene_stop_title; exact Hs).
  match goal with
  | |- context [scene_start ?st1] =>
      destruct (scene_start_frame st1) as [Hsave Hos]
  end.
  rewrite Hsave, Hos. split; reflexivity.
Qed.

(** What a chapter scene's [stop] has done when it returns. *)
Lemma ChapterScene_stop_returns (c : chapter_scene) (st st' : state) :
  ChapterScene_stop c st = (Returns tt, st') ->
  scene (game st') = scene (game st)
  /\ calls st' = calls st
  /\ getitem (save (game st')) "chapter" = Returns (chapter_no c)
  /\ (exists pos,
        getitem (save (game st')) "player" = Returns pos
        /\ getitem pos "x" = Returns (PInt (pg.x (player c)))
        /\ getitem pos "y" = Returns (PInt (pg.y (player c))))
  /\ (exists text,
        json_dumps (save (game st')) = Returns text
        /\ save_file (os st') = Text text).
Proof.
  unfold ChapterScene_stop, bind, lift, get_save, set_save, in_world. simpl.
  destruct (setitem (save (game st)) "chapter" (chapter_no c))
    as [s1 | e] eqn:H1; simpl; [| discriminate].
  destruct (setitem_in s1 "player" "x" (PInt (pg.x (player c))))
    as [s2 | e] eqn:H2; simpl; [| discriminate].
  destruct (setitem_in s2 "player" "y" (PInt (pg.y (player c))))
    as [s3 | e] eqn:H3; simpl; [| discriminate].
  unfold write_save, Path_write_text. simpl.
  destruct (json_dumps s3) as [text | e] eqn:Hd; [| discriminate].
  destruct (write_fault (os st)) as [[e rest] |]; [discriminate |].
  intros [= <-]. simpl.
  destruct (setitem_in_returns _ _ _ _ _ H2)
    as (p1 & p2 & Hp1 & Hp2 & Hx2 & Hkeep2 & Hout2).
  destruct (setitem_in_returns _ _ _ _ _ H3)
    as (p2' & p3 & Hp2' & Hp3 & Hy3 & Hkeep3 & Hout3).
  rewrite Hp2 in Hp2'. injection Hp2' as <-.
  repeat split.
  - rewrite Hout3, Hout2 by discriminate.
    eapply getitem_setitem_same; eassumption.
  - exists p3. repeat split; [assumption | | assumption].
    rewrite Hkeep3 by discriminate. assumption.
  - exists text. now split.
Qed.

(** Stopping a scene logs the call and leaves the scene in place, whether
    [stop] returns or raises. *)
Lemma scene_stop_calls (st : state) :
  calls (snd (scene_stop st)) = calls st ++ [CallStop (scene (game st))]
  /\ scene (game (snd (scene_stop st))) = scene (game st).
Proof.
  unfold scene_stop, bind at 1, log at 1. simpl.
  destruct (scene (game st)) as [t | c] eqn:Hs; [now split |].
  unfold ChapterScene_stop, bind, lift, get_save, set_save, in_world. simpl.
  destruct (setitem (save (game st)) "chapter" (chapter_no c)); simpl;
    [| now split].
  destruct (setitem_in _ "player" "x" _); simpl; [| now split].
  destruct (setitem_in _ "player" "y" _); simpl; [| now split].
  destruct (write_save _ (os st)) as [o w']. now split.
Qed.

(** What [start] makes of the active scene: when it returns the scene is
    started, and when it raises the scene is as it was. *)
Lemma scene_start_effect (st : state) :
  match fst (scene_start st) with
  | Returns _ => started_as (scene (game st)) (scene (game (snd (scene_start st))))
  | Raises _ => scene (game (snd (scene_start st))) = scene (game st)
  end.
Proof.
  unfold scene_start, bind, log. simpl.
  destruct (scene (game st)) as [t | c] eqn:Hs; simpl; [reflexivity |].
  unfold ChapterScene_start, bind, lift; simpl.
  destruct (int_mul 50 (chapter_no c)) as [r | e] eqn:Hr; simpl; [| exact Hs].
  destruct (int_mul 20 (chapter_no c)) as [g | e] eqn:Hg; simpl; [| exact Hs].
  destruct (int_mul 60 (chapter_no c)) as [b | e] eqn:Hb; simpl; [| exact Hs].
  now exists r, g, b.
Qed.


(** ** The factory *)

Lemma mapping_get_int (ch : Z) : mapping_get (PInt ch) = Returns (named_variant ch).
Proof.
  destruct ch as [| p | p]; try reflexivity.
  destruct p as [p | p |]; try reflexivity;
    destruct p as [p | p |]; try reflexivity;
    destruct p as [p | p |]; reflexivity.
Qed.

Lemma ChapterScene_make_int (ch : Z) :
  ChapterScene_make (PInt ch) = Returns (made_for ch).
Proof.
  unfold ChapterScene_make. now rewrite mapping_get_int.
Qed.

(** ** The title timer *)

#[local] Arguments getitem : simpl never.
#[local] Arguments ChapterScene_make : simpl never.

Lemma requested_app (l l' : list call) :
  requested (l ++ l') = requested l ++ requested l'.
Proof.
  induction l as [| [s | s | s] l IH]; simpl; now rewrite ?IH.
Qed.

(** A title update that stays at or below the threshold only advances the
    timer. *)
Lemma title_update_below (st : state) (t dt : Z) (keys : pg.keys) :
  scene (game st) = Title {| timer := Some t |} ->
  t + dt <= 2000 ->
  scene_update dt keys st =
    (Returns tt, with_scene (Title {| timer := Some (t + dt) |}) st).
Proof.
  intros Hs Hle. unfold scene_update. rewrite Hs.
  unfold TitleScene_update, bind, set_scene. simpl.
  destruct (Z.ltb_spec 2000 (t + dt)); [lia | reflexivity].
Qed.

(** A title update that passes the threshold asks once for the chapter of the
    save dict, and that chapter scene is started. *)
Lemma title_update_above (st : state) (t dt ch : Z) (keys : pg.keys) :
  scene (game st) = Title {| timer := Some t |} ->
  2000 < t + dt ->
  getitem (save (game st)) "chapter" = Returns (PInt ch) ->
  scene_update dt keys st =
    (Returns tt,
     {| game := {| save := save (game st); scene := Chapter (started_for ch) |};
        os := os st;
        calls := calls st ++ [CallChangeScene (Chapter (made_for ch));
                              CallStop (Title {| timer := Some (t + dt) |});
                              CallStart (Chapter (made_for ch))] |}).
Proof.
  intros Hs Hlt Hch. unfold scene_update. rewrite Hs.
  unfold TitleScene_update, bind, set_scene, get_save, lift. simpl.
  destruct (Z.ltb_spec 2000 (t + dt)); [| lia].
  cbn [save game]. rewrite Hch, ChapterScene_make_int.
  erewrite change_scene_after_stop by (apply scene_stop_title; reflexivity).
  unfold scene_start, bind, log, ChapterScene_start, lift, set_scene. simpl.
  rewrite <- !app_assoc. reflexivity.
Qed.

(** A chapter update without ESCAPE moves the player and nothing else. *)
Lemma chapter_update_plain (st : state) (c : chapter_scene) (dt : Z) (keys : pg.keys) :
  scene (game st) = Chapter c ->
  pg.K_ESCAPE keys = false ->
  scene_update dt keys st =
    (Returns tt,
     with_scene
       (Chapter {| class_of := class_of c;
                   chapter_no := chapter_no c;
                   player :=
                     pg.move_ip (player c)
                       (axis (pg.K_a keys) (pg.K_d keys) (speed c) dt)
                       (axis (pg.K_w keys) (pg.K_s keys) (speed c) dt);
                   speed := speed c;
                   world_color := world_color c |}) st).
Proof.
  intros Hs Hesc. unfold scene_update. rewrite Hs.
  unfold ChapterScene_update. rewrite Hesc. reflexivity.
Qed.

(** Frames without ESCAPE keep a chapter scene active: it is moved about,
    nothing is saved and no scene is asked for. *)
Lemma chapter_run_plain (frames : list (Z * pg.keys)) :
  forall (st : state) (c : chapter_scene),
    scene (game st) = Chapter c ->
    Forall plain_frame frames ->
    exists c',
      run frames st = (Returns tt, with_scene (Chapter c') st)
      /\ class_of c' = class_of c
      /\ chapter_no c' = chapter_no c.
Proof.
  induction frames as [| [dt keys] rest IH]; intros st c Hs Hplain.
  - exists c. simpl. unfold ret, with_scene. rewrite <- Hs.
    destruct st as [[sv sc] w cs]. repeat split.
  - inversion Hplain as [| f fs [_ Hesc] Hrest]; subst.
    simpl in Hesc. simpl. unfold bind.
    rewrite (chapter_update_plain st c dt keys Hs Hesc).
    match goal with
    | |- context [run rest ?st1] =>
        destruct (IH st1 _ eq_refl Hrest) as (c' & Hrun & Hcls & Hno)
    end.
    exists c'. rewrite Hrun. repeat split; assumption.
Qed.

Lemma total_dt_nonneg (frames : list (Z * pg.keys)) :
  Forall plain_frame frames -> 0 <= total_dt frames.
Proof.
  induction 1 as [| f fs [Hf _] _ IH]; simpl; lia.
Qed.

(** The title phase of the loop, from a timer that has not passed the
    threshold: the scene stays the title scene as long as the frames do not
    carry the timer past 2000, and otherwise exactly one scene is asked
    for. *)
Lemma title_run (ch : Z) (frames : list (Z * pg.keys)) :
  forall (st : state) (t : Z),
    scene (game st) = Title {| timer := Some t |} ->
    getitem (save (game st)) "chapter" = Returns (PInt ch) ->
    t <= 2000 ->
    Forall plain_frame frames ->
    (t + total_dt frames <= 2000 ->
     run frames st =
       (Returns tt, with_scene (Title {| timer := Some (t + total_dt frames) |}) st))
    /\ (2000 < t + total_dt frames ->
        exists st' c',
          run frames st = (Returns tt, st')
          /\ requested (calls st') = requested (calls st) ++ [Chapter (made_for ch)]
          /\ scene (game st') = Chapter c'
          /\ class_of c' = named_variant ch
          /\ chapter_no c' = PInt ch
          /\ save (game st') = save (game st)
          /\ os st' = os st).
Proof.
  induction frames as [| [dt keys] rest IH]; intros st t Hs Hch Ht Hplain.
  - simpl. split; [| lia]. intros _. rewrite Z.add_0_r.
    unfold ret, with_scene. rewrite <- Hs. now destruct st as [[sv sc] w cs].
  - inversion Hplain as [| f fs [Hdt Hesc] Hrest]; subst.
    simpl in Hdt, Hesc. pose proof (total_dt_nonneg rest Hrest) as Hnn.
    simpl total_dt. simpl run. unfold bind.
    destruct (Z.le_gt_cases (t + dt) 2000) as [Hbelow | Habove].
    + rewrite (title_update_below st t dt keys Hs Hbelow).
      destruct (IH (with_scene (Title {| timer := Some (t + dt) |}) st) (t + dt))
        as [IHstay IHgo]; try (reflexivity || assumption).
      split.
      * intros Hle. rewrite IHstay by lia.
        unfold with_scene. simpl. now rewrite Z.add_assoc.
      * intros Hgt. destruct IHgo as (st' & c' & Hrun & Hrest'); [lia |].
        exists st', c'. split; [exact Hrun | exact Hrest'].
    + rewrite (title_update_above st t dt ch keys Hs Habove Hch).
      split; [lia |]. intros _.
      match goal with
      | |- context [run rest ?st1] =>
          destruct (chapter_run_plain rest st1 _ eq_refl Hrest)
            as (c' & Hrun & Hcls & Hno)
      end.
      eexists _, c'. split; [exact Hrun |].
      unfold with_scene. simpl. rewrite requested_app. simpl.
      repeat split; assumption.
Qed.

Lemma DeltaGame_init_returns (save_data : pyval) (w : world) :
  DeltaGame_init save_data w =
    (Returns tt,
     {| game := {| save := save_data; scene := Title {| timer := Some 0 |} |};
        os := w;
        calls := [CallStart (Title {| timer := None |})] |}).
Proof. reflexivity. Qed.

Lemma run_app (frames frames' : list (Z * pg.keys)) (st : state) :
  run (frames ++ frames') st =
    match run frames st with
    | (Returns _, st') => run frames' st'
    | (Raises e, st') => (Raises e, st')
    end.
Proof.
  revert st. induction frames as [| [dt keys] rest IH]; intros st; simpl.
  - reflexivity.
  - unfold bind. destruct (scene_update dt keys st) as [[[] | e] st1];
      [apply IH | reflexivity].
Qed.

(** Whatever becomes of it, a [change_scene] is one more request. *)
Lemma change_scene_requested (new_scene : Scene) (st : state) :
  requested (calls (snd (change_scene new_scene st)))
  = requested (calls st) ++ [new_scene].
Proof.
  destruct (scene_stop_calls
              {| game := game st; os := os st;
                 calls := calls st ++ [CallChangeScene new_scene] |})
    as [Hlog _].
  destruct (scene_stop {| game := game st; os := os st;
                          calls := calls st ++ [CallChangeScene new_scene] |})
    as [[[] | e] st1] eqn:Hstop; simpl in Hlog.
  - rewrite (change_scene_after_stop _ _ _ Hstop), scene_start_calls.
    simpl. rewrite Hlog, !requested_app. simpl. now rewrite ?List.app_nil_r.
  - rewrite (change_scene_stop_raises _ _ _ _ Hstop). simpl.
    rewrite Hlog, !requested_app. simpl. now rewrite ?List.app_nil_r.
Qed.

(** As long as the timer stays at or below the threshold, the title scene
    stays, whatever the keys and the signs of the frame times. *)
Lemma title_run_below (frames : list (Z * pg.keys)) :
  forall (st : state) (t : Z),
    scene (game st) = Title {| timer := Some t |} ->
    stays_below t (map fst frames) ->
    run frames st =
      (Returns tt, with_scene (Title {| timer := Some (t + total_dt frames) |}) st).
Proof.
  induction frames as [| [dt keys] rest IH]; intros st t Hs Hbelow.
  - simpl. rewrite Z.add_0_r. unfold ret, with_scene. rewrite <- Hs.
    now destruct st as [[sv sc] w cs].
  - destruct Hbelow as [Hdt Hrest]. simpl in Hdt, Hrest.
    simpl total_dt. simpl run. unfold bind.
    rewrite (title_update_below st t dt keys Hs Hdt).
    rewrite (IH (with_scene (Title {| timer := Some (t + dt) |}) st) (t + dt)
               eq_refl Hrest).
    unfold with_scene. simpl. now rewrite Z.add_assoc.
Qed.

(** Frames without ESCAPE keep a chapter scene active, whatever the frame
    times. *)
Lemma chapter_run_escape_free (frames : list (Z * pg.keys)) :
  forall (st : state) (c : chapter_scene),
    scene (game st) = Chapter c ->
    escape_free frames ->
    exists c',
      run frames st = (Returns tt, with_scene (Chapter c') st)
      /\ class_of c' = class_of c
      /\ chapter_no c' = chapter_no c.
Proof.
  induction frames as [| [dt keys] rest IH]; intros st c Hs Hfree.
  - exists c. simpl. unfold ret, with_scene. rewrite <- Hs.
    destruct st as [[sv sc] w cs]. repeat split.
  - inversion Hfree as [| f fs Hesc Hrest]; subst.
    simpl in Hesc. simpl. unfold bind.
    rewrite (chapter_update_plain st c dt keys Hs Hesc).
    match goal with
    | |- context [run rest ?st1] =>
        destruct (IH st1 _ eq_refl Hrest) as (c' & Hrun & Hcls & Hno)
    end.
    exists c'. rewrite Hrun. repeat split; assumption.
Qed.

(** A title scene that is updated when it is no longer the game's scene,
    with its timer past the threshold: it asks for the chapter of the save
    dict. *)
Lemma title_update_detached_above (st : state) (t dt ch : Z) :
  2000 < t + dt ->
  getitem (save (game st)) "chapter" = Returns (PInt ch) ->
  snd (TitleScene_update_detached {| timer := Some t |} dt st)
  = snd (change_scene (Chapter (made_for ch)) st).
Proof.
  intros Hgt Hch. unfold TitleScene_update_detached. cbn [timer].
  destruct (Z.ltb_spec 2000 (t + dt)); [| lia].
  unfold bind at 1. unfold bind at 1, get_save at 1.
  unfold bind at 1, lift at 1. rewrite Hch.
  unfold bind at 1, lift at 1. rewrite ChapterScene_make_int.
  destruct (change_scene (Chapter (made_for ch)) st) as [[[] | e] st'];
    reflexivity.
Qed.

(** C4, as the code has it. From a title scene whose timer is at [t], the
    loop asks for no scene as long as the frame times keep the timer at or
    below 2000 ms, whatever the keys. The update that carries it past 2000
    asks for one scene, the chapter scene that the factory makes for the
    chapter [ch] of the save dict, which is the variant named for [ch], and
    that scene becomes the active one. That request stays the only one
    because the loop updates the active scene and no other: over later
    frames with ESCAPE up nothing more is asked for. The title scene
    itself has no latch: updated once more with its timer above 2000, it
    asks for the chapter a second time. All of this is a function of the
    state and the frames. *)
Theorem title_auto_transition
    (st : state) (ch t dt : Z) (keys : pg.keys)
    (before later : list (Z * pg.keys)) :
  scene (game st) = Title {| timer := Some t |} ->
  getitem (save (game st)) "chapter" = Returns (PInt ch) ->
  stays_below t (map fst before) ->
  2000 < t + total_dt before + dt ->
  escape_free later ->
  (exists st0,
     run before st = (Returns tt, st0)
     /\ requested (calls st0) = requested (calls st)
     /\ scene (game st0) = Title {| timer := Some (t + total_dt before) |})
  /\ exists st1,
       run (before ++ [(dt, keys)]) st = (Returns tt, st1)
       /\ requested (calls st1) = requested (calls st) ++ [Chapter (made_for ch)]
       /\ ChapterScene_make (PInt ch) = Returns (made_for ch)
       /\ class_of (made_for ch) = named_variant ch
       /\ chapter_no (made_for ch) = PInt ch
       /\ scene (game st1) = Chapter (started_for ch)
       /\ (exists st2 c,
             run (before ++ (dt, keys) :: later) st = (Returns tt, st2)
             /\ requested (calls st2)
                = requested (calls st) ++ [Chapter (made_for ch)]
             /\ scene (game st2) = Chapter c
             /\ class_of c = named_variant ch
             /\ chapter_no c = PInt ch)
       /\ (forall dt',
             2000 < t + total_dt before + dt + dt' ->
             requested
               (calls (snd (TitleScene_update_detached
                              {| timer := Some (t + total_dt before + dt) |} dt' st1)))
             = requested (calls st)
               ++ [Chapter (made_for ch); Chapter (made_for ch)]).
Proof.
  intros Hs Hch Hbelow Hgt Hfree.
  pose proof (title_run_below before st t Hs Hbelow) as Hrun0.
  split.
  { eexists. split; [exact Hrun0 |]. split; reflexivity. }
  assert (Hrun1 :
    run (before ++ [(dt, keys)]) st =
      (Returns tt,
       {| game := {| save := save (game st); scene := Chapter (started_for ch) |};
          os := os st;
          calls := calls st ++ [CallChangeScene (Chapter (made_for ch));
                                CallStop (Title {| timer :=
                                                     Some (t + total_dt before + dt) |});
                                CallStart (Chapter (made_for ch))] |})).
  { rewrite run_app, Hrun0. simpl run. unfold bind.
    erewrite title_update_above; [reflexivity | reflexivity | exact Hgt | exact Hch]. }
  eexists. split; [exact Hrun1 |].
  split; [cbn [calls]; rewrite requested_app; reflexivity |].
  split; [apply ChapterScene_make_int |].
  split; [reflexivity |]. split; [reflexivity |]. split; [reflexivity |].
  split.
  - change (before ++ (dt, keys) :: later) with (before ++ [(dt, keys)] ++ later).
    rewrite app_assoc, run_app, Hrun1.
    match goal with
    | |- context [run later ?s1] =>
        destruct (chapter_run_escape_free later s1 _ eq_refl Hfree)
          as (c' & Hrun2 & Hcls & Hno)
    end.
    eexists _, c'. split; [exact Hrun2 |].
    split; [cbn [with_scene calls]; rewrite requested_app; reflexivity |].
    split; [reflexivity |]. split; assumption.
  - intros dt' Hgt'.
    match goal with
    | |- context [TitleScene_update_detached _ dt' ?s1] =>
        rewrite (title_update_detached_above s1 _ dt' ch Hgt' Hch)
    end.
    rewrite change_scene_requested. cbn [calls]. rewrite requested_app.
    simpl. now rewrite <- app_assoc.
Qed.

(** C1, as the code has it. The chapter scene that becomes active through
    the title's automatic transition has its player at (50, 50), the
    constant of [ChapterScene.__init__], whatever position the save record
    holds; the record itself is left as it was. *)
Theorem chapter_scene_starts_at_50_50
    (save_data : pyval) (ch dt : Z) (keys : pg.keys)
    (frames : list (Z * pg.keys)) (w : world) :
  getitem save_data "chapter" = Returns (PInt ch) ->
  Forall plain_frame frames ->
  total_dt frames <= 2000 ->
  2000 < total_dt frames + dt ->
  exists st,
    play save_data (frames ++ [(dt, keys)]) w = (Returns tt, st)
    /\ scene (game st) = Chapter (started_for ch)
    /\ entity_position (scene (game st)) = Some (50, 50)
    /\ save (game st) = save_data.
Proof.
  intros Hch Hplain Hle Hgt. unfold play. rewrite DeltaGame_init_returns.
  rewrite run_app.
  match goal with
  | |- context [run frames ?st0] =>
      destruct (title_run ch frames st0 0 eq_refl Hch ltac:(lia) Hplain)
        as [Hstay _]
  end.
  rewrite Hstay by lia. simpl run. unfold bind.
  erewrite title_update_above; [| reflexivity | simpl; lia | exact Hch].
  eexists. split; [reflexivity |]. repeat split.
Qed.

(** ** Movement *)

Lemma axis_right_16 : pg.IntFromObj (axis false true 120 16) = 1.
Proof. vm_compute. reflexivity. Qed.

Lemma axis_idle (speed0 dt : Z) : pg.IntFromObj (axis false false speed0 dt) = 0.
Proof. reflexivity. Qed.

Lemma wrap32_fits (z : Z) : INT_MIN <= wrap32 z <= INT_MAX.
Proof.
  unfold wrap32, INT_MIN, INT_MAX.
  change (2 ^ 31) with 2147483648. change (2 ^ 32) with 4294967296.
  pose proof (Z.mod_pos_bound (z + 2147483648) 4294967296 ltac:(lia)). lia.
Qed.

(** A rectangle that was moved holds 32-bit ints. *)
Lemma move_ip_fits (r : pg.Rect) (dx dy : pynum) : pg.fits (pg.move_ip r dx dy).
Proof. unfold pg.fits, pg.move_ip. simpl. split; apply wrap32_fits. Qed.

Lemma wrap32_small (z : Z) : INT_MIN <= z <= INT_MAX -> wrap32 z = z.
Proof.
  unfold wrap32, INT_MIN, INT_MAX. intros Hz.
  change (2 ^ 31) with 2147483648 in *. change (2 ^ 32) with 4294967296.
  rewrite Z.mod_small by lia. lia.
Qed.

Lemma wrap32_past_INT_MAX : wrap32 (INT_MAX + 1) = INT_MIN.
Proof. reflexivity. Qed.

(** C2, as the code has it. With speed 120 and [dt] = 16 ms, an update with
    only the right key down moves the player one pixel to the right and
    leaves [y] alone: the rectangle has integer coordinates and [move_ip]
    drops the fraction of 120 * 16 / 1000 = 1.92. With right and down
    together [x] and [y] each grow by that same one pixel: the diagonal is
    not normalized. This is so as long as the coordinate is below the
    largest C [int], which is what a Rect keeps; from there the next pixel
    wraps to the smallest. *)
Theorem chapter_update_moves_whole_pixels (st : state) (c : chapter_scene) :
  scene (game st) = Chapter c ->
  speed c = 120 ->
  pg.fits (player c) ->
  (pg.x (player c) < INT_MAX ->
   scene_update 16 only_right st =
     (Returns tt, with_scene (Chapter (moved_by c 1 0)) st))
  /\ (pg.x (player c) < INT_MAX ->
      pg.y (player c) < INT_MAX ->
      scene_update 16 right_and_down st =
        (Returns tt, with_scene (Chapter (moved_by c 1 1)) st))
  /\ (pg.x (player c) = INT_MAX ->
      exists c',
        scene_update 16 only_right st = (Returns tt, with_scene (Chapter c') st)
        /\ pg.x (player c') = INT_MIN
        /\ pg.y (player c') = pg.y (player c)).
Proof.
  intros Hs Hspeed [Hx Hy].
  rewrite (chapter_update_plain st c 16 only_right Hs eq_refl).
  rewrite (chapter_update_plain st c 16 right_and_down Hs eq_refl).
  unfold pg.move_ip, moved_by. simpl pg.K_a. simpl pg.K_d.
  simpl pg.K_w. simpl pg.K_s. rewrite Hspeed.
  rewrite axis_right_16, axis_idle. rewrite <- Hspeed.
  split; [| split].
  - intros Hlt. rewrite !wrap32_small by lia. now rewrite Z.add_0_r.
  - intros Hltx Hlty. now rewrite !wrap32_small by lia.
  - intros Hmax. eexists. split; [reflexivity |]. cbn [player pg.x pg.y].
    rewrite Hmax, wrap32_past_INT_MAX, Z.add_0_r.
    split; [reflexivity | apply wrap32_small; exact Hy].
Qed.

(** ** The chapter variants *)

Lemma same_but_variant_intro (st1 st2 : state) :
  save (game st1) = save (game st2) ->
  generic (scene (game st1)) = generic (scene (game st2)) ->
  os st1 = os st2 ->
  map generic_call (calls st1) = map generic_call (calls st2) ->
  same_but_variant st1 st2.
Proof.
  intros Hsave Hscene Hos Hcalls. unfold same_but_variant, generic_state.
  now rewrite Hsave, Hscene, Hos, Hcalls.
Qed.

Lemma same_but_variant_elim (st1 st2 : state) :
  same_but_variant st1 st2 ->
  save (game st1) = save (game st2)
  /\ generic (scene (game st1)) = generic (scene (game st2))
  /\ os st1 = os st2
  /\ map generic_call (calls st1) = map generic_call (calls st2).
Proof.
  unfold same_but_variant, generic_state. intros Heq.
  injection Heq as Hsave Hscene Hos Hcalls. repeat split; assumption.
Qed.

Lemma alike_bind {A B : Type} (m1 m2 : M A) (k1 k2 : A -> M B) :
  alike m1 m2 -> (forall a, alike (k1 a) (k2 a)) ->
  alike (bind m1 k1) (bind m2 k2).
Proof.
  intros Hm Hk st1 st2 HR. unfold bind.
  destruct (Hm st1 st2 HR) as [Hout Hst].
  destruct (m1 st1) as [[a1 | e1] st1'], (m2 st2) as [[a2 | e2] st2'];
    simpl in Hout, Hst; try discriminate.
  - injection Hout as <-. apply Hk, Hst.
  - injection Hout as <-. split; [reflexivity | exact Hst].
Qed.

Lemma alike_ret {A : Type} (a : A) : alike (ret a) (ret a).
Proof. intros st1 st2 HR. split; [reflexivity | exact HR]. Qed.

Lemma alike_lift {A : Type} (o : outcome A) : alike (lift o) (lift o).
Proof. intros st1 st2 HR. split; [reflexivity | exact HR]. Qed.

Lemma alike_get_save : alike get_save get_save.
Proof.
  intros st1 st2 HR. split; [| exact HR].
  destruct (same_but_variant_elim _ _ HR) as (Hsave & _).
  unfold get_save. simpl. now rewrite Hsave.
Qed.

Lemma alike_set_save (s : pyval) : alike (set_save s) (set_save s).
Proof.
  intros st1 st2 HR. split; [reflexivity |].
  destruct (same_but_variant_elim _ _ HR) as (_ & Hscene & Hos & Hcalls).
  apply same_but_variant_intro; simpl; auto.
Qed.

Lemma alike_set_scene (s1 s2 : Scene) :
  generic s1 = generic s2 -> alike (set_scene s1) (set_scene s2).
Proof.
  intros Hs st1 st2 HR. split; [reflexivity |].
  destruct (same_but_variant_elim _ _ HR) as (Hsave & _ & Hos & Hcalls).
  apply same_but_variant_intro; simpl; auto.
Qed.

Lemma alike_log (c1 c2 : call) :
  generic_call c1 = generic_call c2 -> alike (log c1) (log c2).
Proof.
  intros Hc st1 st2 HR. split; [reflexivity |].
  destruct (same_but_variant_elim _ _ HR) as (Hsave & Hscene & Hos & Hcalls).
  apply same_but_variant_intro; simpl; auto.
  rewrite !map_app, Hcalls. simpl. now rewrite Hc.
Qed.

Lemma alike_in_world {A : Type} (f : world -> outcome A * world) :
  alike (in_world f) (in_world f).
Proof.
  intros st1 st2 HR.
  destruct (same_but_variant_elim _ _ HR) as (Hsave & Hscene & Hos & Hcalls).
  unfold in_world. rewrite Hos. destruct (f (os st2)) as [o w']. simpl.
  split; [reflexivity |]. apply same_but_variant_intro; simpl; auto.
Qed.

(** Two chapter scenes that differ at most in their class. *)
Lemma generic_chapter_inv (c1 c2 : chapter_scene) :
  generic (Chapter c1) = generic (Chapter c2) ->
  chapter_no c1 = chapter_no c2 /\ player c1 = player c2
  /\ speed c1 = speed c2 /\ world_color c1 = world_color c2.
Proof.
  simpl. intros Heq. injection Heq as Hno Hpl Hsp Hcol. repeat split; assumption.
Qed.

Lemma alike_ChapterScene_start (c1 c2 : chapter_scene) :
  generic (Chapter c1) = generic (Chapter c2) ->
  alike (ChapterScene_start c1) (ChapterScene_start c2).
Proof.
  intros Hg. destruct (generic_chapter_inv _ _ Hg) as (Hno & Hpl & Hsp & Hcol).
  unfold ChapterScene_start. rewrite Hno.
  repeat (apply alike_bind; [apply alike_lift | intros ?]).
  apply alike_set_scene. simpl. now rewrite Hpl, Hsp.
Qed.

Lemma alike_ChapterScene_stop (c1 c2 : chapter_scene) :
  generic (Chapter c1) = generic (Chapter c2) ->
  alike (ChapterScene_stop c1) (ChapterScene_stop c2).
Proof.
  intros Hg. destruct (generic_chapter_inv _ _ Hg) as (Hno & Hpl & Hsp & Hcol).
  unfold ChapterScene_stop. rewrite Hno, Hpl.
  repeat first [ apply alike_bind; [| intros ?]
               | apply alike_get_save | apply alike_lift
               | apply alike_set_save | apply alike_in_world ].
Qed.

Lemma alike_scene_start : alike scene_start scene_start.
Proof.
  intros st1 st2 HR.
  destruct (same_but_variant_elim _ _ HR) as (_ & Hscene & _).
  unfold scene_start.
  destruct (scene (game st1)) as [t1 | c1], (scene (game st2)) as [t2 | c2];
    try discriminate; revert st1 st2 HR;
    (apply alike_bind; [apply alike_log; simpl in *; congruence | intros _]).
  - apply alike_set_scene. reflexivity.
  - now apply alike_ChapterScene_start.
Qed.

Lemma alike_scene_stop : alike scene_stop scene_stop.
Proof.
  intros st1 st2 HR.
  destruct (same_but_variant_elim _ _ HR) as (_ & Hscene & _).
  unfold scene_stop.
  destruct (scene (game st1)) as [t1 | c1], (scene (game st2)) as [t2 | c2];
    try discriminate; revert st1 st2 HR;
    (apply alike_bind; [apply alike_log; simpl in *; congruence | intros _]).
  - apply alike_ret.
  - now apply alike_ChapterScene_stop.
Qed.

Lemma alike_change_scene (s1 s2 : Scene) :
  generic s1 = generic s2 -> alike (change_scene s1) (change_scene s2).
Proof.
  intros Hs. unfold change_scene.
  apply alike_bind; [apply alike_log; simpl; now rewrite Hs | intros _].
  apply alike_bind; [apply alike_scene_stop | intros _].
  apply alike_bind; [now apply alike_set_scene | intros _].
  apply alike_scene_start.
Qed.

Lemma alike_scene_update (dt : Z) (keys : pg.keys) :
  alike (scene_update dt keys) (scene_update dt keys).
Proof.
  intros st1 st2 HR.
  destruct (same_but_variant_elim _ _ HR) as (_ & Hscene & _).
  unfold scene_update.
  destruct (scene (game st1)) as [t1 | c1], (scene (game st2)) as [t2 | c2];
    try discriminate.
  - injection Hscene as <-. revert st1 st2 HR.
    unfold TitleScene_update. destruct (timer t1) as [t |]; [| apply alike_lift].
    apply alike_bind; [now apply alike_set_scene | intros _].
    destruct (2000 <? t + dt); [| apply alike_ret].
    apply alike_bind; [apply alike_get_save | intros s].
    apply alike_bind; [apply alike_lift | intros ch].
    apply alike_bind; [apply alike_lift | intros c].
    now apply alike_change_scene.
  - destruct (generic_chapter_inv _ _ Hscene) as (Hno & Hpl & Hsp & Hcol).
    revert st1 st2 HR. unfold ChapterScene_update.
    destruct (pg.K_ESCAPE keys); [now apply alike_change_scene |].
    apply alike_set_scene. simpl. now rewrite Hno, Hpl, Hsp, Hcol.
Qed.

(** What is drawn does not depend on the class either. *)
Lemma scene_draw_alike (s1 s2 : Scene) :
  generic s1 = generic s2 -> drawn_alike (scene_draw s1) (scene_draw s2).
Proof.
  destruct s1 as [t1 | c1], s2 as [t2 | c2]; try discriminate.
  - intros _. reflexivity.
  - intros Hg. destruct (generic_chapter_inv _ _ Hg) as (Hno & Hpl & Hsp & Hcol).
    unfold scene_draw, ChapterScene_draw. rewrite Hcol, Hno, Hpl.
    destruct (world_color c2) as [color |]; [| exact I].
    destruct (pg_color color) as [rgb | e]; [reflexivity |].
    destruct e; reflexivity.
Qed.

(** C5. For every integer the factory returns a scene, and always the same
    one: its class is the named variant for 1, 2, 3 and 4 and the template
    for any other integer, its chapter number is the integer, its player the
    rectangle of 16 by 24 at (50, 50), its speed 120, and it has no colour
    yet. The variant has no influence on what a scene does: from two states
    that differ at most in the classes of their chapter scenes, [start],
    [stop] and [update] give equal outcomes and leave states that again
    differ at most in those classes, and [draw] shows the same or fails the
    same. *)
Theorem make_total_and_variants_alike (chapter_id : Z) :
  (exists c,
     ChapterScene_make (PInt chapter_id) = Returns c
     /\ class_of c = named_variant chapter_id
     /\ (chapter_id = 1 -> class_of c = ChapterOne)
     /\ (chapter_id = 2 -> class_of c = ChapterTwo)
     /\ (chapter_id = 3 -> class_of c = ChapterThree)
     /\ (chapter_id = 4 -> class_of c = ChapterFour)
     /\ (chapter_id < 1 \/ 4 < chapter_id -> class_of c = ChapterScene)
     /\ chapter_no c = PInt chapter_id
     /\ player c = {| pg.x := 50; pg.y := 50; pg.w := 16; pg.h := 24 |}
     /\ speed c = 120
     /\ world_color c = None
     /\ generic (Chapter c)
        = Chapter {| class_of := ChapterScene; chapter_no := PInt chapter_id;
                     player := {| pg.x := 50; pg.y := 50; pg.w := 16; pg.h := 24 |};
                     speed := 120; world_color := None |})
  /\ alike scene_start scene_start
  /\ alike scene_stop scene_stop
  /\ (forall dt keys, alike (scene_update dt keys) (scene_update dt keys))
  /\ (forall s1 s2, generic s1 = generic s2 ->
                    drawn_alike (scene_draw s1) (scene_draw s2)).
Proof.
  split.
  { exists (made_for chapter_id). split; [apply ChapterScene_make_int |].
    split; [reflexivity |].
    split; [now intros -> |]. split; [now intros -> |].
    split; [now intros -> |]. split; [now intros -> |].
    split; [| repeat split].
    intros Hout. cbn [made_for ChapterScene_init class_of].
    destruct chapter_id as [| p | p]; try reflexivity.
    destruct p as [p | p |]; try lia;
      destruct p as [p | p |]; try lia; try reflexivity;
      destruct p as [p | p |]; try lia; reflexivity. }
  split; [apply alike_scene_start |]. split; [apply alike_scene_stop |].
  split; [apply alike_scene_update | apply scene_draw_alike].
Qed.

End EngineFacts.

(** ** The codec on save records *)

Module PyJsonFacts.

Import PyJson.

Lemma scan_digits_stop (acc : Z) (rest : string) :
  starts_with_digit rest = false -> scan_digits acc rest = (acc, rest).
Proof.
  destruct rest as [| c rest]; simpl; [reflexivity |].
  destruct (digit_val c); [discriminate | reflexivity].
Qed.

Lemma scan_digits_step (acc : Z) (c : ascii) (rest : string) :
  scan_digits acc (String c rest)
  = match digit_val c with
    | Some d => scan_digits (10 * acc + d) rest
    | None => (acc, String c rest)
    end.
Proof. reflexivity. Qed.

(** Reading back the digits of [u] after the digits of [acc]. *)
Lemma scan_digits_uint (u : Decimal.uint) :
  forall (acc : positive) (rest : string),
    starts_with_digit rest = false ->
    scan_digits (Zpos acc) (NilEmpty.string_of_uint u ++ rest)
    = (Zpos (Pos.of_uint_acc u acc), rest).
Proof.
  induction u; intros acc rest Hrest;
    cbn [NilEmpty.string_of_uint String.append Pos.of_uint_acc];
    [now apply scan_digits_stop | ..];
    rewrite scan_digits_step;
    match goal with
    | |- context [digit_val ?c] =>
        let v := eval vm_compute in (digit_val c) in
        change (digit_val c) with v
    end;
    cbv beta iota; rewrite <- IHu by exact Hrest; f_equal; lia.
Qed.

Lemma nzhead_not_D0 (d d' : Decimal.uint) : Decimal.nzhead d <> Decimal.D0 d'.
Proof.
  induction d; simpl; try discriminate. exact IHd.
Qed.

(** The decimal writing of a positive number does not start with 0. *)
Lemma to_uint_not_D0 (p : positive) (d : Decimal.uint) :
  Pos.to_uint p <> Decimal.D0 d.
Proof.
  intros Heq.
  pose proof (DecimalPos.Unsigned.to_of (Pos.to_uint p)) as Hnorm.
  rewrite DecimalPos.Unsigned.of_to in Hnorm. simpl in Hnorm.
  unfold Decimal.unorm in Hnorm.
  destruct (Decimal.nzhead (Pos.to_uint p)) eqn:Hnz;
    try (rewrite Heq in Hnorm; discriminate Hnorm).
  - now apply (DecimalPos.Unsigned.to_uint_nonzero p).
  - now apply nzhead_not_D0 in Hnz.
Qed.

(** A text that starts with a digit or a minus sign is read as a number. *)
Lemma scan_once_number (fuel : nat) (c : ascii) (rest : string)
      (r : outcome (pyval * string)) :
  match digit_val c with Some _ => true | None => Ascii.eqb c "-" end = true ->
  scan_number (String c rest) = Some r ->
  scan_once (S fuel) (String c rest) = r.
Proof.
  intros Hc Hnum.
  destruct c as [[] [] [] [] [] [] [] []]; try discriminate Hc;
    cbn -[scan_number]; rewrite Hnum; reflexivity.
Qed.

Ltac eval_digit :=
  match goal with
  | |- context [digit_val ?c] =>
      let v := eval vm_compute in (digit_val c) in
      change (digit_val c) with v
  end; cbv beta iota.

(** The digits of a positive number are read back as that number. *)
Lemma scan_natural_pos (p : positive) (rest : string) :
  starts_with_digit rest = false ->
  scan_natural (NilZero.string_of_uint (Pos.to_uint p) ++ rest)
  = Some (Zpos p, rest).
Proof.
  intros Hrest.
  pose proof (DecimalPos.Unsigned.of_to p) as Hof.
  destruct (Pos.to_uint p) as [| u | u | u | u | u | u | u | u | u | u] eqn:Hu;
    [ now apply DecimalPos.Unsigned.to_uint_nonnil in Hu
    | now apply to_uint_not_D0 in Hu
    | .. ];
    cbn [NilZero.string_of_uint NilEmpty.string_of_uint String.append scan_natural];
    eval_digit; rewrite scan_digits_uint by exact Hrest;
    simpl in Hof; injection Hof as ->; reflexivity.
Qed.

(** [str(z)] followed by a text that does not go on as a number is read
    back as [z], when [z] is within the limit of [int]. *)
Lemma scan_number_encode_int (z : Z) (rest : string) :
  (Z.abs z <? int_limit) = true ->
  starts_with_digit rest = false ->
  float_tail rest = false ->
  scan_number (encode_int z ++ rest) = Some (Returns (PInt z, rest)).
Proof.
  intros Hlimit Hdigit Hfloat. unfold encode_int.
  destruct z as [| p | p]; cbn [Z.to_int NilZero.string_of_int].
  - cbn -[int_limit Z.ltb]. now rewrite Hfloat.
  - pose proof (scan_natural_pos p rest Hdigit) as Hnat.
    unfold scan_number.
    destruct (NilZero.string_of_uint (Pos.to_uint p) ++ rest)%string
      as [| c s] eqn:Hs; [discriminate Hnat |].
    destruct (Ascii.eqb_spec c "-") as [-> | _]; [discriminate Hnat |].
    rewrite Hnat, Hfloat. cbn [Z.abs] in Hlimit. now rewrite Hlimit.
  - unfold scan_number. cbn [String.append Ascii.eqb Bool.eqb].
    rewrite scan_natural_pos by exact Hdigit. rewrite Hfloat.
    cbn [Z.abs] in Hlimit. now rewrite Hlimit.
Qed.

(** [str(z)] starts with a digit or a minus sign. *)
Lemma encode_int_head (z : Z) :
  exists c s,
    encode_int z = String c s
    /\ match digit_val c with Some _ => true | None => Ascii.eqb c "-" end = true
    /\ is_ws c = false.
Proof.
  unfold encode_int. destruct z as [| p | p]; cbn [Z.to_int NilZero.string_of_int].
  - now exists "0"%char, EmptyString.
  - destruct (Pos.to_uint p) as [| u | u | u | u | u | u | u | u | u | u] eqn:Hu;
      [ now apply DecimalPos.Unsigned.to_uint_nonnil in Hu | .. ];
      cbn [NilZero.string_of_uint NilEmpty.string_of_uint];
      eexists _, _; (split; [reflexivity |]); split; reflexivity.
  - eexists _, _. split; [reflexivity |]. split; reflexivity.
Qed.

Lemma skip_ws_encode_int (z : Z) (rest : string) :
  skip_ws (encode_int z ++ rest) = (encode_int z ++ rest)%string.
Proof.
  destruct (encode_int_head z) as (c & s & -> & _ & Hws).
  cbn [String.append skip_ws]. now rewrite Hws.
Qed.

Lemma scan_once_encode_int (fuel : nat) (z : Z) (rest : string) :
  (Z.abs z <? int_limit) = true ->
  starts_with_digit rest = false ->
  float_tail rest = false ->
  scan_once (S fuel) (encode_int z ++ rest) = Returns (PInt z, rest).
Proof.
  intros Hlimit Hdigit Hfloat.
  pose proof (scan_number_encode_int z rest Hlimit Hdigit Hfloat) as Hnum.
  destruct (encode_int_head z) as (c & s & Heq & Hc & _).
  rewrite Heq in *. cbn [String.append] in *.
  now apply scan_once_number.
Qed.

(** *** Floats *)

Section NumberBeforeText.

Variable rest : string.
Hypothesis Hdigit : starts_with_digit rest = false.
Hypothesis Hfloat : float_tail rest = false.

Lemma starts_with_digit_app (s : string) :
  starts_with_digit (s ++ rest) = starts_with_digit s.
Proof. destruct s as [| c s]; [exact Hdigit | reflexivity]. Qed.

Lemma scan_digits_app (s : string) :
  forall acc : Z,
    scan_digits acc (s ++ rest)
    = (fst (scan_digits acc s), (snd (scan_digits acc s) ++ rest)%string).
Proof.
  induction s as [| c s IH]; intros acc.
  - simpl. now apply scan_digits_stop.
  - simpl. destruct (digit_val c); [apply IH | reflexivity].
Qed.

Lemma count_digits_app (s : string) :
  count_digits (s ++ rest) = count_digits s.
Proof.
  induction s as [| c s IH]; simpl.
  - destruct rest as [| c r]; [reflexivity |]. simpl in Hdigit. simpl.
    destruct (digit_val c); [discriminate | reflexivity].
  - destruct (digit_val c); [now rewrite IH | reflexivity].
Qed.

Lemma scan_natural_app (s : string) (n : Z) (r : string) :
  scan_natural s = Some (n, r) ->
  scan_natural (s ++ rest) = Some (n, (r ++ rest)%string).
Proof.
  destruct s as [| c s]; [discriminate |]. simpl.
  destruct (digit_val c) as [[| p | p] |]; try discriminate.
  - now intros [= <- <-].
  - rewrite scan_digits_app. destruct (scan_digits (Z.pos p) s). now intros [= <- <-].
  - rewrite scan_digits_app. destruct (scan_digits (Z.neg p) s). now intros [= <- <-].
Qed.

Lemma float_tail_app (s : string) :
  float_tail s = true -> float_tail (s ++ rest) = true.
Proof.
  destruct s as [| c s]; [discriminate |]. simpl.
  destruct (Ascii.eqb c "."); [now rewrite starts_with_digit_app |].
  destruct (Ascii.eqb c "e" || Ascii.eqb c "E"); [| discriminate].
  destruct s as [| sign s]; [discriminate |]. simpl.
  destruct (Ascii.eqb sign "+" || Ascii.eqb sign "-").
  - now rewrite starts_with_digit_app.
  - trivial.
Qed.

Lemma scan_frac_none : scan_frac rest = (0, O, rest).
Proof.
  destruct rest as [| c r]; [reflexivity |]. simpl in *.
  destruct (Ascii.eqb c "."); [| reflexivity].
  simpl. now rewrite Hfloat.
Qed.

Lemma scan_frac_app (s : string) :
  scan_frac (s ++ rest)
  = (fst (fst (scan_frac s)), snd (fst (scan_frac s)),
     (snd (scan_frac s) ++ rest)%string).
Proof.
  destruct s as [| c s]; [simpl; now rewrite scan_frac_none |].
  simpl. rewrite starts_with_digit_app.
  destruct (Ascii.eqb c "." && starts_with_digit s); [| reflexivity].
  rewrite scan_digits_app, count_digits_app. reflexivity.
Qed.

Lemma scan_exp_none : scan_exp rest = (0, rest).
Proof.
  destruct rest as [| c r]; [reflexivity |]. simpl in *.
  destruct (Ascii.eqb_spec c ".") as [-> | _]; [reflexivity |].
  destruct (Ascii.eqb c "e" || Ascii.eqb c "E"); [| reflexivity].
  destruct r as [| sign r']; [reflexivity |].
  destruct (Ascii.eqb_spec sign "-") as [-> | _].
  - simpl in Hfloat. now rewrite Hfloat.
  - destruct (Ascii.eqb_spec sign "+") as [-> | _].
    + simpl in Hfloat. now rewrite Hfloat.
    + simpl in Hfloat. unfold starts_with_digit. now rewrite Hfloat.
Qed.

(** An exponent that the text [s] ends with is read the same before [rest]. *)
Lemma scan_exp_app (s : string) (e : Z) :
  scan_exp s = (e, EmptyString) -> scan_exp (s ++ rest) = (e, rest).
Proof.
  destruct s as [| c s]; [simpl; intros [= <-]; apply scan_exp_none |].
  simpl. destruct (Ascii.eqb c "e" || Ascii.eqb c "E"); [| discriminate].
  destruct s as [| sign s]; [discriminate |]. simpl.
  destruct (Ascii.eqb sign "-").
  - rewrite starts_with_digit_app. destruct (starts_with_digit s); [| discriminate].
    rewrite scan_digits_app. destruct (scan_digits 0 s) as [n r]. simpl.
    now intros [= <- ->].
  - destruct (Ascii.eqb sign "+").
    + rewrite starts_with_digit_app. destruct (starts_with_digit s); [| discriminate].
      rewrite scan_digits_app. destruct (scan_digits 0 s) as [n r]. simpl.
      now intros [= <- ->].
    + destruct (digit_val sign) as [d |]; [| discriminate].
      rewrite scan_digits_app. intros ->. reflexivity.
Qed.

(** A float literal that is all of the text [t] is read the same before
    [rest]. *)
Lemma scan_number_float_app (t : string) (g : float) :
  scan_number t = Some (Returns (PFloat g, EmptyString)) ->
  scan_number (t ++ rest) = Some (Returns (PFloat g, rest)).
Proof.
  destruct t as [| c t]; [discriminate |].
  unfold scan_number. cbn [String.append].
  set (unsigned := if Ascii.eqb c "-" then t else String c t).
  replace (if Ascii.eqb c "-" then (t ++ rest)%string else String c (t ++ rest))
    with (unsigned ++ rest)%string
    by (subst unsigned; now destruct (Ascii.eqb c "-")).
  destruct (scan_natural unsigned) as [[n r] |] eqn:Hnat; [| discriminate].
  rewrite (scan_natural_app unsigned n r Hnat).
  destruct (float_tail r) eqn:Htail.
  - rewrite (float_tail_app r Htail), scan_frac_app.
    destruct (scan_frac r) as [[frac places] r1]. simpl fst. simpl snd.
    destruct (scan_exp r1) as [e r2] eqn:Hexp.
    intros [= <- ->]. now rewrite (scan_exp_app r1 e Hexp).
  - destruct (n <? int_limit); discriminate.
Qed.

End NumberBeforeText.

(** Only a text that starts with a digit or a minus sign is read as a
    number. *)
Lemma scan_number_head (c : ascii) (s : string) (r : outcome (pyval * string)) :
  scan_number (String c s) = Some r ->
  match digit_val c with Some _ => true | None => Ascii.eqb c "-" end = true.
Proof.
  unfold scan_number.
  destruct (Ascii.eqb_spec c "-") as [-> | _]; [reflexivity |].
  cbn [scan_natural]. destruct (digit_val c); [reflexivity | discriminate].
Qed.

Lemma strip_prefix_all (p s : string) :
  strip_prefix p s = Some EmptyString -> s = p.
Proof.
  revert s. induction p as [| a p IH]; intros [| b s]; simpl; try congruence.
  destruct (Ascii.eqb_spec a b) as [-> | _]; [| discriminate].
  intros Hs. now rewrite (IH s Hs).
Qed.

(** A text that is all of it a float is read as that float before a text
    that does not go on as a number. *)
Lemma scan_once_float_app (t : string) (g : float) (fuel : nat) (rest : string) :
  starts_with_digit rest = false ->
  float_tail rest = false ->
  scan_once 1 t = Returns (PFloat g, EmptyString) ->
  scan_once (S fuel) (t ++ rest) = Returns (PFloat g, rest).
Proof.
  intros Hdigit Hfloat.
  destruct t as [| c s]; [discriminate |].
  destruct (scan_number (String c s)) as [r |] eqn:Hnum.
  - pose proof (scan_number_head c s r Hnum) as Hc.
    rewrite (scan_once_number 0 c s r Hc Hnum). intros ->.
    cbn [String.append].
    apply scan_once_number; [exact Hc |].
    exact (scan_number_float_app rest Hdigit Hfloat (String c s) g Hnum).
  - cbn [scan_once].
    destruct (Ascii.eqb c quote);
      [destruct (scan_string s) as [[str r'] | e]; discriminate |].
    destruct (Ascii.eqb c "{");
      [destruct (skip_ws s) as [| c' r']; [discriminate |];
       destruct (Ascii.eqb c' "}"); [discriminate |];
       destruct (Ascii.eqb c' quote); discriminate |].
    destruct (Ascii.eqb c "[");
      [destruct (skip_ws s) as [| c' r']; [discriminate |];
       destruct (Ascii.eqb c' "]"); discriminate |].
    destruct (strip_prefix "null" (String c s)); [discriminate |].
    destruct (strip_prefix "true" (String c s)); [discriminate |].
    destruct (strip_prefix "false" (String c s)); [discriminate |].
    rewrite Hnum.
    destruct (strip_prefix "NaN" (String c s)) as [r1 |] eqn:H1.
    { intros [= <- ->]. apply strip_prefix_all in H1. rewrite H1. reflexivity. }
    destruct (strip_prefix "Infinity" (String c s)) as [r2 |] eqn:H2.
    { intros [= <- ->]. apply strip_prefix_all in H2. rewrite H2. reflexivity. }
    destruct (strip_prefix "-Infinity" (String c s)) as [r3 |] eqn:H3.
    { intros [= <- ->]. apply strip_prefix_all in H3. rewrite H3. reflexivity. }
    discriminate.
Qed.

(** [repr(f)] starts with a digit, a minus sign or the first letter of
    [NaN] or [Infinity]. *)
Lemma float_repr_head (f : float) :
  exists c s, float_repr f = String c s /\ opens_value c = true.
Proof.
  unfold float_repr.
  destruct (Prim2SF f) as [[] | [] | | sign m e];
    try (eexists _, _; split; reflexivity).
  destruct (shortest_from _ _ _ _ _ _) as [c0 k0].
  destruct (strip_zeros _ _ _) as [c k].
  destruct sign; [eexists _, _; split; reflexivity |].
  destruct (encode_int_head c) as (c1 & s1 & -> & Hc & _).
  assert (Hopen : opens_value c1 = true).
  { destruct c1 as [[] [] [] [] [] [] [] []]; try discriminate Hc; reflexivity. }
  cbn [String.append]. unfold format_repr.
  set (decpt := k + Z.of_nat (String.length (String c1 s1))).
  destruct ((decpt <=? -4) || (16 <? decpt)).
  { destruct s1; eexists _, _; (split; [reflexivity | exact Hopen]). }
  destruct (decpt <=? 0) eqn:Hpos.
  { eexists _, _; split; reflexivity. }
  destruct (Z.of_nat (String.length (String c1 s1)) <=? decpt).
  { eexists _, _; split; [reflexivity | exact Hopen]. }
  destruct (Z.to_nat decpt) as [| n] eqn:Hn; [lia |].
  eexists _, _; split; [reflexivity | exact Hopen].
Qed.

(** The text of a float that reads back is read as that float before a text
    that does not go on as a number. *)
Lemma scan_once_float (fuel : nat) (f : float) (rest : string) :
  float_reads_back f = true ->
  starts_with_digit rest = false ->
  float_tail rest = false ->
  scan_once (S fuel) (float_repr f ++ rest) = Returns (PFloat f, rest).
Proof.
  unfold float_reads_back. intros Hback Hdigit Hfloat.
  destruct (scan_once 1 (float_repr f)) as [[v r] | e] eqn:Hscan; [| discriminate].
  destruct v; try discriminate. destruct r; [| discriminate].
  apply FloatAxioms.Leibniz.eqb_spec in Hback. subst f0.
  now apply scan_once_float_app.
Qed.

Lemma append_assoc (a b c : string) : ((a ++ b) ++ c = a ++ (b ++ c))%string.
Proof. induction a as [| x a IH]; simpl; [reflexivity | now rewrite IH]. Qed.

Lemma append_nil_r (a : string) : (a ++ EmptyString = a)%string.
Proof. induction a as [| x a IH]; simpl; [reflexivity | now rewrite IH]. Qed.

Lemma encode_list (lvl : nat) (v0 : pyval) (vs : list pyval) (rest : string) :
  (encode lvl (PList (v0 :: vs)) ++ rest)%string
  = String "[" (newline_indent (S lvl) ++ encode (S lvl) v0
                ++ items_text (S lvl) vs (newline_indent lvl ++ String "]" rest))%string.
Proof.
  cbn [encode]. cbn [String.append]. f_equal.
  rewrite !append_assoc. f_equal. f_equal.
  change ("]" ++ rest)%string with (String "]" rest).
  induction vs as [| v vs IH].
  - reflexivity.
  - cbn [items_text fold_right String.append]. f_equal.
    rewrite !append_assoc. f_equal. f_equal. exact IH.
Qed.

Lemma encode_dict (lvl : nat) (k0 : string) (v0 : pyval) (kvs : list (string * pyval)) (rest : string) :
  (encode lvl (PDict ((k0, v0) :: kvs)) ++ rest)%string
  = String "{" (newline_indent (S lvl) ++ encode_str k0 ++ String ":" (String " " (encode (S lvl) v0
                ++ pairs_text (S lvl) kvs (newline_indent lvl ++ String "}" rest))))%string.
Proof.
  cbn [encode]. cbn [String.append]. f_equal.
  rewrite !append_assoc. f_equal. f_equal. cbn [String.append]. f_equal. f_equal.
  rewrite !append_assoc. f_equal.
  change ("}" ++ rest)%string with (String "}" rest).
  induction kvs as [| [k v] kvs IH].
  - reflexivity.
  - cbn [pairs_text fold_right fst snd String.append]. f_equal.
    rewrite !append_assoc. f_equal. f_equal. cbn [String.append]. f_equal. f_equal.
    rewrite !append_assoc. f_equal. exact IH.
Qed.

Lemma skip_ws_spaces (n : nat) (s : string) :
  skip_ws (spaces n ++ s) = skip_ws s.
Proof. induction n as [| n IH]; [reflexivity | exact IH]. Qed.

Lemma skip_ws_newline_indent (lvl : nat) (s : string) :
  skip_ws (newline_indent lvl ++ s) = skip_ws s.
Proof. unfold newline_indent. cbn [String.append skip_ws is_ws]. apply skip_ws_spaces. Qed.

Lemma encode_head (lvl : nat) (v : pyval) :
  exists c s, encode lvl v = String c s /\ opens_value c = true.
Proof.
  destruct v as [| [] | z | f | s | [| v0 vs] | [| [k0 v0] kvs]]; cbn [encode];
    try (eexists _, _; split; reflexivity).
  - destruct (encode_int_head z) as (c & s & Heq & Hc & Hws).
    exists c, s. split; [exact Heq |].
    destruct c as [[] [] [] [] [] [] [] []]; try discriminate Hc; reflexivity.
  - apply float_repr_head.
Qed.

Lemma skip_ws_encode (lvl : nat) (v : pyval) (rest : string) :
  skip_ws (encode lvl v ++ rest) = (encode lvl v ++ rest)%string.
Proof.
  destruct (encode_head lvl v) as (c & s & -> & Hc).
  cbn [String.append skip_ws].
  destruct (is_ws c) eqn:Hws; [| reflexivity].
  unfold opens_value in Hc. rewrite Hws in Hc. discriminate.
Qed.

(** One character written by [escape] is read back by [scan_string]. *)
Lemma scan_string_escape (c : ascii) (tail : string) :
  scan_string (escape c ++ tail) = cons_char c (scan_string tail).
Proof.
  destruct c as [[] [] [] [] [] [] [] []]; reflexivity.
Qed.

Lemma scan_string_escape_all (s tail : string) :
  scan_string (escape_all s ++ String quote tail) = Returns (s, tail).
Proof.
  induction s as [| c s IH]; [reflexivity |].
  cbn [escape_all]. rewrite append_assoc, scan_string_escape, IH. reflexivity.
Qed.

Lemma need_list (l : list pyval) : need (PList l) = S (need_items l).
Proof.
  reflexivity.
Qed.

Lemma need_dict (l : list (string * pyval)) : need (PDict l) = S (need_pairs l).
Proof.
  cbn [need]. f_equal. unfold need_pairs.
  induction l as [| [k x] r IH]; [reflexivity |].
  cbn [fold_right snd]. now rewrite IH.
Qed.

Lemma well_formed_dict (kvs : list (string * pyval)) :
  well_formed (PDict kvs)
  = distinct (map fst kvs) && forallb (fun kv => well_formed (snd kv)) kvs.
Proof.
  cbn [well_formed]. f_equal. induction kvs as [| [k x] r IH]; [reflexivity |].
  cbn [forallb snd]. now rewrite <- IH.
Qed.

Lemma readable_dict (kvs : list (string * pyval)) :
  readable (PDict kvs)
  = distinct (map fst kvs) && forallb (fun kv => readable (snd kv)) kvs.
Proof.
  cbn [readable]. f_equal. induction kvs as [| [k x] r IH]; [reflexivity |].
  cbn [forallb snd]. now rewrite <- IH.
Qed.

Lemma floats_read_back_dict (kvs : list (string * pyval)) :
  floats_read_back (PDict kvs) = forallb (fun kv => floats_read_back (snd kv)) kvs.
Proof.
  cbn [floats_read_back]. induction kvs as [| [k x] r IH]; [reflexivity |].
  cbn [forallb snd]. now rewrite <- IH.
Qed.

Lemma scan_items_step (fuel : nat) (s : string) (acc : list pyval) :
  scan_items (S fuel) s acc =
  match scan_once fuel s with
  | Raises e => Raises e
  | Returns (value, after_value) =>
      match skip_ws after_value with
      | String c rest =>
          if Ascii.eqb c "]" then Returns (PList (acc ++ [value]), rest)
          else if Ascii.eqb c "," then scan_items fuel (skip_ws rest) (acc ++ [value])
          else Raises (ValueError "Expecting ',' delimiter")
      | EmptyString => Raises (ValueError "Expecting ',' delimiter")
      end
  end.
Proof. reflexivity. Qed.

Lemma items_text_delimited (lvl lvl' : nat) (vs : list pyval) (rest : string) :
  let tail := items_text lvl vs (newline_indent lvl' ++ String "]" rest) in
  starts_with_digit tail = false /\ float_tail tail = false.
Proof. destruct vs; split; reflexivity. Qed.

Lemma skip_ws_keep (c : ascii) (s : string) :
  is_ws c = false -> skip_ws (String c s) = String c s.
Proof. intros Hc. cbn [skip_ws]. now rewrite Hc. Qed.

Lemma skip_ws_drop (c : ascii) (s : string) :
  is_ws c = true -> skip_ws (String c s) = skip_ws s.
Proof. intros Hc. cbn [skip_ws]. now rewrite Hc. Qed.

Lemma items_text_cons (lvl : nat) (v : pyval) (vs : list pyval) (tail : string) :
  items_text lvl (v :: vs) tail
  = String "," (newline_indent lvl ++ encode lvl v ++ items_text lvl vs tail)%string.
Proof. reflexivity. Qed.

Lemma scan_items_encode (vs : list pyval) :
  Forall reads_back vs ->
  forall (v : pyval) (acc : list pyval) (fuel lvl lvl' : nat) (rest : string),
    reads_back v ->
    forallb readable (v :: vs) = true ->
    (need_items (v :: vs) <= fuel)%nat ->
    scan_items fuel
      (encode lvl v ++ items_text lvl vs (newline_indent lvl' ++ String "]" rest)) acc
    = Returns (PList (acc ++ v :: vs), rest).
Proof.
  induction 1 as [| v' vs Hv' Hvs IH]; intros v acc fuel lvl lvl' rest Hv Hwf Hfuel;
    cbn [forallb] in Hwf; apply andb_prop in Hwf; destruct Hwf as [Hwfv Hwfvs];
    cbn [need_items fold_right] in Hfuel;
    (destruct fuel as [| fuel]; [lia |]);
    rewrite scan_items_step.
  - rewrite (Hv Hwfv) by (reflexivity || lia).
    cbn [items_text fold_right]. rewrite skip_ws_newline_indent. reflexivity.
  - destruct (items_text_delimited lvl lvl' (v' :: vs) rest) as [Hd Hf].
    rewrite (Hv Hwfv) by (assumption || lia).
    rewrite items_text_cons, skip_ws_keep by reflexivity.
    cbn -[newline_indent encode scan_items skip_ws items_text String.append].
    rewrite skip_ws_newline_indent, skip_ws_encode.
    rewrite (IH v' (acc ++ [v]) fuel lvl lvl' rest Hv' Hwfvs).
    + now rewrite <- app_assoc.
    + cbn [need_items fold_right]. lia.
Qed.

Lemma scan_pairs_step (fuel : nat) (s : string) (acc : list (string * pyval)) :
  scan_pairs (S fuel) s acc =
  match scan_string s with
  | Raises e => Raises e
  | Returns (key, after_key) =>
      match skip_ws after_key with
      | String c after_colon =>
          if Ascii.eqb c ":" then
            match scan_once fuel (skip_ws after_colon) with
            | Raises e => Raises e
            | Returns (value, after_value) =>
                match skip_ws after_value with
                | String c' rest =>
                    if Ascii.eqb c' "}"
                    then Returns (PDict (dict_of (acc ++ [(key, value)])), rest)
                    else if Ascii.eqb c' "," then
                      match skip_ws rest with
                      | String c'' rest' =>
                          if Ascii.eqb c'' quote
                          then scan_pairs fuel rest' (acc ++ [(key, value)])
                          else Raises (ValueError
                            "Expecting property name enclosed in double quotes")
                      | EmptyString =>
                          Raises (ValueError
                            "Expecting property name enclosed in double quotes")
                      end
                    else Raises (ValueError "Expecting ',' delimiter")
                | EmptyString => Raises (ValueError "Expecting ',' delimiter")
                end
            end
          else Raises (ValueError "Expecting ':' delimiter")
      | EmptyString => Raises (ValueError "Expecting ':' delimiter")
      end
  end.
Proof. reflexivity. Qed.

Lemma pairs_text_cons (lvl : nat) (k : string) (v : pyval)
      (kvs : list (string * pyval)) (tail : string) :
  pairs_text lvl ((k, v) :: kvs) tail
  = String "," (newline_indent lvl ++ encode_str k
                ++ String ":" (String " " (encode lvl v ++ pairs_text lvl kvs tail)))%string.
Proof. reflexivity. Qed.

Lemma pairs_text_delimited (lvl lvl' : nat) (kvs : list (string * pyval)) (rest : string) :
  let tail := pairs_text lvl kvs (newline_indent lvl' ++ String "}" rest) in
  starts_with_digit tail = false /\ float_tail tail = false.
Proof. destruct kvs; split; reflexivity. Qed.

(** The text of a key from just after its opening quote. *)
Lemma encode_str_tail (k tail : string) :
  (encode_str k ++ tail)%string = String quote (escape_all k ++ String quote tail).
Proof. unfold encode_str, chr. cbn [String.append]. now rewrite append_assoc. Qed.

Lemma scan_pairs_encode (kvs : list (string * pyval)) :
  Forall (fun kv => reads_back (snd kv)) kvs ->
  forall (k : string) (v : pyval) (acc : list (string * pyval))
         (fuel lvl lvl' : nat) (rest : string),
    reads_back v ->
    forallb (fun kv => readable (snd kv)) ((k, v) :: kvs) = true ->
    (need_pairs ((k, v) :: kvs) <= fuel)%nat ->
    scan_pairs fuel
      (escape_all k
       ++ String quote (String ":" (String " "
            (encode lvl v
             ++ pairs_text lvl kvs (newline_indent lvl' ++ String "}" rest)))))
      acc
    = Returns (PDict (dict_of (acc ++ (k, v) :: kvs)), rest).
Proof.
  induction 1 as [| [k' v'] kvs Hv' Hkvs IH];
    intros k v acc fuel lvl lvl' rest Hv Hwf Hfuel;
    cbn [forallb snd] in Hwf; apply andb_prop in Hwf; destruct Hwf as [Hwfv Hwfkvs];
    cbn [need_pairs fold_right snd] in Hfuel;
    (destruct fuel as [| fuel]; [lia |]);
    rewrite scan_pairs_step, scan_string_escape_all, skip_ws_keep by reflexivity;
    cbn -[newline_indent encode scan_pairs scan_once skip_ws pairs_text String.append dict_of];
    rewrite skip_ws_drop by reflexivity; rewrite skip_ws_encode.
  - rewrite (Hv Hwfv) by (reflexivity || lia).
    cbn [pairs_text fold_right]. rewrite skip_ws_newline_indent. reflexivity.
  - destruct (pairs_text_delimited lvl lvl' ((k', v') :: kvs) rest) as [Hd Hf].
    rewrite (Hv Hwfv) by (assumption || lia).
    rewrite pairs_text_cons, skip_ws_keep by reflexivity.
    cbn -[newline_indent encode scan_pairs skip_ws pairs_text String.append dict_of].
    rewrite skip_ws_newline_indent, encode_str_tail, skip_ws_keep by reflexivity.
    cbn -[newline_indent encode scan_pairs skip_ws pairs_text String.append dict_of].
    simpl in Hv'.
    rewrite (IH k' v' (acc ++ [(k, v)]) fuel lvl lvl' rest Hv' Hwfkvs).
    + now rewrite <- app_assoc.
    + cbn [need_pairs fold_right snd]. lia.
Qed.

Lemma distinct_app_not_in (l1 l2 : list string) (k : string) :
  distinct (l1 ++ k :: l2) = true -> existsb (String.eqb k) l1 = false.
Proof.
  induction l1 as [| a l1 IH]; [reflexivity |].
  cbn [app distinct existsb]. intros Hd.
  apply andb_prop in Hd. destruct Hd as [Ha Hd].
  rewrite (IH Hd), orb_false_r.
  apply negb_true_iff in Ha. rewrite existsb_app in Ha.
  apply orb_false_elim in Ha. destruct Ha as [_ Ha].
  cbn [existsb] in Ha. apply orb_false_elim in Ha. destruct Ha as [Ha _].
  now rewrite String.eqb_sym.
Qed.

Lemma dict_set_new (k : string) (v : pyval) (d : list (string * pyval)) :
  existsb (String.eqb k) (map fst d) = false -> dict_set k v d = d ++ [(k, v)].
Proof.
  induction d as [| [k' v'] d IH]; [reflexivity |].
  cbn [map fst existsb dict_set app]. intros Hk.
  apply orb_false_elim in Hk. destruct Hk as [Hk Hd].
  rewrite Hk. now rewrite (IH Hd).
Qed.

Lemma fold_dict_set_distinct (pairs : list (string * pyval)) :
  forall d : list (string * pyval),
    distinct (map fst (d ++ pairs)) = true ->
    fold_left (fun d kv => dict_set (fst kv) (snd kv) d) pairs d = d ++ pairs.
Proof.
  induction pairs as [| [k v] pairs IH]; intros d Hd.
  - now rewrite List.app_nil_r.
  - cbn [fold_left fst snd].
    rewrite dict_set_new.
    + rewrite IH; rewrite <- app_assoc; [reflexivity | exact Hd].
    + rewrite map_app in Hd. cbn [map fst] in Hd.
      now apply distinct_app_not_in in Hd.
Qed.

Lemma dict_of_distinct (pairs : list (string * pyval)) :
  distinct (map fst pairs) = true -> dict_of pairs = pairs.
Proof. intros Hd. unfold dict_of. now rewrite fold_dict_set_distinct. Qed.

Lemma scan_once_list (fuel : nat) (r : string) :
  scan_once (S fuel) (String "[" r) =
  match skip_ws r with
  | String c' rest' =>
      if Ascii.eqb c' "]" then Returns (PList [], rest')
      else scan_items fuel (String c' rest') []
  | EmptyString => expecting_value
  end.
Proof. reflexivity. Qed.

Lemma scan_once_dict (fuel : nat) (r : string) :
  scan_once (S fuel) (String "{" r) =
  match skip_ws r with
  | String c' rest' =>
      if Ascii.eqb c' "}" then Returns (PDict [], rest')
      else if Ascii.eqb c' quote then scan_pairs fuel rest' []
      else Raises (ValueError "Expecting property name enclosed in double quotes")
  | EmptyString =>
      Raises (ValueError "Expecting property name enclosed in double quotes")
  end.
Proof. reflexivity. Qed.

Lemma scan_once_str (fuel : nat) (s rest : string) :
  scan_once (S fuel) (encode_str s ++ rest) = Returns (PStr s, rest).
Proof.
  rewrite encode_str_tail.
  change (scan_once (S fuel) (String quote ?x)) with
    (match scan_string x with
     | Returns (str, rest') => Returns (PStr str, rest')
     | Raises e => Raises e
     end).
  now rewrite scan_string_escape_all.
Qed.

Lemma opens_value_not (c : ascii) :
  opens_value c = true ->
  is_ws c = false /\ Ascii.eqb c "]" = false /\ Ascii.eqb c "}" = false.
Proof.
  unfold opens_value. intros Hc.
  repeat (apply andb_prop in Hc; destruct Hc as [Hc ?]).
  repeat split; now apply negb_true_iff.
Qed.

(** Every readable value is read back from its text. *)
Theorem scan_once_encode (v : pyval) : reads_back v.
Proof.
  induction v as [| b | z | f | s | l IHl | kvs IHkvs] using pyval_induction;
    intros Hwf lvl fuel rest Hfuel Hdigit Hfloat.
  - destruct fuel as [| fuel]; [cbn in Hfuel; lia | reflexivity].
  - destruct fuel as [| fuel]; [cbn in Hfuel; lia | destruct b; reflexivity].
  - destruct fuel as [| fuel]; [cbn in Hfuel; lia |].
    now apply scan_once_encode_int.
  - destruct fuel as [| fuel]; [cbn in Hfuel; lia |].
    now apply scan_once_float.
  - destruct fuel as [| fuel]; [cbn in Hfuel; lia |].
    apply scan_once_str.
  - rewrite need_list in Hfuel.
    destruct fuel as [| fuel]; [lia |]. apply le_S_n in Hfuel.
    destruct l as [| v0 vs]; [reflexivity |].
    rewrite encode_list, scan_once_list, skip_ws_newline_indent, skip_ws_encode.
    destruct (encode_head (S lvl) v0) as (c & s & Hhead & Hc).
    destruct (opens_value_not c Hc) as (_ & Hclose & _).
    pose proof (scan_items_encode vs (Forall_inv_tail IHl) v0 [] fuel (S lvl) lvl rest
                  (Forall_inv IHl) Hwf Hfuel) as Hitems.
    rewrite Hhead in *. cbn [String.append] in *. rewrite Hclose. exact Hitems.
  - rewrite need_dict in Hfuel. rewrite readable_dict in Hwf.
    apply andb_prop in Hwf. destruct Hwf as [Hkeys Hwf].
    destruct fuel as [| fuel]; [lia |]. apply le_S_n in Hfuel.
    destruct kvs as [| [k0 v0] kvs]; [reflexivity |].
    rewrite encode_dict, scan_once_dict, skip_ws_newline_indent, encode_str_tail.
    rewrite skip_ws_keep by reflexivity.
    cbn -[newline_indent encode scan_pairs skip_ws pairs_text String.append dict_of].
    rewrite (scan_pairs_encode kvs (Forall_inv_tail IHkvs) k0 v0 [] fuel (S lvl) lvl rest
               (Forall_inv IHkvs) Hwf Hfuel).
    cbn [app]. now rewrite dict_of_distinct.
Qed.

Lemma length_append (a b : string) :
  String.length (a ++ b) = (String.length a + String.length b)%nat.
Proof. induction a as [| c a IH]; [reflexivity | cbn; now rewrite IH]. Qed.

Lemma length_newline_indent (lvl : nat) : (1 <= String.length (newline_indent lvl))%nat.
Proof. unfold newline_indent. cbn [String.length]. lia. Qed.

Lemma need_items_le_length (lvl : nat) (vs : list pyval) (tail : string) :
  Forall (fun v => forall lvl, (need v <= String.length (encode lvl v))%nat) vs ->
  (need_items vs <= String.length (items_text lvl vs tail))%nat.
Proof.
  induction 1 as [| v vs Hv _ IH]; [cbn; lia |].
  rewrite items_text_cons. cbn [need_items fold_right String.length].
  fold (need_items vs). rewrite !length_append.
  specialize (Hv lvl). pose proof (length_newline_indent lvl). lia.
Qed.

Lemma need_pairs_le_length (lvl : nat) (kvs : list (string * pyval)) (tail : string) :
  Forall (fun kv => forall lvl, (need (snd kv) <= String.length (encode lvl (snd kv)))%nat) kvs ->
  (need_pairs kvs <= String.length (pairs_text lvl kvs tail))%nat.
Proof.
  induction 1 as [| [k v] kvs Hv _ IH]; [cbn; lia |].
  rewrite pairs_text_cons. cbn [need_pairs fold_right String.length snd].
  fold (need_pairs kvs). rewrite !length_append. cbn [String.length].
  rewrite length_append.
  cbn [snd] in Hv. specialize (Hv lvl). pose proof (length_newline_indent lvl). lia.
Qed.

(** The fuel a value needs is at most the length of its text. *)
Lemma need_le_length (v : pyval) :
  forall lvl, (need v <= String.length (encode lvl v))%nat.
Proof.
  induction v as [| b | z | f | s | l IHl | kvs IHkvs] using pyval_induction; intros lvl.
  - cbn. lia.
  - destruct b; cbn; lia.
  - cbn [encode need]. destruct (encode_int_head z) as (c & s & -> & _). cbn. lia.
  - cbn [encode need]. destruct (float_repr_head f) as (c & s & -> & _). cbn. lia.
  - cbn. lia.
  - destruct l as [| v0 vs]; [cbn; lia |].
    rewrite need_list. rewrite <- (append_nil_r (encode lvl (PList (v0 :: vs)))).
    rewrite encode_list. cbn [String.length need_items fold_right].
    fold (need_items vs). rewrite !length_append.
    pose proof (Forall_inv IHl (S lvl)) as Hv0.
    pose proof (need_items_le_length (S lvl) vs
                  (newline_indent lvl ++ String "]" EmptyString) (Forall_inv_tail IHl)).
    pose proof (length_newline_indent (S lvl)). lia.
  - destruct kvs as [| [k0 v0] kvs]; [cbn; lia |].
    rewrite need_dict. rewrite <- (append_nil_r (encode lvl (PDict ((k0, v0) :: kvs)))).
    rewrite encode_dict. cbn [String.length need_pairs fold_right snd].
    fold (need_pairs kvs). rewrite !length_append. cbn [String.length].
    rewrite length_append.
    pose proof (Forall_inv IHkvs (S lvl)) as Hv0. cbn [snd] in Hv0.
    pose proof (need_pairs_le_length (S lvl) kvs
                  (newline_indent lvl ++ String "}" EmptyString) (Forall_inv_tail IHkvs)).
    pose proof (length_newline_indent (S lvl)). lia.
Qed.

(** A value is readable when its dicts have distinct keys, its ints can be
    written and its floats read back. *)
Lemma readable_parts (v : pyval) :
  readable v = well_formed v && writable v && floats_read_back v.
Proof.
  induction v as [| b | z | f | s | l IHl | kvs IHkvs] using pyval_induction;
    try reflexivity.
  - cbn [readable well_formed writable floats_read_back].
    now destruct (Z.abs z <? int_limit).
  - cbn [readable well_formed writable floats_read_back].
    induction IHl as [| v vs Hv _ IH]; [reflexivity |].
    cbn [forallb]. rewrite Hv, IH.
    destruct (well_formed v), (writable v), (floats_read_back v),
      (forallb well_formed vs), (forallb writable vs); reflexivity.
  - rewrite readable_dict, well_formed_dict, writable_dict, floats_read_back_dict.
    destruct (distinct (map fst kvs)); [| reflexivity]. cbn [andb].
    induction IHkvs as [| [k v] kvs Hv _ IH]; [reflexivity |].
    cbn [forallb snd] in *. rewrite Hv, IH.
    destruct (well_formed v), (writable v), (floats_read_back v),
      (forallb (fun kv => well_formed (snd kv)) kvs),
      (forallb (fun kv => writable (snd kv)) kvs); reflexivity.
Qed.

Lemma readable_writable (v : pyval) : readable v = true -> writable v = true.
Proof.
  rewrite readable_parts. intros Hr.
  apply andb_prop in Hr. destruct Hr as [Hr _].
  apply andb_prop in Hr. now destruct Hr.
Qed.

(** [dumps] writes every readable value, and [loads] gives it back. *)
Theorem loads_dumps (v : pyval) :
  readable v = true ->
  exists text, dumps v = Returns text /\ loads text = Returns v.
Proof.
  intros Hr. exists (encode 0 v). split.
  - unfold dumps. now rewrite (readable_writable v Hr).
  - unfold loads.
    rewrite <- (append_nil_r (encode 0 v)) at 2.
    rewrite skip_ws_encode.
    rewrite (scan_once_encode v Hr) by
      (try reflexivity; rewrite ?append_nil_r; pose proof (need_le_length v 0); lia).
    reflexivity.
Qed.

End PyJsonFacts.


(** * The rest of the program *)

(** ** Leaving a chapter *)

Section MoreEngineFacts.

Context `{Json}.

(** [json.dumps] can write what [stop] leaves in a save dict that it could
    write before. *)
Lemma stopped_items_writable (c : chapter_scene) (items pos : list (string * pyval)) :
  writable (PDict items) = true ->
  dict_get "player" items = Some (PDict pos) ->
  writable (chapter_no c) = true ->
  pg.fits (player c) ->
  writable (PDict (stopped_items c items pos)) = true.
Proof.
  intros Hitems Hplayer Hno [Hx Hy]. unfold stopped_items.
  pose proof (writable_dict_get "player" items (PDict pos) Hitems Hplayer) as Hpos.
  pose proof (writable_int32 _ Hx) as Hwx. pose proof (writable_int32 _ Hy) as Hwy.
  repeat (apply writable_dict_set; try assumption).
Qed.

(** What a chapter scene's [stop] does to a save dict it can write into, on a
    disk that works, when [json.dumps] writes the dict. *)
Lemma ChapterScene_stop_saveable (c : chapter_scene) (st : state)
      (items pos : list (string * pyval)) (text : string) :
  save (game st) = PDict items ->
  dict_get "player" items = Some (PDict pos) ->
  write_fault (os st) = None ->
  json_dumps (PDict (stopped_items c items pos)) = Returns text ->
  ChapterScene_stop c st =
    (Returns tt,
     {| game := {| save := PDict (stopped_items c items pos);
                   scene := scene (game st) |};
        os := {| save_file := Text text;
                 write_fault := None;
                 stdout := stdout (os st) |};
        calls := calls st |}).
Proof.
  intros Hsave Hplayer Hdisk Hdumps. unfold stopped_items in *.
  unfold ChapterScene_stop, bind, lift, get_save, set_save, in_world. simpl.
  rewrite Hsave. simpl.
  unfold setitem_in. simpl.
  rewrite (dict_get_set_other "chapter" "player") by discriminate.
  rewrite Hplayer. simpl.
  rewrite dict_get_set_same. simpl.
  unfold write_save, Path_write_text. simpl. rewrite Hdumps, Hdisk. reflexivity.
Qed.

Lemma update_escape (st : state) (c : chapter_scene) (dt : Z) (keys : pg.keys) :
  scene (game st) = Chapter c ->
  pg.K_ESCAPE keys = true ->
  scene_update dt keys st = change_scene (Title {| timer := None |}) st.
Proof.
  intros Hs Hesc. unfold scene_update. rewrite Hs.
  unfold ChapterScene_update. now rewrite Hesc.
Qed.

(** Going back to the title from a chapter scene whose save dict can be
    written into, on a disk that works. *)
Lemma change_scene_to_title (st : state) (c : chapter_scene)
      (items pos : list (string * pyval)) (text : string) :
  scene (game st) = Chapter c ->
  save (game st) = PDict items ->
  dict_get "player" items = Some (PDict pos) ->
  write_fault (os st) = None ->
  json_dumps (PDict (stopped_items c items pos)) = Returns text ->
  change_scene (Title {| timer := None |}) st =
    (Returns tt,
     {| game := {| save := PDict (stopped_items c items pos);
                   scene := Title {| timer := Some 0 |} |};
        os := {| save_file := Text text;
                 write_fault := None;
                 stdout := stdout (os st) |};
        calls := calls st ++ [CallChangeScene (Title {| timer := None |});
                              CallStop (Chapter c);
                              CallStart (Title {| timer := None |})] |}).
Proof.
  intros Hs Hsave Hplayer Hdisk Hdumps.
  erewrite change_scene_after_stop.
  2: { unfold scene_stop, bind at 1, log at 1. simpl. rewrite Hs.
       match goal with
       | |- ChapterScene_stop c ?s = _ =>
           exact (ChapterScene_stop_saveable c s items pos text
                    Hsave Hplayer Hdisk Hdumps)
       end. }
  unfold scene_start, bind, log, TitleScene_start, set_scene. simpl.
  rewrite <- !app_assoc. reflexivity.
Qed.

Lemma dict_get_after_stop (k : string) (cn : pyval)
      (items pos1 pos2 : list (string * pyval)) :
  k <> "player" ->
  dict_get k (dict_set "player" (PDict pos2)
                (dict_set "player" (PDict pos1) (dict_set "chapter" cn items)))
  = dict_get k (dict_set "chapter" cn items).
Proof.
  intros Hk. now rewrite !dict_get_set_other by exact Hk.
Qed.

(** What the save dict holds after [stop]. *)
Lemma stopped_items_hold (c : chapter_scene) (items pos : list (string * pyval)) :
  getitem (PDict (stopped_items c items pos)) "chapter" = Returns (chapter_no c)
  /\ (exists pos',
        getitem (PDict (stopped_items c items pos)) "player" = Returns pos'
        /\ getitem pos' "x" = Returns (PInt (pg.x (player c)))
        /\ getitem pos' "y" = Returns (PInt (pg.y (player c))))
  /\ saveable (PDict (stopped_items c items pos)).
Proof.
  unfold stopped_items. split; [| split].
  - cbn [getitem]. rewrite dict_get_after_stop by discriminate.
    now rewrite dict_get_set_same.
  - eexists. cbn [getitem]. rewrite dict_get_set_same. split; [reflexivity |].
    cbn [getitem]. rewrite dict_get_set_same.
    rewrite (dict_get_set_other "y" "x") by discriminate.
    now rewrite dict_get_set_same.
  - eexists _, _. split; [reflexivity |]. apply dict_get_set_same.
Qed.

(** The invariant of play: one update keeps a game in its chapter, and
    returns. *)
Lemma playing_update (ch : Z) (st : state) (dt : Z) (keys : pg.keys) :
  playing ch st ->
  exists st', scene_update dt keys st = (Returns tt, st') /\ playing ch st'.
Proof.
  intros (Hch & (items & pos & Hsave & Hplayer) & Hwr & Hdisk & Hscene).
  destruct (scene (game st)) as [[[n |]] | c] eqn:Hs.
  - destruct (Z.le_gt_cases (n + dt) 2000) as [Hle | Hgt].
    + rewrite (title_update_below st n dt keys Hs Hle). eexists. split; [reflexivity |].
      unfold playing, with_scene. simpl.
      split; [exact Hch |]. split; [now exists items, pos |].
      split; [exact Hwr |]. split; [exact Hdisk |]. now exists (n + dt).
    + rewrite (title_update_above st n dt ch keys Hs Hgt Hch).
      eexists. split; [reflexivity |].
      unfold playing. simpl.
      split; [exact Hch |]. split; [now exists items, pos |].
      split; [exact Hwr |]. split; [exact Hdisk |].
      repeat split; unfold INT_MIN, INT_MAX; simpl; lia.
  - destruct Hscene as [n Hn]. discriminate.
  - destruct Hscene as (Hno & Hcls & Hsp & Hcol & Hfits).
    destruct (pg.K_ESCAPE keys) eqn:Hesc.
    + rewrite Hsave in Hwr, Hch.
      assert (Hwno : writable (chapter_no c) = true).
      { rewrite Hno. cbn [getitem] in Hch.
        destruct (dict_get "chapter" items) as [v |] eqn:Hget; [| discriminate].
        injection Hch as ->. exact (writable_dict_get _ _ _ Hwr Hget). }
      pose proof (stopped_items_writable c items pos Hwr Hplayer Hwno Hfits) as Hwr'.
      destruct (json_dumps_writable _ Hwr') as [text Hdumps].
      rewrite (update_escape st c dt keys Hs Hesc).
      rewrite (change_scene_to_title st c items pos text Hs Hsave Hplayer Hdisk Hdumps).
      eexists. split; [reflexivity |].
      destruct (stopped_items_hold c items pos) as (Hc' & _ & Hsv').
      unfold playing. simpl.
      split; [now rewrite <- Hno |]. split; [exact Hsv' |].
      split; [exact Hwr' |]. split; [reflexivity |]. now exists 0.
    + rewrite (chapter_update_plain st c dt keys Hs Hesc).
      eexists. split; [reflexivity |].
      unfold playing, with_scene. simpl.
      split; [exact Hch |]. split; [now exists items, pos |].
      split; [exact Hwr |]. split; [exact Hdisk |].
      repeat split; try assumption; apply wrap32_fits.
Qed.

Lemma playing_run (ch : Z) (frames : list (Z * pg.keys)) :
  forall st : state,
    playing ch st ->
    exists st', run frames st = (Returns tt, st') /\ playing ch st'.
Proof.
  induction frames as [| [dt keys] rest IH]; intros st Hp.
  - exists st. split; [reflexivity | exact Hp].
  - destruct (playing_update ch st dt keys Hp) as (st1 & Hup & Hp1).
    destruct (IH st1 Hp1) as (st' & Hrun & Hp').
    exists st'. split; [| exact Hp']. simpl. unfold bind. now rewrite Hup.
Qed.

Lemma playing_init (ch : Z) (save_data : pyval) (w : world) :
  getitem save_data "chapter" = Returns (PInt ch) ->
  saveable save_data ->
  writable save_data = true ->
  write_fault w = None ->
  exists st, DeltaGame_init save_data w = (Returns tt, st) /\ playing ch st.
Proof.
  intros Hch Hsv Hwr Hdisk. rewrite DeltaGame_init_returns.
  eexists. split; [reflexivity |].
  unfold playing. simpl. repeat split; try assumption. now exists 0.
Qed.



(** An update in which the title scene is active, or ESCAPE is up, leaves
    the save dict and the world alone, whether it returns or raises. *)
Lemma update_without_escape (st : state) (dt : Z) (keys : pg.keys) :
  pg.K_ESCAPE keys = false ->
  save (game (snd (scene_update dt keys st))) = save (game st)
  /\ os (snd (scene_update dt keys st)) = os st.
Proof.
  intros Hesc. unfold scene_update.
  destruct (scene (game st)) as [[[t |]] | c] eqn:Hs.
  - unfold TitleScene_update, bind, set_scene, get_save, lift. simpl.
    destruct (2000 <? t + dt); [| now split]. simpl.
    destruct (getitem (save (game st)) "chapter") as [v | e]; [| now split].
    destruct (ChapterScene_make v) as [c | e]; [| now split].
    erewrite change_scene_after_stop by (apply scene_stop_title; reflexivity).
    match goal with
    | |- context [scene_start ?st1] =>
        destruct (scene_start_frame st1) as [Hsave Hos]
    end.
    rewrite Hsave, Hos. now split.
  - now split.
  - unfold ChapterScene_update. rewrite Hesc. now split.
Qed.

(** One turn of the loop. *)
Lemma DeltaGame_run_cons (dt : Z) (events : list event) (keys : pg.keys)
      (rest : list (Z * list event * pg.keys)) (st : state) :
  DeltaGame_run ((dt, events, keys) :: rest) st =
    match scene_update dt keys st with
    | (Returns _, st1) =>
        match scene_draw (scene (game st1)) with
        | Returns drawn =>
            if quit_requested events then (Returns [drawn], st1)
            else match DeltaGame_run rest st1 with
                 | (Returns later, st2) => (Returns (drawn :: later), st2)
                 | (Raises e, st2) => (Raises e, st2)
                 end
        | Raises e => (Raises e, st1)
        end
    | (Raises e, st1) => (Raises e, st1)
    end.
Proof.
  cbn [DeltaGame_run]. unfold bind, ret.
  destruct (scene_update dt keys st) as [[[] | e] st1]; [| reflexivity].
  destruct (scene_draw (scene (game st1))) as [drawn | e]; [| reflexivity].
  destruct (quit_requested events); [reflexivity |].
  destruct (DeltaGame_run rest st1) as [[later | e] st2]; reflexivity.
Qed.

(** X3. Over frames in which ESCAPE is never down the loop writes nothing: the
    save dict, the save file and what was printed are at the end as they
    were at the start, whether the loop ran out of frames, met QUIT or
    raised. Entering a chapter from the title, moving the player and closing
    the window save nothing. *)
Theorem nothing_is_saved_without_escape
    (frames : list (Z * list event * pg.keys)) (st : state) :
  escape_free (without_events frames) ->
  save (game (snd (DeltaGame_run frames st))) = save (game st)
  /\ os (snd (DeltaGame_run frames st)) = os st.
Proof.
  revert st.
  induction frames as [| [[dt events] keys] rest IH]; intros st Hfree.
  - now split.
  - inversion Hfree as [| f fs Hesc Hrest]; subst. simpl in Hesc.
    destruct (update_without_escape st dt keys Hesc) as [Hsave Hos].
    rewrite DeltaGame_run_cons.
    destruct (scene_update dt keys st) as [[[] | e] st1]; simpl in Hsave, Hos;
      [| simpl; split; assumption].
    destruct (scene_draw (scene (game st1))) as [drawn | e];
      [| simpl; split; assumption].
    destruct (quit_requested events); [simpl; split; assumption |].
    destruct (IH st1 Hrest) as [Hsave' Hos'].
    destruct (DeltaGame_run rest st1) as [[later | e] st2]; simpl in *;
      split; congruence.
Qed.


Lemma ChapterScene_stop_fault (c : chapter_scene) (st : state)
      (items pos : list (string * pyval)) (text : string)
      (e : exn) (rest : file_state) :
  save (game st) = PDict items ->
  dict_get "player" items = Some (PDict pos) ->
  write_fault (os st) = Some (e, rest) ->
  json_dumps (PDict (stopped_items c items pos)) = Returns text ->
  ChapterScene_stop c st =
    (Raises e,
     {| game := {| save := PDict (stopped_items c items pos);
                   scene := scene (game st) |};
        os := {| save_file := rest;
                 write_fault := Some (e, rest);
                 stdout := stdout (os st) |};
        calls := calls st |}).
Proof.
  intros Hsave Hplayer Hdisk Hdumps. unfold stopped_items in *.
  unfold ChapterScene_stop, bind, lift, get_save, set_save, in_world. simpl.
  rewrite Hsave. simpl.
  unfold setitem_in. simpl.
  rewrite (dict_get_set_other "chapter" "player") by discriminate.
  rewrite Hplayer. simpl.
  rewrite dict_get_set_same. simpl.
  unfold write_save, Path_write_text. simpl. rewrite Hdumps, Hdisk. reflexivity.
Qed.


(** X5. A save dict without a [player] entry makes ESCAPE raise [KeyError]: the
    chapter number has been put into the dict by then, nothing is written to
    the file, and the chapter scene stays the active one. *)
Theorem stop_without_player_raises
    (st : state) (c : chapter_scene) (dt : Z) (keys : pg.keys)
    (items : list (string * pyval)) :
  scene (game st) = Chapter c ->
  save (game st) = PDict items ->
  dict_get "player" items = None ->
  pg.K_ESCAPE keys = true ->
  exists st',
    scene_update dt keys st = (Raises (KeyError "player"), st')
    /\ save (game st') = PDict (dict_set "chapter" (chapter_no c) items)
    /\ os st' = os st
    /\ scene (game st') = Chapter c.
Proof.
  intros Hs Hsave Hplayer Hesc.
  rewrite (update_escape st c dt keys Hs Hesc).
  erewrite change_scene_stop_raises.
  2: { unfold scene_stop, bind at 1, log at 1. simpl. rewrite Hs.
       unfold ChapterScene_stop, bind, lift, get_save, set_save, in_world. simpl.
       rewrite Hsave. simpl. unfold setitem_in. simpl.
       rewrite (dict_get_set_other "chapter" "player") by discriminate.
       rewrite Hplayer. reflexivity. }
  eexists. split; [reflexivity |]. simpl. repeat split. exact Hs.
Qed.


(** ** Movement *)

Lemma frame_times_quantized : forallb quantized frame_times = true.
Proof. vm_compute. reflexivity. Qed.

Lemma In_frame_times (dt : Z) : 0 <= dt <= 10000 -> In dt frame_times.
Proof.
  intros Hdt. unfold frame_times. apply in_map_iff.
  exists (Z.to_nat dt). split; [lia |]. apply in_seq. lia.
Qed.

Lemma pixels_step (minus plus : bool) (dt : Z) :
  0 <= dt <= 10000 -> pixels minus plus dt = step minus plus dt.
Proof.
  intros Hdt.
  pose proof (proj1 (forallb_forall quantized frame_times)
                frame_times_quantized dt (In_frame_times dt Hdt)) as Hq.
  unfold quantized in Hq.
  apply andb_true_iff in Hq. destruct Hq as [Hq Hboth].
  apply andb_true_iff in Hq. destruct Hq as [Hplus Hminus].
  apply Z.eqb_eq in Hplus, Hminus, Hboth.
  unfold step. destruct minus, plus; simpl Z.b2z.
  - rewrite Hboth. lia.
  - rewrite Hminus. lia.
  - rewrite Hplus. lia.
  - unfold pixels. rewrite axis_idle. lia.
Qed.

Lemma wrap32_add_l (a b : Z) : wrap32 (wrap32 a + b) = wrap32 (a + b).
Proof.
  unfold wrap32. f_equal.
  replace ((a + 2 ^ 31) mod 2 ^ 32 - 2 ^ 31 + b + 2 ^ 31)
    with ((a + 2 ^ 31) mod 2 ^ 32 + b) by lia.
  rewrite Z.add_mod_idemp_l by (change (2 ^ 32) with 4294967296; lia).
  f_equal. lia.
Qed.

Lemma with_scene_with_scene (s s' : Scene) (st : state) :
  with_scene s' (with_scene s st) = with_scene s' st.
Proof. reflexivity. Qed.

Lemma with_scene_same (st : state) : with_scene (scene (game st)) st = st.
Proof. now destruct st as [[sv sc] w cs]. Qed.

Lemma placed_placed (c : chapter_scene) (px py px' py' : Z) :
  placed (placed c px py) px' py' = placed c px' py'.
Proof. reflexivity. Qed.

Lemma placed_same (c : chapter_scene) :
  placed c (pg.x (player c)) (pg.y (player c)) = c.
Proof. now destruct c as [cls no [px py pw ph] sp col]. Qed.

Lemma chapter_update_step (st : state) (c : chapter_scene) (dt : Z) (keys : pg.keys) :
  scene (game st) = Chapter c ->
  speed c = 120 ->
  pg.K_ESCAPE keys = false ->
  0 <= dt <= 10000 ->
  scene_update dt keys st =
    (Returns tt,
     with_scene
       (Chapter
          (placed c
             (wrap32 (pg.x (player c) + step (pg.K_a keys) (pg.K_d keys) dt))
             (wrap32 (pg.y (player c) + step (pg.K_w keys) (pg.K_s keys) dt))))
       st).
Proof.
  intros Hs Hsp Hesc Hdt.
  rewrite (chapter_update_plain st c dt keys Hs Hesc).
  unfold pg.move_ip, placed. rewrite Hsp.
  change (pg.IntFromObj (axis (pg.K_a keys) (pg.K_d keys) 120 dt))
    with (pixels (pg.K_a keys) (pg.K_d keys) dt).
  change (pg.IntFromObj (axis (pg.K_w keys) (pg.K_s keys) 120 dt))
    with (pixels (pg.K_w keys) (pg.K_s keys) dt).
  rewrite !pixels_step by exact Hdt. now rewrite <- Hsp.
Qed.

(** X6. One update of a chapter scene at the speed 120 of every chapter
    scene, ESCAPE up, the frame time up to 10 seconds: the player moves
    along each axis by the whole pixels of 120 * dt / 1000, the fraction
    dropped, towards the key that is down, and not at all when both keys of
    the axis or neither are down; the axes do not affect each other, and
    nothing else changes. The sums are those of the C [int]s of the Rect:
    inside their range the new coordinate is the old one plus the step,
    past it the sum wraps. *)
Theorem keys_move_by_whole_pixels
    (st : state) (c : chapter_scene) (dt : Z) (keys : pg.keys) :
  scene (game st) = Chapter c ->
  speed c = 120 ->
  pg.K_ESCAPE keys = false ->
  0 <= dt <= 10000 ->
  let dx := (Z.b2z (pg.K_d keys) - Z.b2z (pg.K_a keys)) * (120 * dt / 1000) in
  let dy := (Z.b2z (pg.K_s keys) - Z.b2z (pg.K_w keys)) * (120 * dt / 1000) in
  scene_update dt keys st =
    (Returns tt,
     with_scene
       (Chapter (placed c (wrap32 (pg.x (player c) + dx))
                          (wrap32 (pg.y (player c) + dy)))) st)
  /\ (INT_MIN <= pg.x (player c) + dx <= INT_MAX ->
      INT_MIN <= pg.y (player c) + dy <= INT_MAX ->
      scene_update dt keys st =
        (Returns tt, with_scene (Chapter (moved_by c dx dy)) st)).
Proof.
  intros Hs Hsp Hesc Hdt dx dy.
  pose proof (chapter_update_step st c dt keys Hs Hsp Hesc Hdt) as Hup.
  fold (step (pg.K_a keys) (pg.K_d keys) dt) in dx.
  fold (step (pg.K_w keys) (pg.K_s keys) dt) in dy.
  split; [exact Hup |].
  intros Hx Hy. rewrite Hup. unfold placed, moved_by.
  now rewrite !wrap32_small by assumption.
Qed.

(** X7. As long as ESCAPE is up, a chapter scene only walks: after any number
    of frames the player is where it was plus the whole pixels of every
    frame added up, however far that is from the window of 600 by 400; its
    size, the chapter number, the class and the colour are as before, and so
    are the save dict and the world. Nothing keeps the player inside the
    window: the only limit is that of the C [int]s of the Rect, where the
    sum wraps. *)
Theorem walking_is_never_clamped
    (frames : list (Z * pg.keys)) (st : state) (c : chapter_scene) :
  scene (game st) = Chapter c ->
  speed c = 120 ->
  pg.fits (player c) ->
  escape_free frames ->
  short_frames frames ->
  run frames st =
    (Returns tt,
     with_scene
       (Chapter (placed c (wrap32 (pg.x (player c) + fst (walked frames)))
                          (wrap32 (pg.y (player c) + snd (walked frames))))) st).
Proof.
  revert st c.
  induction frames as [| [dt keys] rest IH]; intros st c Hs Hsp Hfits Hfree Hshort.
  - destruct Hfits as [Hx Hy]. simpl. rewrite !Z.add_0_r.
    rewrite !wrap32_small by assumption.
    rewrite placed_same, <- Hs, with_scene_same. reflexivity.
  - inversion Hfree as [| f fs Hesc Hfree']; subst.
    inversion Hshort as [| f fs Hdt Hshort']; subst.
    simpl in Hesc, Hdt. cbn [run]. unfold bind.
    rewrite (chapter_update_step st c dt keys Hs Hsp Hesc Hdt).
    match goal with
    | |- run rest (with_scene (Chapter ?c1) st) = _ =>
        rewrite (IH (with_scene (Chapter c1) st) c1 eq_refl Hsp
                   (conj (wrap32_fits _) (wrap32_fits _)) Hfree' Hshort')
    end.
    rewrite with_scene_with_scene, placed_placed. cbn [placed player pg.x pg.y].
    rewrite !wrap32_add_l. cbn [walked fold_right fst snd].
    fold (walked rest). now rewrite !Z.add_assoc.
Qed.

(** ** The whole loop *)

Lemma pg_color_in_range (ch : Z) :
  0 <= ch <= 4 ->
  pg_color (PInt (50 * ch), PInt (20 * ch), PInt (60 * ch))
  = Returns (50 * ch, 20 * ch, 60 * ch).
Proof.
  intros Hch. unfold pg_color, color_component.
  change (2 ^ 32) with 4294967296.
  rewrite !Z.mod_small by lia.
  rewrite !(proj2 (Z.leb_le _ _)) by lia. reflexivity.
Qed.

(** A chapter whose colour pygame refuses: the blue component, 60 times the
    chapter, is above 255 when cut to 32 bits. *)
Lemma pg_color_out_of_range (ch : Z) :
  4 < ch <= 71582788 \/ -71582784 <= ch < 0 ->
  pg_color (PInt (50 * ch), PInt (20 * ch), PInt (60 * ch))
  = Raises (ValueError "invalid color argument").
Proof.
  intros Hch. unfold pg_color, color_component.
  assert (Hblue : ((60 * ch) mod 2 ^ 32 <=? 255) = false).
  { apply Z.leb_gt. change (2 ^ 32) with 4294967296.
    destruct Hch as [Hpos | Hneg].
    - rewrite Z.mod_small by lia. lia.
    - replace (60 * ch) with (60 * ch + 4294967296 + (-1) * 4294967296) by lia.
      rewrite Z.mod_add by lia. rewrite Z.mod_small by lia. lia. }
  rewrite Hblue.
  destruct ((50 * ch) mod 2 ^ 32 <=? 255); destruct ((20 * ch) mod 2 ^ 32 <=? 255);
    reflexivity.
Qed.

Lemma scene_draw_playing (ch : Z) (st : state) :
  playing ch st ->
  0 <= ch <= 4 ->
  exists drawn, scene_draw (scene (game st)) = Returns drawn /\ is_screen ch drawn.
Proof.
  intros (_ & _ & _ & _ & Hscene) Hch.
  destruct (scene (game st)) as [t | c].
  - exists title_screen. split; [reflexivity | now left].
  - destruct Hscene as (Hno & _ & _ & Hcol & _).
    exists (chapter_screen ch (player c)). split; [| right; now exists (player c)].
    unfold scene_draw, ChapterScene_draw. rewrite Hcol, pg_color_in_range by exact Hch.
    now rewrite Hno.
Qed.

Lemma playing_DeltaGame_run (ch : Z) (frames : list (Z * list event * pg.keys)) :
  forall st : state,
    playing ch st ->
    0 <= ch <= 4 ->
    exists drawn st',
      DeltaGame_run frames st = (Returns drawn, st')
      /\ playing ch st'
      /\ Forall (is_screen ch) drawn
      /\ (List.length drawn <= List.length frames)%nat
      /\ (no_quit frames -> List.length drawn = List.length frames).
Proof.
  induction frames as [| [[dt events] keys] rest IH]; intros st Hp Hch.
  - exists [], st. split; [reflexivity |]. split; [exact Hp |].
    split; [constructor |]. split; [simpl; lia | reflexivity].
  - rewrite DeltaGame_run_cons.
    destruct (playing_update ch st dt keys Hp) as (st1 & -> & Hp1).
    destruct (scene_draw_playing ch st1 Hp1 Hch) as (d & -> & Hd).
    destruct (quit_requested events) eqn:Hq.
    + exists [d], st1. split; [reflexivity |]. split; [exact Hp1 |].
      split; [now constructor |]. split; [simpl; lia |].
      intros Hnq. inversion Hnq as [| f fs Hf _]; subst. simpl in Hf. congruence.
    + destruct (IH st1 Hp1 Hch) as (later & st' & -> & Hp' & Hall & Hlen & Hfull).
      exists (d :: later), st'. split; [reflexivity |]. split; [exact Hp' |].
      split; [now constructor |]. split; [simpl; lia |].
      intros Hnq. inversion Hnq as [| f fs _ Hrest]; subst.
      simpl. now rewrite (Hfull Hrest).
Qed.


Lemma DeltaGame_run_app (frames frames' : list (Z * list event * pg.keys)) :
  forall st : state,
    no_quit frames ->
    DeltaGame_run (frames ++ frames') st =
      match DeltaGame_run frames st with
      | (Returns drawn, st1) =>
          match DeltaGame_run frames' st1 with
          | (Returns later, st2) => (Returns (drawn ++ later), st2)
          | (Raises e, st2) => (Raises e, st2)
          end
      | (Raises e, st1) => (Raises e, st1)
      end.
Proof.
  induction frames as [| [[dt events] keys] rest IH]; intros st Hnq.
  - simpl. unfold ret. now destruct (DeltaGame_run frames' st) as [[later | e] st2].
  - inversion Hnq as [| f fs Hq Hrest]; subst. simpl in Hq.
    rewrite <- app_comm_cons, !DeltaGame_run_cons, Hq.
    destruct (scene_update dt keys st) as [[[] | e] st1]; [| reflexivity].
    destruct (scene_draw (scene (game st1))) as [d | e]; [| reflexivity].
    rewrite (IH st1 Hrest).
    destruct (DeltaGame_run rest st1) as [[drawn | e] st2]; [| reflexivity].
    destruct (DeltaGame_run frames' st2) as [[later | e] st3]; reflexivity.
Qed.

(** The title phase of the whole loop: as long as the timer stays at or
    below 2000 the title is drawn and nothing else happens, whatever the
    save dict holds. *)
Lemma DeltaGame_run_title_phase (frames : list (Z * list event * pg.keys)) :
  forall (st : state) (t : Z),
    scene (game st) = Title {| timer := Some t |} ->
    time_passes (without_events frames) ->
    no_quit frames ->
    t + total_dt (without_events frames) <= 2000 ->
    DeltaGame_run frames st =
      (Returns (repeat title_screen (List.length frames)),
       with_scene (Title {| timer := Some (t + total_dt (without_events frames)) |}) st).
Proof.
  induction frames as [| [[dt events] keys] rest IH]; intros st t Hs Htime Hnq Hle.
  - simpl. rewrite Z.add_0_r, <- Hs, with_scene_same. reflexivity.
  - inversion Htime as [| f fs Hdt Hrest]; subst.
    inversion Hnq as [| f fs Hq Hnq']; subst. simpl in Hdt, Hq.
    assert (Hnn : 0 <= total_dt (without_events rest)).
    { clear - Hrest. induction Hrest as [| f fs Hf _ IHf]; simpl; lia. }
    simpl total_dt in *.
    rewrite DeltaGame_run_cons.
    rewrite (title_update_below st t dt keys Hs) by lia.
    cbn [scene game with_scene scene_draw TitleScene_draw]. rewrite Hq.
    rewrite (IH (with_scene (Title {| timer := Some (t + dt) |}) st) (t + dt)
               eq_refl Hrest Hnq') by lia.
    rewrite with_scene_with_scene, Z.add_assoc. reflexivity.
Qed.


(** The title update that carries the timer past 2000 ms: the timer is
    advanced, then the chapter is read from the save dict and its scene
    made and changed to. *)
Lemma title_update_past (st : state) (t dt : Z) (keys : pg.keys) :
  scene (game st) = Title {| timer := Some t |} ->
  2000 < t + dt ->
  scene_update dt keys st =
    (s <- get_save ;;
     saved_ch <- lift (getitem s "chapter") ;;
     new_scene <- lift (ChapterScene_make saved_ch) ;;
     change_scene (Chapter new_scene))
      (with_scene (Title {| timer := Some (t + dt) |}) st).
Proof.
  intros Hs Hgt. unfold scene_update. rewrite Hs.
  unfold TitleScene_update. cbn [timer].
  unfold bind at 1. unfold set_scene at 1.
  destruct (Z.ltb_spec 2000 (t + dt)); [reflexivity | lia].
Qed.

(** The loop up to and with the frame that carries the title timer past
    2000 ms. *)
Lemma DeltaGame_run_to_transition
      (frames : list (Z * list event * pg.keys))
      (dt : Z) (events : list event) (keys : pg.keys) (st : state) :
  scene (game st) = Title {| timer := Some 0 |} ->
  time_passes (without_events frames) ->
  no_quit frames ->
  total_dt (without_events frames) <= 2000 ->
  2000 < total_dt (without_events frames) + dt ->
  DeltaGame_run (frames ++ [(dt, events, keys)]) st =
    match scene_update dt keys
            (with_scene
               (Title {| timer := Some (total_dt (without_events frames)) |}) st) with
    | (Returns _, st1) =>
        match scene_draw (scene (game st1)) with
        | Returns drawn =>
            (Returns (repeat title_screen (List.length frames) ++ [drawn]), st1)
        | Raises e => (Raises e, st1)
        end
    | (Raises e, st1) => (Raises e, st1)
    end.
Proof.
  intros Hs Htime Hnq Hle Hgt.
  rewrite (DeltaGame_run_app frames _ st Hnq).
  rewrite (DeltaGame_run_title_phase frames st 0 Hs Htime Hnq) by lia.
  rewrite Z.add_0_l, DeltaGame_run_cons.
  destruct (scene_update dt keys _) as [[[] | e] st1]; [| reflexivity].
  destruct (scene_draw (scene (game st1))) as [d | e]; [| reflexivity].
  destruct (quit_requested events); reflexivity.
Qed.

(** X9. A save file that parses to a value from which no chapter can be read (a
    dict without the key, a list, a number) is returned by [load_save] as it
    is: its [try] covers the parsing only. Started with [--nosplash], the
    game then shows the title for two seconds, and the update that passes
    them raises what the look-up raises; the title scene is still the
    active one, and the file is untouched. The launcher raises the same as
    it formats its Play button, before its window is shown. *)
Theorem save_without_chapter_raises_after_two_seconds
    (w : world) (text : string) (data : pyval) (e : exn)
    (frames : list (Z * list event * pg.keys))
    (dt : Z) (events : list event) (keys : pg.keys) :
  save_file w = Text text ->
  json_loads text = Returns data ->
  getitem data "chapter" = Raises e ->
  time_passes (without_events frames) ->
  no_quit frames ->
  total_dt (without_events frames) <= 2000 ->
  2000 < total_dt (without_events frames) + dt ->
  (exists st,
     main_nosplash frames w
     = Launched (Returns (repeat title_screen (List.length frames))) st)
  /\ exists st',
       main_nosplash (frames ++ [(dt, events, keys)]) w = Launched (Raises e) st'
       /\ scene (game st')
          = Title {| timer := Some (total_dt (without_events frames) + dt) |}
       /\ save (game st') = data
       /\ os st' = w
       /\ run_launcher_open w
          = Launched (Raises e) {| shared_state := data; launcher_os := w |}.
Proof.
  intros Hfile Hloads Hch Htime Hnq Hle Hgt. unfold main_nosplash, run_launcher_open.
  rewrite (load_save_text w text Hfile), Hloads, DeltaGame_init_returns.
  split.
  - match goal with
    | |- context [DeltaGame_run frames ?st0] =>
        rewrite (DeltaGame_run_title_phase frames st0 0 eq_refl Htime Hnq) by lia
    end.
    eexists. reflexivity.
  - match goal with
    | |- context [DeltaGame_run _ ?st0] =>
        rewrite (DeltaGame_run_to_transition frames dt events keys st0 eq_refl
                   Htime Hnq Hle Hgt)
    end.
    match goal with
    | |- context [scene_update dt keys ?st1] =>
        rewrite (title_update_past st1 (total_dt (without_events frames)) dt keys
                   eq_refl Hgt)
    end.
    unfold bind, get_save, lift. cbn [with_scene save game]. rewrite Hch.
    cbn [fst snd]. eexists. split; [reflexivity |]. repeat split.
Qed.

(** X10. Play on a save dict whose chapter is [None] (a [null] in the file): the
    update that passes the two seconds of the title makes the template
    scene, installs it as the active scene and starts it, and the start
    raises [TypeError] on the colour. The save dict and the file are
    untouched; the scene left in the game has no colour. *)
Theorem null_chapter_leaves_an_unstarted_scene
    (l : launcher) (frames : list (Z * list event * pg.keys))
    (dt : Z) (events : list event) (keys : pg.keys) :
  getitem (shared_state l) "chapter" = Returns PNone ->
  time_passes (without_events frames) ->
  no_quit frames ->
  total_dt (without_events frames) <= 2000 ->
  2000 < total_dt (without_events frames) + dt ->
  exists st',
    launcher_play l (frames ++ [(dt, events, keys)])
    = (Raises (TypeError "unsupported operand type(s) for *: 'int' and 'NoneType'"),
       st')
    /\ scene (game st') = Chapter (ChapterScene_init ChapterScene PNone)
    /\ requested (calls st') = [Chapter (ChapterScene_init ChapterScene PNone)]
    /\ save (game st') = shared_state l
    /\ os st' = launcher_os l.
Proof.
  intros Hch Htime Hnq Hle Hgt. unfold launcher_play.
  rewrite DeltaGame_init_returns.
  match goal with
  | |- context [DeltaGame_run _ ?st0] =>
      rewrite (DeltaGame_run_to_transition frames dt events keys st0 eq_refl
                 Htime Hnq Hle Hgt)
  end.
  match goal with
  | |- context [scene_update dt keys ?st1] =>
      rewrite (title_update_past st1 (total_dt (without_events frames)) dt keys
                 eq_refl Hgt)
  end.
  unfold bind at 1, get_save at 1. cbn [with_scene save game].
  unfold bind at 1, lift at 1. rewrite Hch.
  unfold bind at 1, lift at 1. cbn [ChapterScene_make mapping_get].
  erewrite change_scene_after_stop by (apply scene_stop_title; reflexivity).
  eexists. split; [reflexivity |]. repeat split.
Qed.

(** X11. Play on a save dict whose chapter is an int from 5 to 71582788 or
    from -71582784 to -1: the scene of that chapter is made and started
    when the two seconds of the title have passed, and its first [draw]
    raises, because the blue component of its colour, 60 times the chapter,
    is above 255 also when pygame has cut it to 32 bits. The save dict and
    the file are untouched. (Further out a chapter may have a colour again:
    the components of chapter 2147483648 are multiples of 2^32.) *)
Theorem chapter_out_of_range_cannot_be_drawn
    (l : launcher) (ch : Z) (frames : list (Z * list event * pg.keys))
    (dt : Z) (events : list event) (keys : pg.keys) :
  getitem (shared_state l) "chapter" = Returns (PInt ch) ->
  4 < ch <= 71582788 \/ -71582784 <= ch < 0 ->
  time_passes (without_events frames) ->
  no_quit frames ->
  total_dt (without_events frames) <= 2000 ->
  2000 < total_dt (without_events frames) + dt ->
  exists e st',
    launcher_play l (frames ++ [(dt, events, keys)]) = (Raises e, st')
    /\ scene (game st') = Chapter (started_for ch)
    /\ save (game st') = shared_state l
    /\ os st' = launcher_os l.
Proof.
  intros Hch Hrange Htime Hnq Hle Hgt. unfold launcher_play.
  rewrite DeltaGame_init_returns.
  match goal with
  | |- context [DeltaGame_run _ ?st0] =>
      rewrite (DeltaGame_run_to_transition frames dt events keys st0 eq_refl
                 Htime Hnq Hle Hgt)
  end.
  match goal with
  | |- context [scene_update dt keys ?st1] =>
      rewrite (title_update_above st1 (total_dt (without_events frames)) dt ch keys
                 eq_refl Hgt Hch)
  end.
  cbn [scene game scene_draw ChapterScene_draw started_for with_color world_color].
  rewrite (pg_color_out_of_range ch Hrange).
  eexists _, _. split; [reflexivity |]. repeat split.
Qed.

(** ** QUIT *)

Lemma DeltaGame_run_quit (frames : list (Z * list event * pg.keys))
      (dt : Z) (events : list event) (keys : pg.keys)
      (rest : list (Z * list event * pg.keys)) :
  quit_requested events = true ->
  forall st : state,
    DeltaGame_run (frames ++ (dt, events, keys) :: rest) st
    = DeltaGame_run (frames ++ [(dt, events, keys)]) st.
Proof.
  intros Hq. induction frames as [| [[dt0 events0] keys0] more IH]; intros st.
  - simpl app. rewrite !DeltaGame_run_cons, Hq. reflexivity.
  - rewrite <- !app_comm_cons, !DeltaGame_run_cons.
    destruct (scene_update dt0 keys0 st) as [[[] | e] st1]; [| reflexivity].
    destruct (scene_draw (scene (game st1))) as [d | e]; [| reflexivity].
    destruct (quit_requested events0); [reflexivity |].
    now rewrite IH.
Qed.

Lemma DeltaGame_run_length (frames : list (Z * list event * pg.keys)) :
  forall (st st' : state) (drawn : list (list draw_op)),
    no_quit frames ->
    DeltaGame_run frames st = (Returns drawn, st') ->
    List.length drawn = List.length frames.
Proof.
  induction frames as [| [[dt events] keys] rest IH]; intros st st' drawn Hnq.
  - simpl. unfold ret. now intros [= <- _].
  - inversion Hnq as [| f fs Hq Hrest]; subst. simpl in Hq.
    rewrite DeltaGame_run_cons, Hq.
    destruct (scene_update dt keys st) as [[[] | e] st1]; [| discriminate].
    destruct (scene_draw (scene (game st1))) as [d | e]; [| discriminate].
    destruct (DeltaGame_run rest st1) as [[later | e] st2] eqn:Hrun; [| discriminate].
    intros [= <- _]. simpl. now rewrite (IH st1 st2 later Hrest Hrun).
Qed.

(** X12. A QUIT event ends the loop, but only after its frame: the frame in
    which it arrives is still updated and drawn like any other, and no frame
    after it is run, whatever it holds. *)
Theorem quit_ends_the_loop_after_its_frame
    (frames : list (Z * list event * pg.keys))
    (dt : Z) (events : list event) (keys : pg.keys)
    (rest : list (Z * list event * pg.keys)) (st : state) :
  quit_requested events = true ->
  DeltaGame_run (frames ++ (dt, events, keys) :: rest) st
  = DeltaGame_run (frames ++ [(dt, events, keys)]) st
  /\ (no_quit frames ->
      forall drawn st',
        DeltaGame_run (frames ++ [(dt, events, keys)]) st = (Returns drawn, st') ->
        exists st1 before last_drawn,
          DeltaGame_run frames st = (Returns before, st1)
          /\ scene_update dt keys st1 = (Returns tt, st')
          /\ scene_draw (scene (game st')) = Returns last_drawn
          /\ drawn = before ++ [last_drawn]
          /\ List.length drawn = S (List.length frames)).
Proof.
  intros Hq. split; [now apply DeltaGame_run_quit |].
  intros Hnq drawn st'. rewrite (DeltaGame_run_app frames _ st Hnq).
  destruct (DeltaGame_run frames st) as [[before | e] st1] eqn:Hrun; [| discriminate].
  rewrite DeltaGame_run_cons, Hq.
  destruct (scene_update dt keys st1) as [[[] | e] st2] eqn:Hup; [| discriminate].
  destruct (scene_draw (scene (game st2))) as [d | e] eqn:Hd; [| discriminate].
  intros [= <- <-]. exists st1, before, d.
  repeat split; try assumption.
  rewrite length_app, (DeltaGame_run_length frames st st1 before Hnq Hrun). simpl. lia.
Qed.


(** ** The launcher *)

(** When the launcher's window opens, its state is a dict that holds the
    chapter shown on the Play button. *)
Lemma run_launcher_open_returns (w : world) (v : pyval) (l : launcher) :
  run_launcher_open w = Launched (Returns v) l ->
  exists items,
    shared_state l = PDict items
    /\ dict_get "chapter" items = Some v
    /\ write_fault (launcher_os l) = write_fault w.
Proof.
  unfold run_launcher_open.
  assert (Hfault : write_fault (snd (load_save w)) = write_fault w).
  { unfold load_save. destruct (Path_exists w) as [[] | e]; try reflexivity.
    destruct (Path_read_text w) as [text | e]; [| reflexivity].
    now destruct (json_loads text). }
  destruct (load_save w) as [[data | e] w']; [| discriminate]. simpl in Hfault.
  intros [= Hget <-]. simpl.
  destruct data as [| b | z | f | s | vs | items]; try discriminate.
  exists items. split; [reflexivity |]. split; [| exact Hfault].
  unfold getitem in Hget. destruct (dict_get "chapter" items); [| discriminate].
  now injection Hget as ->.
Qed.

Lemma erase_dict (l : launcher) (items : list (string * pyval)) :
  shared_state l = PDict items ->
  erase true l =
    let state' :=
      PDict (dict_set "player" (PDict [("x", PInt 50); ("y", PInt 50)])
               (dict_set "chapter" (PInt 1) items)) in
    (fst (write_save state' (launcher_os l)),
     {| shared_state := state'; launcher_os := snd (write_save state' (launcher_os l)) |}).
Proof.
  intros Hst. unfold erase. rewrite Hst. cbn [dict_update fold_left fst snd].
  now destruct (write_save _ (launcher_os l)).
Qed.


(** X14. Whatever the save file held when the launcher opened, and whether the
    disk works or not: after Erase, Play shows the title for two seconds
    and then chapter one, the player at (50, 50). *)
Theorem erase_then_play_starts_chapter_one
    (w : world) (v : pyval) (l : launcher)
    (frames : list (Z * list event * pg.keys))
    (dt : Z) (events : list event) (keys : pg.keys) :
  run_launcher_open w = Launched (Returns v) l ->
  time_passes (without_events frames) ->
  no_quit frames ->
  total_dt (without_events frames) <= 2000 ->
  2000 < total_dt (without_events frames) + dt ->
  exists o l' st,
    erase true l = (o, l')
    /\ launcher_play l' (frames ++ [(dt, events, keys)])
       = (Returns (repeat title_screen (List.length frames)
                   ++ [chapter_screen 1 {| pg.x := 50; pg.y := 50;
                                           pg.w := 16; pg.h := 24 |}]),
          st)
    /\ scene (game st) = Chapter (started_for 1).
Proof.
  intros Hopen Htime Hnq Hle Hgt.
  destruct (run_launcher_open_returns w v l Hopen) as (items & Hst & _ & _).
  rewrite (erase_dict l items Hst). cbn zeta.
  eexists _, _, _. split; [reflexivity |].
  unfold launcher_play. cbn [shared_state launcher_os].
  rewrite DeltaGame_init_returns.
  match goal with
  | |- context [DeltaGame_run _ ?st0] =>
      rewrite (DeltaGame_run_to_transition frames dt events keys st0 eq_refl
                 Htime Hnq Hle Hgt)
  end.
  match goal with
  | |- context [scene_update dt keys ?st1] =>
      rewrite (title_update_above st1 (total_dt (without_events frames)) dt 1 keys
                 eq_refl Hgt)
  end.
  2: { cbn [with_scene save game]. unfold getitem.
       rewrite (dict_get_set_other "player" "chapter") by discriminate.
       now rewrite dict_get_set_same. }
  split; reflexivity.
Qed.

End MoreEngineFacts.

(** ** From one start to the next *)

Section SessionFacts.

Context `{Json}.

Lemma in_step_update (ch : Z) (save_data : pyval) (w : world)
      (st : state) (dt : Z) (keys : pg.keys) :
  playing ch st ->
  in_step save_data w st ->
  exists st',
    scene_update dt keys st = (Returns tt, st')
    /\ playing ch st'
    /\ in_step save_data w st'.
Proof.
  intros Hp Hin.
  destruct (playing_update ch st dt keys Hp) as (st' & Hup & Hp').
  exists st'. split; [exact Hup |]. split; [exact Hp' |].
  destruct Hp as (Hch & (items & pos & Hsave & Hplayer) & Hwr & Hdisk & Hscene).
  destruct (scene (game st)) as [t | c] eqn:Hs.
  - assert (Hsame : save (game st') = save (game st) /\ os st' = os st).
    { destruct Hscene as [n Hn]. destruct t as [[t |]]; [| discriminate].
      destruct (Z.le_gt_cases (t + dt) 2000) as [Hle | Hgt].
      - rewrite (title_update_below st t dt keys Hs Hle) in Hup.
        injection Hup as <-. now split.
      - rewrite (title_update_above st t dt ch keys Hs Hgt Hch) in Hup.
        injection Hup as <-. now split. }
    destruct Hsame as [Hsv Hos]. unfold in_step, on_disk in *.
    rewrite Hsv, Hos. exact Hin.
  - destruct (pg.K_ESCAPE keys) eqn:Hesc.
    + destruct Hp' as (_ & _ & Hwr' & _).
      destruct (json_dumps_writable _ Hwr') as [text' Hdumps'].
      right. exists text'. split; [exact Hdumps' |].
      destruct Hscene as (Hno & _ & _ & _ & Hfits).
      rewrite Hsave in Hwr, Hch.
      assert (Hwno : writable (chapter_no c) = true).
      { rewrite Hno. cbn [getitem] in Hch.
        destruct (dict_get "chapter" items) as [v |] eqn:Hget; [| discriminate].
        injection Hch as ->. exact (writable_dict_get _ _ _ Hwr Hget). }
      pose proof (stopped_items_writable c items pos Hwr Hplayer Hwno Hfits) as Hws.
      destruct (json_dumps_writable _ Hws) as [text Hdumps].
      rewrite (update_escape st c dt keys Hs Hesc) in Hup.
      rewrite (change_scene_to_title st c items pos text Hs Hsave Hplayer Hdisk Hdumps)
        in Hup.
      injection Hup as <-. cbn [save game os save_file] in *.
      rewrite Hdumps in Hdumps'. now injection Hdumps' as <-.
    + rewrite (chapter_update_plain st c dt keys Hs Hesc) in Hup.
      injection Hup as <-. exact Hin.
Qed.



End SessionFacts.

(** * The properties at concrete inputs *)

(** A start in a directory that may not be searched: [load_save] raises the
    error of the look-up. *)
Lemma load_save_raises_when_exists_raises_witness :
  load_save (H := PyJson_codec) locked_world
  = (Raises (OSError "[Errno 13] Permission denied: 'delta_save.json'"),
     locked_world).
Proof.
  exact (load_save_raises_when_exists_raises (H := PyJson_codec) locked_world).
Defined.

(** The file of chapter 2 is loaded as the record it holds. *)
Lemma load_save_returns_default_or_parsed_witness :
  load_save (H := PyJson_codec) saved_world
  = (Returns (save_record 2 53 54), saved_world)
  /\ has_save_shape default_save = true
  /\ match save_file saved_world with
     | Text text =>
         match json_loads (Json := PyJson_codec) text with
         | Returns parsed => save_record 2 53 54 = parsed
         | Raises _ => save_record 2 53 54 = default_save
         end
     | Inaccessible _ => False
     | _ => save_record 2 53 54 = default_save
     end.
Proof.
  split; [vm_compute; reflexivity |].
  apply (load_save_returns_default_or_parsed (H := PyJson_codec)
           saved_world saved_world (save_record 2 53 54)).
  vm_compute. reflexivity.
Defined.

(** Leaving the title scene for chapter 3 keeps the record and the file. *)
Lemma leaving_title_keeps_save_witness :
  save (game (snd (change_scene (H := PyJson_codec)
                     (Chapter (made_for 3)) title_state)))
  = save_record 3 70 80
  /\ os (snd (change_scene (H := PyJson_codec) (Chapter (made_for 3)) title_state))
     = world_with "kept".
Proof.
  apply (leaving_title_keeps_save (H := PyJson_codec) title_state
           {| timer := Some 1500 |} (Chapter (made_for 3))).
  reflexivity.
Defined.

(** Two frames of one second, a third that passes the threshold, and a step
    in the chapter: one request, for chapter two; and a fourth update of the
    title scene would be a second request. *)
Lemma title_auto_transition_witness :
  (exists st0,
     run (H := PyJson_codec) [(1000, no_keys); (1000, only_right)] title_started
     = (Returns tt, st0)
     /\ requested (calls st0) = requested (calls title_started)
     /\ scene (game st0) = Title {| timer := Some (0 + 2000) |})
  /\ exists st1,
       run (H := PyJson_codec)
         ([(1000, no_keys); (1000, only_right)] ++ [(1000, right_and_down)])
         title_started
       = (Returns tt, st1)
       /\ requested (calls st1)
          = requested (calls title_started) ++ [Chapter (made_for 2)]
       /\ ChapterScene_make (PInt 2) = Returns (made_for 2)
       /\ class_of (made_for 2) = named_variant 2
       /\ chapter_no (made_for 2) = PInt 2
       /\ scene (game st1) = Chapter (started_for 2)
       /\ (exists st2 c,
             run (H := PyJson_codec)
               ([(1000, no_keys); (1000, only_right)]
                ++ (1000, right_and_down) :: [(16, only_right)])
               title_started
             = (Returns tt, st2)
             /\ requested (calls st2)
                = requested (calls title_started) ++ [Chapter (made_for 2)]
             /\ scene (game st2) = Chapter c
             /\ class_of c = named_variant 2
             /\ chapter_no c = PInt 2)
       /\ (forall dt',
             2000 < 0 + 2000 + 1000 + dt' ->
             requested
               (calls (snd (TitleScene_update_detached (H := PyJson_codec)
                              {| timer := Some (0 + 2000 + 1000) |} dt' st1)))
             = requested (calls title_started)
               ++ [Chapter (made_for 2); Chapter (made_for 2)]).
Proof.
  apply (title_auto_transition (H := PyJson_codec) title_started 2 0 1000
           right_and_down [(1000, no_keys); (1000, only_right)]
           [(16, only_right)]).
  - reflexivity.
  - reflexivity.
  - simpl. lia.
  - simpl. lia.
  - repeat constructor.
Defined.

(** Two seconds on the title screen and 17 ms more, with a record that holds
    the position (10, 20). *)
Lemma chapter_scene_starts_at_50_50_witness :
  exists st,
    play (H := PyJson_codec) (save_record 2 10 20)
      ([(1000, no_keys); (1000, no_keys)] ++ [(17, only_right)]) fresh_world
    = (Returns tt, st)
    /\ scene (game st) = Chapter (started_for 2)
    /\ entity_position (scene (game st)) = Some (50, 50)
    /\ save (game st) = save_record 2 10 20.
Proof.
  apply (chapter_scene_starts_at_50_50 (H := PyJson_codec) (save_record 2 10 20) 2 17
           only_right [(1000, no_keys); (1000, no_keys)] fresh_world).
  - reflexivity.
  - repeat constructor; simpl; lia.
  - simpl; lia.
  - simpl; lia.
Defined.

(** One update of 16 ms from (53, 54). *)
Lemma chapter_update_moves_whole_pixels_witness :
  scene_update (H := PyJson_codec) 16 only_right walked_state
  = (Returns tt,
     with_scene (Chapter (moved_by (moved_by (started_for 1) 3 4) 1 0)) walked_state)
  /\ scene_update (H := PyJson_codec) 16 right_and_down walked_state
     = (Returns tt,
        with_scene (Chapter (moved_by (moved_by (started_for 1) 3 4) 1 1)) walked_state).
Proof.
  destruct (chapter_update_moves_whole_pixels (H := PyJson_codec) walked_state
              (moved_by (started_for 1) 3 4) eq_refl eq_refl)
    as (Hright & Hboth & _).
  - unfold pg.fits, INT_MIN, INT_MAX. simpl. lia.
  - split; [apply Hright | apply Hboth]; unfold INT_MAX; simpl; lia.
Defined.


(** ** The rest of the program at concrete inputs *)



(** From the title into chapter 3, a step, and the window closed: the record
    and the file are as they were. *)
Lemma nothing_is_saved_without_escape_witness :
  save (game (snd (DeltaGame_run (H := PyJson_codec) closing_frames title_state)))
  = save_record 3 70 80
  /\ os (snd (DeltaGame_run (H := PyJson_codec) closing_frames title_state))
     = world_with "kept".
Proof.
  apply (nothing_is_saved_without_escape (H := PyJson_codec)
           closing_frames title_state).
  repeat constructor.
Defined.


(** ESCAPE with a save dict that holds a chapter only. *)
Lemma stop_without_player_raises_witness :
  exists st',
    scene_update (H := PyJson_codec) 16 escape_and_right playerless_state
    = (Raises (KeyError "player"), st')
    /\ save (game st') = PDict [("chapter", PInt 1)]
    /\ os st' = fresh_world
    /\ scene (game st') = Chapter (started_for 1).
Proof.
  apply (stop_without_player_raises (H := PyJson_codec)
           playerless_state (started_for 1) 16 escape_and_right
           [("chapter", PInt 1)]); reflexivity.
Defined.

(** 17 ms with the right and the up key down from (53, 54): 2.04 pixels,
    of which 2 are made, along each axis. *)
Lemma keys_move_by_whole_pixels_witness :
  scene_update (H := PyJson_codec) 17
    {| pg.K_ESCAPE := false; pg.K_a := false; pg.K_d := true;
       pg.K_w := true; pg.K_s := false |} walked_state
  = (Returns tt,
     with_scene (Chapter (moved_by (moved_by (started_for 1) 3 4) 2 (-2)))
       walked_state).
Proof.
  refine (proj2 (keys_move_by_whole_pixels (H := PyJson_codec) walked_state
                   (moved_by (started_for 1) 3 4) 17
                   {| pg.K_ESCAPE := false; pg.K_a := false; pg.K_d := true;
                      pg.K_w := true; pg.K_s := false |}
                   eq_refl eq_refl eq_refl _) _ _).
  - lia.
  - unfold INT_MIN, INT_MAX. simpl. lia.
  - unfold INT_MIN, INT_MAX. simpl. lia.
Defined.

(** A walk that ends at x = 1253, far to the right of the window of 600
    pixels. *)
Lemma walking_is_never_clamped_witness :
  run (H := PyJson_codec) walk_frames started_state
  = (Returns tt,
     with_scene (Chapter (placed (started_for 1) 1253 52)) started_state).
Proof.
  apply (walking_is_never_clamped (H := PyJson_codec)
           walk_frames started_state (started_for 1)).
  - reflexivity.
  - reflexivity.
  - unfold pg.fits, INT_MIN, INT_MAX. simpl. lia.
  - repeat constructor.
  - repeat constructor; simpl; lia.
Defined.


(** A save file that holds an empty dict. *)
Lemma save_without_chapter_raises_after_two_seconds_witness :
  (exists st,
     main_nosplash (H := PyJson_codec) title_frames (world_with "{}")
     = Launched (Returns (repeat title_screen (List.length title_frames))) st)
  /\ exists st',
       main_nosplash (H := PyJson_codec)
         (title_frames ++ [(17, [], only_right)]) (world_with "{}")
       = Launched (Raises (KeyError "chapter")) st'
       /\ scene (game st')
          = Title {| timer := Some (total_dt (without_events title_frames) + 17) |}
       /\ save (game st') = PDict []
       /\ os st' = world_with "{}"
       /\ run_launcher_open (H := PyJson_codec) (world_with "{}")
          = Launched (Raises (KeyError "chapter"))
              {| shared_state := PDict []; launcher_os := world_with "{}" |}.
Proof.
  apply (save_without_chapter_raises_after_two_seconds (H := PyJson_codec)
           (world_with "{}") "{}" (PDict []) (KeyError "chapter")
           title_frames 17 [] only_right).
  - reflexivity.
  - reflexivity.
  - reflexivity.
  - repeat constructor; simpl; lia.
  - repeat constructor.
  - simpl; lia.
  - simpl; lia.
Defined.

(** A save whose chapter is [None]. *)
Lemma null_chapter_leaves_an_unstarted_scene_witness :
  exists st',
    launcher_play (H := PyJson_codec) (launcher_on (PDict [("chapter", PNone)]))
      (title_frames ++ [(17, [], only_right)])
    = (Raises (TypeError "unsupported operand type(s) for *: 'int' and 'NoneType'"),
       st')
    /\ scene (game st') = Chapter (ChapterScene_init ChapterScene PNone)
    /\ requested (calls st') = [Chapter (ChapterScene_init ChapterScene PNone)]
    /\ save (game st') = PDict [("chapter", PNone)]
    /\ os st' = fresh_world.
Proof.
  apply (null_chapter_leaves_an_unstarted_scene (H := PyJson_codec)
           (launcher_on (PDict [("chapter", PNone)])) title_frames 17 [] only_right).
  - reflexivity.
  - repeat constructor; simpl; lia.
  - repeat constructor.
  - simpl; lia.
  - simpl; lia.
Defined.

(** Chapter 5, whose colour would be (250, 100, 300). *)
Lemma chapter_out_of_range_cannot_be_drawn_witness :
  exists e st',
    launcher_play (H := PyJson_codec) (launcher_on (save_record 5 50 50))
      (title_frames ++ [(17, [], only_right)])
    = (Raises e, st')
    /\ scene (game st') = Chapter (started_for 5)
    /\ save (game st') = save_record 5 50 50
    /\ os st' = fresh_world.
Proof.
  apply (chapter_out_of_range_cannot_be_drawn (H := PyJson_codec)
           (launcher_on (save_record 5 50 50)) 5 title_frames 17 [] only_right).
  - reflexivity.
  - left. lia.
  - repeat constructor; simpl; lia.
  - repeat constructor.
  - simpl; lia.
  - simpl; lia.
Defined.

(** The window closed in the second frame of a chapter; the third frame is
    not run. *)
Lemma quit_ends_the_loop_after_its_frame_witness :
  DeltaGame_run (H := PyJson_codec)
    ([(16, [], only_right)] ++ (16, [OtherEvent; QUIT], only_right)
                               :: [(16, [], escape_and_right)])
    started_state
  = DeltaGame_run (H := PyJson_codec)
      ([(16, [], only_right)] ++ [(16, [OtherEvent; QUIT], only_right)])
      started_state
  /\ (no_quit [(16, [], only_right)] ->
      forall drawn st',
        DeltaGame_run (H := PyJson_codec)
          ([(16, [], only_right)] ++ [(16, [OtherEvent; QUIT], only_right)])
          started_state
        = (Returns drawn, st') ->
        exists st1 before last_drawn,
          DeltaGame_run (H := PyJson_codec) [(16, [], only_right)] started_state
          = (Returns before, st1)
          /\ scene_update (H := PyJson_codec) 16 only_right st1 = (Returns tt, st')
          /\ scene_draw (scene (game st')) = Returns last_drawn
          /\ drawn = before ++ [last_drawn]
          /\ List.length drawn = S (List.length [(16, ([] : list event), only_right)])).
Proof.
  apply (quit_ends_the_loop_after_its_frame (H := PyJson_codec)
           [(16, [], only_right)] 16 [OtherEvent; QUIT] only_right
           [(16, [], escape_and_right)] started_state).
  reflexivity.
Defined.


(** Erase and Play from the file of chapter 2. *)
Lemma erase_then_play_starts_chapter_one_witness :
  exists o l' st,
    erase (H := PyJson_codec) true
      {| shared_state := save_record 2 53 54; launcher_os := saved_world |}
    = (o, l')
    /\ launcher_play (H := PyJson_codec) l' (title_frames ++ [(17, [], only_right)])
       = (Returns (repeat title_screen (List.length title_frames)
                   ++ [chapter_screen 1 {| pg.x := 50; pg.y := 50;
                                           pg.w := 16; pg.h := 24 |}]),
          st)
    /\ scene (game st) = Chapter (started_for 1).
Proof.
  apply (erase_then_play_starts_chapter_one (H := PyJson_codec)
           saved_world (PInt 2)
           {| shared_state := save_record 2 53 54; launcher_os := saved_world |}
           title_frames 17 [] only_right).
  - vm_compute. reflexivity.
  - repeat constructor; simpl; lia.
  - repeat constructor.
  - simpl; lia.
  - simpl; lia.
Defined.



(** * Where the code departs from the specification *)

(** C1 as stated fails. A game started on the record [{chapter: 2, player:
    (10, 20)}] and run for one frame of 2001 ms is in chapter two with its
    player at (50, 50), not at the saved (10, 20). *)
Lemma saved_position_is_not_restored :
  exists st c,
    play (H := PyJson_codec) (save_record 2 10 20) [(2001, no_keys)] fresh_world
    = (Returns tt, st)
    /\ scene (game st) = Chapter c
    /\ class_of c = ChapterTwo
    /\ save (game st) = save_record 2 10 20
    /\ entity_position (scene (game st)) = Some (50, 50)
    /\ entity_position (scene (game st)) <> Some (10, 20).
Proof.
  eexists _, _. split; [reflexivity |]. simpl.
  repeat split; discriminate.
Qed.

(** C2 as stated fails. With speed 120 and [dt] = 16 ms the update with only
    the right key down moves the player from x = 50 to x = 51: one pixel,
    which is more than 0.9 away from the 120 * 0.016 = 1.92 of the
    statement. *)
Lemma right_key_moves_one_pixel_not_1_92 :
  let st := started_state in
  let expected := PrimFloat.mul (float_of_int 120) (int_truediv 16 1000) in
  exists st' c',
    scene_update (H := PyJson_codec) 16 only_right st = (Returns tt, st')
    /\ scene (game st') = Chapter c'
    /\ pg.x (player c') - pg.x (player (started_for 1)) = 1
    /\ PrimFloat.ltb (int_truediv 9 10)
         (PrimFloat.abs
            (PrimFloat.sub expected
               (float_of_int (pg.x (player c') - pg.x (player (started_for 1))))))
       = true.
Proof.
  intros st expected. eexists _, _.
  split; [vm_compute; reflexivity |].
  split; [reflexivity |].
  split; vm_compute; reflexivity.
Qed.

(** C4 as stated fails. A title scene that is started and updated twice, by
    2001 ms and by 16 ms, has been updated for more than 2000 ms in all and
    has asked for the chapter twice, not once: nothing in it remembers that
    it asked before. *)
Lemma title_updated_again_asks_again :
  exists st1 st2 kept,
    TitleScene_update (H := PyJson_codec) {| timer := Some 0 |} 2001 title_started
    = (Returns tt, st1)
    /\ TitleScene_update_detached (H := PyJson_codec) {| timer := Some 2001 |} 16 st1
       = (Returns kept, st2)
    /\ 2000 < 2001 + 16
    /\ requested (calls st2) = [Chapter (made_for 2); Chapter (made_for 2)]
    /\ List.length (requested (calls st2)) <> 1%nat.
Proof.
  eexists _, _, _.
  split; [vm_compute; reflexivity |].
  split; [vm_compute; reflexivity |].
  split; [lia |]. split; [reflexivity | discriminate].
Qed.

(** C7 as stated fails. A save file that holds the text of an empty JSON
    array is loaded as the empty list, which has neither a chapter nor a
    player. *)
Lemma load_save_returns_a_list :
  load_save (H := PyJson_codec) (world_with "[]")
  = (Returns (PList []), world_with "[]")
  /\ has_save_shape (PList []) = false.
Proof.
  split; reflexivity.
Qed.

